(** * MediaMTX VOD recorder: a shallow embedding of [recorder.py]

    The development follows the layout of the source file:
    - [Py]: the Python values the program handles (the parsed JSON body,
      insertion-ordered dicts, [strftime]);
    - [Settings], [TransferConfig], [RecordingProcess], the upload task;
    - a state-and-exception monad [M], in which the methods of [S3Uploader],
      [FFmpegRecorder] and [MediaMTXMonitor] are written statement by statement;
    - concrete inputs, the vocabulary of the statements, and the properties, grouped by
      method.

    What the program cannot decide itself (the HTTP answer, whether a child process is
    still running, the content of a directory, whether an S3 put succeeds) is read from
    an [Env] record of oracles, one record per call of a method: the outside world may
    change in any way between two calls and is taken as fixed during one. Effects that
    leave no mark on the program state (sleeping, logging, spawning, writing to a
    child) are recorded, in program order, in the [trace] of the state. An exception
    leaves the state as the raising statement found it, as in Python.

    Each thread of the program is modelled by the method it runs, one call at a time:
    [run_iteration] for the loop of [run], [check_segments_round] for
    [check_segments_loop], [process_queue_step] for [process_queue] and its executor.
    [shutdown], [main] and the signal handler are not modelled. Times are whole
    seconds. *)

From stdpp Require Import gmap strings list sorting.
From Stdlib Require Import ZArith Floats.

#[local] Set Warnings "-register-all".
Local Open Scope string_scope.
Local Open Scope list_scope.
Local Open Scope Z_scope.

(** ** Python values *)

Module Py.

(** An insertion-ordered [dict] with string keys. *)
Abbreviation dict V := (list (string * V)).

Section Dict.
Context {V : Type}.

Fixpoint get (k : string) (d : dict V) : option V :=
  match d with
  | [] => None
  | (k', v) :: d' => if decide (k' = k) then Some v else get k d'
  end.

(** [k in d] *)
Definition contains (k : string) (d : dict V) : bool :=
  bool_decide (is_Some (get k d)).

(** [list(d.keys())] *)
Definition keys (d : dict V) : list string := d.*1.

(** [d[k] = v]: an existing key keeps its position, a new key goes last. *)
Fixpoint set (k : string) (v : V) (d : dict V) : dict V :=
  match d with
  | [] => [(k, v)]
  | (k', v') :: d' =>
      if decide (k' = k) then (k, v) :: d' else (k', v') :: set k v d'
  end.

Definition remove (k : string) (d : dict V) : dict V :=
  filter (λ kv, kv.1 ≠ k) d.

(** [del d[k]]: [None] stands for the [KeyError] of an absent key. *)
Definition del (k : string) (d : dict V) : option (dict V) :=
  if contains k d then Some (remove k d) else None.
End Dict.

(** The result of [response.json()]. *)
Inductive value : Type :=
| None_
| Bool (b : bool)
| Int (n : Z)
| Float (f : float)
| Str (s : string)
| List (l : list value)
| Dict (d : list (string * value)).

(** [bool(v)] *)
Definition truthy (v : value) : bool :=
  match v with
  | None_ => false
  | Bool b => b
  | Int n => negb (n =? 0)
  | Float f => negb (PrimFloat.eqb f PrimFloat.zero)
  | Str s => negb (bool_decide (s = ""))
  | List l => negb (bool_decide (length l = 0%nat))
  | Dict d => negb (bool_decide (length d = 0%nat))
  end.

(** ** [datetime.utcnow().strftime(...)]

    The clock is a number of seconds since the epoch; [civil] is the proleptic
    Gregorian date of a day number (days since 1970-01-01). *)
Definition civil (days : Z) : Z * Z * Z :=
  let z := days + 719468 in
  let era := z / 146097 in
  let doe := z mod 146097 in
  let yoe := (doe - doe / 1460 + doe / 36524 - doe / 146096) / 365 in
  let doy := doe - (365 * yoe + yoe / 4 - yoe / 100) in
  let mp := (5 * doy + 2) / 153 in
  let d := doy - (153 * mp + 2) / 5 + 1 in
  let m := if mp <? 10 then mp + 3 else mp - 9 in
  let y := yoe + era * 400 + (if m <=? 2 then 1 else 0) in
  (y, m, d).

Definition digit (n : Z) : Ascii.ascii := Ascii.ascii_of_nat (48 + Z.to_nat (n mod 10)).

(** The last [w] decimal digits of [n], zero padded. *)
Fixpoint dec (w : nat) (n : Z) (acc : string) : string :=
  match w with
  | O => acc
  | S w' => dec w' (n / 10) (String (digit n) acc)
  end.

(** ['%Y%m%d_%H%M%S'] *)
Definition strftime_session (t : Z) : string :=
  let '(y, m, d) := civil (t / 86400) in
  let s := t mod 86400 in
  dec 4 y (dec 2 m (dec 2 d
    ("_" +:+ dec 2 (s / 3600) (dec 2 (s / 60 mod 60) (dec 2 (s mod 60) ""))))).

(** ['%Y-%m-%d'] *)
Definition strftime_date (t : Z) : string :=
  let '(y, m, d) := civil (t / 86400) in
  dec 4 y ("-" +:+ dec 2 m ("-" +:+ dec 2 d "")).

End Py.

(** ** Paths

    A [pathlib.Path] as its list of components; [p / s] appends one. *)
Definition Path : Type := list string.

Definition path_join (p : Path) (s : string) : Path := p ++ [s].
Infix "//" := path_join (at level 40, left associativity).

(** [p.name] *)
Definition path_name (p : Path) : string := default "" (last p).

(** [name] matches [segment_*.<fmt>]. *)
Definition is_suffix (suf s : string) : bool :=
  String.prefix (String.rev suf) (String.rev s).

Definition segment_match (fmt name : string) : bool :=
  String.prefix "segment_" name
  && is_suffix ("." +:+ fmt) name
  && bool_decide (String.length "segment_" + String.length ("." +:+ fmt)
                  ≤ String.length name)%nat.

(** ** Configuration: [class Settings] *)
Record Settings : Type := {
  MEDIAMTX_API_URL : string;
  MEDIAMTX_RTSP_URL : string;
  POLLING_INTERVAL : Z;
  S3_BUCKET_NAME : string;
  MAX_CONCURRENT_RECORDINGS : Z;
  SEGMENT_DURATION : Z;
  OUTPUT_FORMAT : string;
  RECORDINGS_DIR : Path;
  UPLOAD_WORKERS : Z
}.

(** The values [Settings] takes when no environment variable is set. *)
Definition default_settings : Settings := {|
  MEDIAMTX_API_URL := "http://mediamtx:9997";
  MEDIAMTX_RTSP_URL := "rtsp://mediamtx:8554";
  POLLING_INTERVAL := 10;
  S3_BUCKET_NAME := "vod";
  MAX_CONCURRENT_RECORDINGS := 10;
  SEGMENT_DURATION := 60;
  OUTPUT_FORMAT := "mp4";
  RECORDINGS_DIR := ["/"; "recordings"];
  UPLOAD_WORKERS := 3
|}.

(** ** [TransferConfig(...)] of [S3Uploader.__init__] (sizes in bytes) *)
Record TransferConfig : Type := {
  multipart_threshold : Z;
  max_concurrency : Z;
  multipart_chunksize : Z;
  use_threads : bool
}.

Definition transfer_config : TransferConfig := {|
  multipart_threshold := 1024 * 25;
  max_concurrency := 10;
  multipart_chunksize := 1024 * 25;
  use_threads := true
|}.

Definition MiB : Z := 1024 * 1024.

(** ** Program data *)

Record Popen : Type := { p_pid : Z }.

(** [@dataclass RecordingProcess]; [start_time] is the clock at creation. *)
Record RecordingProcess : Type := {
  stream_name : string;
  session_id : string;
  process : option Popen;
  start_time : Z;
  output_dir : option Path;
  uploaded_files : gset string;
  is_active : bool;
  pid : option Z
}.

Definition with_uploaded_files (f : gset string → gset string)
    (r : RecordingProcess) : RecordingProcess := {|
  stream_name := stream_name r; session_id := session_id r; process := process r;
  start_time := start_time r; output_dir := output_dir r;
  uploaded_files := f (uploaded_files r); is_active := is_active r; pid := pid r
|}.

Definition with_is_active (b : bool) (r : RecordingProcess) : RecordingProcess := {|
  stream_name := stream_name r; session_id := session_id r; process := process r;
  start_time := start_time r; output_dir := output_dir r;
  uploaded_files := uploaded_files r; is_active := b; pid := pid r
|}.

(** The dict [queue_upload] puts on the queue; ['retry_count'] is absent until the
    first failure. *)
Record UploadTask : Type := {
  file_path : Path;
  task_stream_name : string;
  task_session_id : string;
  queued_at : Z;
  retry_count : option Z
}.

Definition with_retry_count (n : Z) (t : UploadTask) : UploadTask := {|
  file_path := file_path t; task_stream_name := task_stream_name t;
  task_session_id := task_session_id t; queued_at := queued_at t;
  retry_count := Some n
|}.

(** ** The environment *)

Record stat_result : Type := { st_mtime : Z; st_size : Z }.

(** A directory entry; [d_stat = None] when [stat()] on it raises. *)
Record DirEntry : Type := { d_name : string; d_stat : option stat_result }.

Inductive http_outcome : Type :=
| HttpFails                                           (* [requests.get] raises *)
| HttpResponse (status_code : Z) (json : option Py.value).  (* [None]: [.json()] raises *)

Record Env : Type := {
  http_get : http_outcome;
  (** [output_dir.mkdir(parents=True, exist_ok=True)]: [false] when it raises *)
  mkdir : Path → bool;
  (** [subprocess.Popen] of the capture child writing into a directory: its pid, or
      [None] when the call raises *)
  popen : Path → option Z;
  (** [Popen.poll()]: the return code of a child, [None] while it runs *)
  child_poll : Z → option Z;
  (** does the child exit within 5 s of the [q] written to its stdin *)
  quits_on_q : Z → bool;
  (** the entries of a directory, in the order the OS lists them; [None] when the
      directory does not exist *)
  listdir : Path → option (list DirEntry);
  path_exists : Path → bool;
  (** [s3_client.upload_file(path, bucket, key)]: [false] when it raises *)
  s3_upload_file : Path → string → string → bool;
  (** [file_path.unlink()]: [false] when it raises *)
  unlink : Path → bool
}.

(** ** Effects *)

Inductive Level : Type := DEBUG | INFO | WARNING | ERROR.

Inductive Msg : Type :=
| QueuedForUpload (name : string)
| FileNotFound (p : Path)
| Uploading (name key : string)
| Uploaded (name : string)
| DeletedLocal (p : Path)
| DeleteFailed (p : Path)
| UploadFailed (p : Path)
| StartingFFmpeg (input_url : string) (output_pattern : Path)
| StartedRecording (stream : string) (pid : Z)
| ForceKill (pid : Z)
| StoppedRecordingPid (stream : string) (pid : option Z)
| ActiveStreams (names : list string)
| GetActiveFailed
| CheckSegmentsFailed
| FoundSegment (name : string) (size : Z)
| AlreadyRecorded (stream : string)
| MaxReached (cap : Z)
| DiedImmediately (stream : string)
| StartedOk (stream : string)
| StoppedRecording (stream : string)
| DiedRestarting (stream : string)
| NoLongerActive (stream : string)
| LoopError.

Inductive Event : Type :=
| EvLog (lvl : Level) (m : Msg)
| EvSleep (secs : Z)
| EvHttpGet (url : string)
| EvPopen (stream session : string) (pid : Z)   (* the capture child is spawned *)
| EvWriteQuit (pid : Z)                         (* [q] on the child's stdin, wait 5 s *)
| EvKill (pid : Z)
| EvRegister (stream session : string)          (* [self.recordings[stream] = ...] *)
| EvUnregister (stream : string)                (* [del self.recordings[stream]] *)
| EvDispatch (stream name : string)             (* [uploaded_files.add(name)] *)
| EvPut (t : UploadTask)                        (* [upload_queue.put(t)] *)
| EvS3Put (p : Path) (key : string)
| EvUnlink (p : Path).

(** ** Program state

    The fields of [MediaMTXMonitor] and [S3Uploader] that change, the wall clock
    (seconds since the epoch, advanced by [time.sleep]) and the effects so far. *)
Record State : Type := {
  recordings : Py.dict RecordingProcess;
  upload_queue : list UploadTask;
  clock : Z;
  trace : list Event
}.

Definition set_recordings (d : Py.dict RecordingProcess) (st : State) : State :=
  {| recordings := d; upload_queue := upload_queue st; clock := clock st;
     trace := trace st |}.

(** ** The monad: state that survives an exception *)

Inductive exn : Type :=
| KeyError | AttributeError | TypeError | OSError
| RequestException | JSONDecodeError | S3UploadFailedError.

Inductive result (A : Type) : Type :=
| Ok (a : A)
| Raise (e : exn).
Arguments Ok {A} a.
Arguments Raise {A} e.

Definition M (A : Type) : Type := State → result A * State.

Definition ret {A} (a : A) : M A := λ st, (Ok a, st).

Definition bind {A B} (c : M A) (k : A → M B) : M B := λ st,
  match c st with
  | (Ok a, st') => k a st'
  | (Raise e, st') => (Raise e, st')
  end.

Definition raise {A} (e : exn) : M A := λ st, (Raise e, st).

(** [try: c except Exception as e: h e] *)
Definition try_except {A} (c : M A) (h : exn → M A) : M A := λ st,
  match c st with
  | (Ok a, st') => (Ok a, st')
  | (Raise e, st') => h e st'
  end.

Declare Scope prog_scope.
Delimit Scope prog_scope with prog.
Notation "x <- c ;; k" := (bind c (λ x, k))
  (at level 100, c at next level, right associativity) : prog_scope.
Notation "c ;; k" := (bind c (λ _, k))
  (at level 100, right associativity) : prog_scope.
Local Open Scope prog_scope.

Fixpoint for_each {A} (l : list A) (body : A → M unit) : M unit :=
  match l with
  | [] => ret tt
  | x :: l' => body x ;; for_each l' body
  end.

Definition lift {A} (r : result A) : M A := λ st, (r, st).

Definition emit (e : Event) : M unit := λ st,
  (Ok tt, {| recordings := recordings st; upload_queue := upload_queue st;
             clock := clock st; trace := trace st ++ [e] |}).

Definition log (lvl : Level) (m : Msg) : M unit := emit (EvLog lvl m).

(** [time.sleep(secs)] *)
Definition sleep (secs : Z) : M unit := λ st,
  (Ok tt, {| recordings := recordings st; upload_queue := upload_queue st;
             clock := clock st + secs; trace := trace st ++ [EvSleep secs] |}).

(** [datetime.utcnow()] *)
Definition utcnow : M Z := λ st, (Ok (clock st), st).

Definition get_recordings : M (Py.dict RecordingProcess) := λ st, (Ok (recordings st), st).

Definition put_recordings (d : Py.dict RecordingProcess) : M unit := λ st,
  (Ok tt, set_recordings d st).

(** [upload_queue.put(t)] *)
Definition queue_put (t : UploadTask) : M unit := λ st,
  (Ok tt, {| recordings := recordings st; upload_queue := upload_queue st ++ [t];
             clock := clock st; trace := trace st ++ [EvPut t] |}).

(** Running a method: the final state, and the events it added. *)
Definition exec {A} (c : M A) (st : State) : State := (c st).2.
Definition outcome {A} (c : M A) (st : State) : result A := (c st).1.
Definition events {A} (c : M A) (st : State) : list Event :=
  drop (length (trace st)) (trace (exec c st)).

(** ** [get_active_streams]: the pure part, on the parsed body *)

Definition rbind {A B} (r : result A) (k : A → result B) : result B :=
  match r with
  | Ok a => k a
  | Raise e => Raise e
  end.

(** [v.get(key)]: only a dict has [get]. *)
Definition py_get (v : Py.value) (key : string) : result Py.value :=
  match v with
  | Py.Dict d => Ok (default Py.None_ (Py.get key d))
  | _ => Raise AttributeError
  end.

(** [v[key]] for a [v] on which [get] has succeeded. *)
Definition py_getitem (v : Py.value) (key : string) : result Py.value :=
  match v with
  | Py.Dict d =>
      match Py.get key d with
      | Some x => Ok x
      | None => Raise KeyError
      end
  | _ => Raise TypeError
  end.

(** [item.get('ready') and item.get('source')], as the [if] of the comprehension
    reads it. *)
Definition item_live (item : Py.value) : result bool :=
  rbind (py_get item "ready") (λ ready,
    if Py.truthy ready
    then rbind (py_get item "source") (λ source, Ok (Py.truthy source))
    else Ok false).

(** [[item['name'] for item in items if ...]] *)
Fixpoint comprehension (items : list Py.value) : result (list Py.value) :=
  match items with
  | [] => Ok []
  | item :: rest =>
      rbind (item_live item) (λ live,
        if live
        then rbind (py_getitem item "name") (λ name,
               rbind (comprehension rest) (λ names, Ok (name :: names)))
        else comprehension rest)
  end.

(** [', '.join(names)] accepts strings only; what is kept of it is that every name
    is one. *)
Fixpoint join_names (names : list Py.value) : result (list string) :=
  match names with
  | [] => Ok []
  | Py.Str s :: rest => rbind (join_names rest) (λ ss, Ok (s :: ss))
  | _ :: _ => Raise TypeError
  end.

(** The body of [if response.status_code == 200:], from the parsed [data]; [None]
    when control falls through to the final [return []]. A truthy ['items'] that is
    not a list raises on iteration or on the first [item.get]. *)
Definition active_of_data (data : Py.value) : result (option (list string)) :=
  rbind (py_get data "items") (λ items,
    if Py.truthy items
    then match items with
         | Py.List l =>
             rbind (comprehension l) (λ active,
               match active with
               | [] => Ok (Some [])
               | _ :: _ => rbind (join_names active) (λ ss, Ok (Some ss))
               end)
         | Py.Dict _ | Py.Str _ => Raise AttributeError
         | _ => Raise TypeError
         end
    else Ok None).

(** ** The methods *)

Section Program.
Variable settings : Settings.
Variable env : Env.

(** *** [class S3Uploader] *)

Definition queue_upload (file_path : Path) (stream_name session_id : string) : M unit :=
  now <- utcnow ;;
  queue_put {| file_path := file_path; task_stream_name := stream_name;
               task_session_id := session_id; queued_at := now;
               retry_count := None |} ;;
  log INFO (QueuedForUpload (path_name file_path)).

Definition s3_key (stream_name date_folder session_id name : string) : string :=
  stream_name +:+ "/" +:+ date_folder +:+ "/" +:+ session_id +:+ "/" +:+ name.

Definition upload_file (task : UploadTask) : M unit :=
  let file_path := file_path task in
  let stream_name := task_stream_name task in
  let session_id := task_session_id task in
  try_except
    (sleep 2 ;;
     if negb (path_exists env file_path)
     then log WARNING (FileNotFound file_path)
     else
       now <- utcnow ;;
       let key := s3_key stream_name (Py.strftime_date now) session_id
                    (path_name file_path) in
       log INFO (Uploading (path_name file_path) key) ;;
       emit (EvS3Put file_path key) ;;
       (if s3_upload_file env file_path (S3_BUCKET_NAME settings) key
        then ret tt else raise S3UploadFailedError) ;;
       log INFO (Uploaded (path_name file_path)) ;;
       try_except
         (emit (EvUnlink file_path) ;;
          (if unlink env file_path then ret tt else raise OSError) ;;
          log DEBUG (DeletedLocal file_path))
         (λ _, log ERROR (DeleteFailed file_path)))
    (λ _,
       log ERROR (UploadFailed file_path) ;;
       if default 0 (retry_count task) <? 3
       then
         let task := with_retry_count (default 0 (retry_count task) + 1) task in
         sleep 5 ;;
         queue_put task
       else ret tt).

(** *** [class FFmpegRecorder] *)

Definition start_recording (stream_name session_id : string) : M RecordingProcess :=
  let output_dir := RECORDINGS_DIR settings // (stream_name +:+ "_" +:+ session_id) in
  let input_url := MEDIAMTX_RTSP_URL settings +:+ "/" +:+ stream_name in
  let output_pattern := output_dir // ("segment_%03d." +:+ OUTPUT_FORMAT settings) in
  (if mkdir env output_dir then ret tt else raise OSError) ;;
  log INFO (StartingFFmpeg input_url output_pattern) ;;
  match popen env output_dir with
  | None => raise OSError
  | Some child =>
      emit (EvPopen stream_name session_id child) ;;
      now <- utcnow ;;
      log INFO (StartedRecording stream_name child) ;;
      ret {| stream_name := stream_name; session_id := session_id;
             process := Some {| p_pid := child |}; start_time := now;
             output_dir := Some output_dir; uploaded_files := ∅;
             is_active := true; pid := Some child |}
  end.

(** [recording.process.poll() is not None] *)
Definition has_exited (p : Popen) : bool := bool_decide (is_Some (child_poll env (p_pid p))).

Definition stop_recording (recording : RecordingProcess) : M unit :=
  match process recording with
  | Some p =>
      if negb (has_exited p)
      then
        try_except
          (emit (EvWriteQuit (p_pid p)) ;;
           if quits_on_q env (p_pid p) then ret tt else raise OSError)
          (λ _, log WARNING (ForceKill (p_pid p)) ;; emit (EvKill (p_pid p))) ;;
        log INFO (StoppedRecordingPid (stream_name recording) (pid recording))
      else ret tt
  | None => ret tt
  end.

(** *** [class MediaMTXMonitor] *)

Definition get_active_streams : M (list string) :=
  try_except
    (emit (EvHttpGet (MEDIAMTX_API_URL settings +:+ "/v3/paths/list")) ;;
     match http_get env with
     | HttpFails => raise RequestException
     | HttpResponse status_code body =>
         if status_code =? 200
         then
           data <- match body with
                   | Some data => ret data
                   | None => raise JSONDecodeError
                   end ;;
           found <- lift (active_of_data data) ;;
           match found with
           | Some active_streams =>
               match active_streams with
               | [] => ret []
               | _ :: _ => log INFO (ActiveStreams active_streams) ;; ret active_streams
               end
           | None => ret []
           end
         else ret []
     end)
    (λ _, log ERROR GetActiveFailed ;; ret []).

(** [sorted(output_dir.glob("segment_*.<fmt>"))] and the unsorted glob. *)
Definition entry_le (a b : DirEntry) : Prop := String.le (d_name a) (d_name b).

#[local] Instance entry_le_dec : RelDecision entry_le.
Proof. intros a b. unfold entry_le. apply _. Defined.

Definition glob_segments (entries : list DirEntry) : list DirEntry :=
  filter (λ e, segment_match (OUTPUT_FORMAT settings) (d_name e) = true) entries.

Definition sorted_segments (entries : list DirEntry) : list DirEntry :=
  merge_sort entry_le (glob_segments entries).

(** [recording.uploaded_files] of the session now registered for [stream_name]. *)
Definition dispatched (stream_name : string) (st : State) : gset string :=
  match Py.get stream_name (recordings st) with
  | Some r => uploaded_files r
  | None => ∅
  end.

(** [recording.uploaded_files.add(name)]: the session object is the one the table
    holds under [stream_name]. *)
Definition dispatched_add (stream_name name : string) : M unit :=
  recs <- get_recordings ;;
  match Py.get stream_name recs with
  | Some r =>
      put_recordings (Py.set stream_name (with_uploaded_files (λ s, {[name]} ∪ s) r) recs)
  | None => ret tt
  end ;;
  emit (EvDispatch stream_name name).

(** The body of [for segment_file in segment_files[:-1]]. *)
Definition check_segment (stream_name : string) (recording : RecordingProcess)
    (dir : Path) (segment_file : DirEntry) : M unit :=
  seen <- (λ st, (Ok (dispatched stream_name st), st)) ;;
  if bool_decide (d_name segment_file ∈ seen)
  then ret tt
  else
    match d_stat segment_file with
    | None => raise OSError
    | Some s =>
        now <- utcnow ;;
        let file_age := now - st_mtime s in
        if 10 <? file_age
        then
          log INFO (FoundSegment (d_name segment_file) (st_size s)) ;;
          dispatched_add stream_name (d_name segment_file) ;;
          queue_upload (dir // d_name segment_file) stream_name (session_id recording)
        else ret tt
    end.

(** The body of [for stream_name, recording in self.recordings.items()]. *)
Definition check_recording (item : string * RecordingProcess) : M unit :=
  let '(stream_name, recording) := item in
  match output_dir recording with
  | None => ret tt
  | Some dir =>
      match listdir env dir with
      | None => ret tt
      | Some entries =>
          let segment_files := sorted_segments entries in
          if (length segment_files <=? 1)%nat
          then ret tt
          else
            for_each (take (length segment_files - 1) segment_files)
              (check_segment stream_name recording dir)
      end
  end.

Definition check_completed_segments : M unit :=
  recs <- get_recordings ;;
  for_each recs check_recording.

(** One round of [check_segments_loop]. *)
Definition check_segments_round : M unit :=
  try_except
    (check_completed_segments ;; sleep 30)
    (λ _, log ERROR CheckSegmentsFailed).

Definition start_stream_recording (stream_name : string) : M unit :=
  recs <- get_recordings ;;
  if Py.contains stream_name recs
  then log WARNING (AlreadyRecorded stream_name)
  else if MAX_CONCURRENT_RECORDINGS settings <=? Z.of_nat (length recs)
  then log WARNING (MaxReached (MAX_CONCURRENT_RECORDINGS settings))
  else
    now <- utcnow ;;
    let session_id := Py.strftime_session now in
    recording <- start_recording stream_name session_id ;;
    sleep 2 ;;
    if match process recording with Some p => has_exited p | None => false end
    then log ERROR (DiedImmediately stream_name)
    else
      recs <- get_recordings ;;
      put_recordings (Py.set stream_name recording recs) ;;
      emit (EvRegister stream_name session_id) ;;
      log INFO (StartedOk stream_name).

Definition stop_stream_recording (stream_name : string) : M unit :=
  recs <- get_recordings ;;
  match Py.get stream_name recs with
  | None => ret tt
  | Some recording =>
      let recording := with_is_active false recording in
      put_recordings (Py.set stream_name recording recs) ;;
      stop_recording recording ;;
      match output_dir recording with
      | Some dir =>
          match listdir env dir with
          | Some entries =>
              for_each (glob_segments entries) (λ e,
                queue_upload (dir // d_name e) stream_name (session_id recording))
          | None => ret tt
          end
      | None => ret tt
      end ;;
      recs <- get_recordings ;;
      match Py.del stream_name recs with
      | Some recs' => put_recordings recs' ;; emit (EvUnregister stream_name)
      | None => raise KeyError
      end ;;
      log INFO (StoppedRecording stream_name)
  end.

(** The body of [for stream_name, recording in list(self.recordings.items())]. *)
Definition check_health (item : string * RecordingProcess) : M unit :=
  let '(stream_name, recording) := item in
  if match process recording with Some p => has_exited p | None => false end
  then
    log WARNING (DiedRestarting stream_name) ;;
    recs <- get_recordings ;;
    match Py.del stream_name recs with
    | Some recs' => put_recordings recs' ;; emit (EvUnregister stream_name)
    | None => raise KeyError
    end ;;
    start_stream_recording stream_name
  else ret tt.

Definition monitor_process_health : M unit :=
  recs <- get_recordings ;;
  for_each recs check_health.

(** [for stream_name in active_streams: ...] of [run]. *)
Definition start_new_streams (active_streams : list string) : M unit :=
  for_each active_streams (λ stream_name,
    recs <- get_recordings ;;
    if negb (Py.contains stream_name recs)
    then start_stream_recording stream_name
    else ret tt).

(** [for stream_name in list(self.recordings.keys()): ...] of [run]. *)
Definition stop_inactive_streams (active_streams : list string) : M unit :=
  recs <- get_recordings ;;
  for_each (Py.keys recs) (λ stream_name,
    if negb (bool_decide (stream_name ∈ active_streams))
    then log INFO (NoLongerActive stream_name) ;; stop_stream_recording stream_name
    else ret tt).

(** One iteration of the [while self.running] loop of [run]. *)
Definition run_iteration : M unit :=
  try_except
    (active_streams <- get_active_streams ;;
     start_new_streams active_streams ;;
     stop_inactive_streams active_streams ;;
     monitor_process_health)
    (λ _, log ERROR LoopError) ;;
  sleep (POLLING_INTERVAL settings).

End Program.

(** ** Concrete inputs used by the examples below *)

Module Ex.

(** An environment in which nothing answers: the poll fails, no child can be
    spawned, every child has exited, no directory exists. *)
Definition env0 : Env := {|
  http_get := HttpFails;
  mkdir := λ _, true;
  popen := λ _, None;
  child_poll := λ _, Some 0;
  quits_on_q := λ _, true;
  listdir := λ _, None;
  path_exists := λ _, true;
  s3_upload_file := λ _ _ _, true;
  unlink := λ _, true
|}.

Definition with_http (h : http_outcome) (e : Env) : Env := {|
  http_get := h; mkdir := mkdir e; popen := popen e; child_poll := child_poll e;
  quits_on_q := quits_on_q e; listdir := listdir e; path_exists := path_exists e;
  s3_upload_file := s3_upload_file e; unlink := unlink e
|}.

Definition with_listdir (l : Path → option (list DirEntry)) (e : Env) : Env := {|
  http_get := http_get e; mkdir := mkdir e; popen := popen e;
  child_poll := child_poll e; quits_on_q := quits_on_q e; listdir := l;
  path_exists := path_exists e; s3_upload_file := s3_upload_file e;
  unlink := unlink e
|}.

(** Children: [popen] hands out [new_pid]; exactly the pids in [dead] have exited. *)
Definition with_children (new_pid : Z) (dead : list Z) (e : Env) : Env := {|
  http_get := http_get e; mkdir := mkdir e; popen := λ _, Some new_pid;
  child_poll := λ p, if bool_decide (p ∈ dead) then Some 1 else None;
  quits_on_q := quits_on_q e; listdir := listdir e;
  path_exists := path_exists e; s3_upload_file := s3_upload_file e;
  unlink := unlink e
|}.

Definition with_s3 (ok : bool) (e : Env) : Env := {|
  http_get := http_get e; mkdir := mkdir e; popen := popen e;
  child_poll := child_poll e; quits_on_q := quits_on_q e; listdir := listdir e;
  path_exists := path_exists e; s3_upload_file := λ _ _ _, ok;
  unlink := unlink e
|}.

(** 2024-01-01 00:00:00 UTC *)
Definition t0 : Z := 1704067200.

Definition cam1_dir : Path := ["/"; "recordings"; "cam1_20240101_000000"].

(** The session [start_stream_recording "cam1"] registers at [t0] for child 100. *)
Definition cam1 : RecordingProcess := {|
  stream_name := "cam1"; session_id := "20240101_000000";
  process := Some {| p_pid := 100 |}; start_time := t0;
  output_dir := Some cam1_dir; uploaded_files := ∅;
  is_active := true; pid := Some 100
|}.

Definition file (name : string) (mtime : Z) : DirEntry :=
  {| d_name := name; d_stat := Some {| st_mtime := mtime; st_size := 1000000 |} |}.

Definition state (recs : Py.dict RecordingProcess) (now : Z) : State :=
  {| recordings := recs; upload_queue := []; clock := now; trace := [] |}.

(** [{"items": [{"name": n, "ready": ready, "source": source}]}] *)
Definition body1 (n : string) (ready source : Py.value) : Py.value :=
  Py.Dict [("items", Py.List [Py.Dict [("name", Py.Str n); ("ready", ready);
                                       ("source", source)]])].

Definition rtsp_source : Py.value :=
  Py.Dict [("type", Py.Str "rtspSession"); ("id", Py.Str "a1b2")].

End Ex.

(** Output directories of the session [cam1]. *)
Module ExScan.
Import Ex.


(** [segment_000] was last written at [t0], [segment_001] at [t0 + 60]. *)
Definition two_files : Env :=
  with_listdir (λ p, if decide (p = cam1_dir)
                     then Some [file "segment_001.mp4" (t0 + 60);
                                file "segment_000.mp4" t0]
                     else None) env0.

Definition task0 (now : Z) : UploadTask := {|
  file_path := cam1_dir // "segment_000.mp4"; task_stream_name := "cam1";
  task_session_id := "20240101_000000"; queued_at := now; retry_count := None
|}.
End ExScan.

(** Answers of the upstream. *)
Module ExPoll.
Import Ex.

(** [cam1] is ready and read from an RTSP session. *)
Definition sourced : Env :=
  with_http (HttpResponse 200 (Some (body1 "cam1" (Py.Bool true) rtsp_source))) env0.

(** [cam1] is ready and its source is the empty object. *)
Definition empty_source : Env :=
  with_http (HttpResponse 200 (Some (body1 "cam1" (Py.Bool true) (Py.Dict [])))) env0.
End ExPoll.

(** Upload tasks and a store that rejects them. *)
Module ExUpload.
Import Ex.

(** The store rejects every put. *)
Definition rejecting : Env := with_s3 false env0.

Definition task (count : option Z) : UploadTask := {|
  file_path := cam1_dir // "segment_000.mp4"; task_stream_name := "cam1";
  task_session_id := "20240101_000000"; queued_at := t0; retry_count := count
|}.

Definition queued (q : list UploadTask) : State :=
  {| recordings := []; upload_queue := q; clock := t0; trace := [] |}.
End ExUpload.

(** Ticks of the reconciler on a table that records [cam1]. *)
Module ExTick.
Import Ex.

(** The upstream answers 500; child 100 is running. *)
Definition outage : Env :=
  with_children 200 [] (with_http (HttpResponse 500 None) env0).

(** The upstream reports [cam2] only; child 100 is running, the next child is 200. *)
Definition cam2_only : Env :=
  with_children 200 []
    (with_http (HttpResponse 200 (Some (body1 "cam2" (Py.Bool true) rtsp_source))) env0).

(** The upstream reports [cam1]; its child 100 has exited, the next child is 200. *)
Definition cam1_died : Env :=
  with_children 200 [100]
    (with_http (HttpResponse 200 (Some (body1 "cam1" (Py.Bool true) rtsp_source))) env0).

(** [cam1_died], with two segment files left in the directory of the old session. *)
Definition cam1_died_files : Env :=
  with_listdir (λ p, if decide (p = cam1_dir)
                     then Some [file "segment_000.mp4" t0; file "segment_001.mp4" (t0 + 60)]
                     else None) cam1_died.

Definition cap (n : Z) : Settings := {|
  MEDIAMTX_API_URL := MEDIAMTX_API_URL default_settings;
  MEDIAMTX_RTSP_URL := MEDIAMTX_RTSP_URL default_settings;
  POLLING_INTERVAL := POLLING_INTERVAL default_settings;
  S3_BUCKET_NAME := S3_BUCKET_NAME default_settings;
  MAX_CONCURRENT_RECORDINGS := n;
  SEGMENT_DURATION := SEGMENT_DURATION default_settings;
  OUTPUT_FORMAT := OUTPUT_FORMAT default_settings;
  RECORDINGS_DIR := RECORDINGS_DIR default_settings;
  UPLOAD_WORKERS := UPLOAD_WORKERS default_settings
|}.

(** [cam1] has been recorded since [t0]; the tick runs two minutes later. *)
Definition recording_cam1 : State := state [("cam1", cam1)] (t0 + 120).
End ExTick.

(** * Vocabulary of the properties

    What the statements below speak of: derived operations (the rounds of the
    detector and of the upload workers), readings of a state or of a trace, and the
    states and effects the methods produce in their main cases. *)

(** ** Readings of a directory and of a poll *)

(** How many files of a session's output directory match the segment pattern (none
    when the session has no directory or the directory does not exist). *)
Definition segment_count (settings : Settings) (env : Env) (r : RecordingProcess) : nat :=
  match output_dir r with
  | Some dir =>
      match listdir env dir with
      | Some entries => length (glob_segments settings entries)
      | None => 0
      end
  | None => 0
  end.

(** The list under ['items'] of a parsed body (empty when there is none). *)
Definition items_of (data : Py.value) : list Py.value :=
  match data with
  | Py.Dict d =>
      match Py.get "items" d with
      | Some (Py.List l) => l
      | _ => []
      end
  | _ => []
  end.

(** [item] is an object named [s] whose ['ready'] and ['source'] are both truthy
    (an absent key reads as [None]). *)
Definition reports_live (item : Py.value) (s : string) : Prop :=
  ∃ fields, item = Py.Dict fields
    ∧ Py.truthy (default Py.None_ (Py.get "ready" fields)) = true
    ∧ Py.truthy (default Py.None_ (Py.get "source" fields)) = true
    ∧ Py.get "name" fields = Some (Py.Str s).

(** ** Rounds of the upload workers *)

(** One round of [process_queue]: [get] takes the oldest task and the executor runs
    [upload_file] on it; nothing happens while the queue is empty. The workers are
    run one after the other. *)
Definition process_queue_step (settings : Settings) (env : Env) : M unit := λ st,
  match upload_queue st with
  | [] => (Ok tt, st)
  | task :: rest =>
      upload_file settings env task
        {| recordings := recordings st; upload_queue := rest; clock := clock st;
           trace := trace st |}
  end.

(** Rounds of [process_queue], the environment of each given in turn. *)
Fixpoint process_queue (settings : Settings) (envs : list Env) : M unit :=
  match envs with
  | [] => ret tt
  | env :: envs' => process_queue_step settings env ;; process_queue settings envs'
  end.

Definition is_put (e : Event) : bool :=
  match e with
  | EvPut _ => true
  | _ => false
  end.

(** How many times a trace puts a task on the upload queue. *)
Definition count_puts (tr : list Event) : nat := length (List.filter is_put tr).

(** The object key [upload_file] computes for [task] when it starts in [st]. *)
Definition key_of (task : UploadTask) (st : State) : string :=
  s3_key (task_stream_name task) (Py.strftime_date (clock st + 2))
    (task_session_id task) (path_name (file_path task)).

(** The file is there and the put of this attempt raises. *)
Definition put_fails (settings : Settings) (env : Env) (task : UploadTask)
    (st : State) : Prop :=
  path_exists env (file_path task) = true
  ∧ s3_upload_file env (file_path task) (S3_BUCKET_NAME settings) (key_of task st)
    = false.

(** The re-enqueues a task still has ahead of it. *)
Definition retries_left (task : UploadTask) : nat :=
  Z.to_nat (3 - default 0 (retry_count task)).

Definition retries_left_sum (q : list UploadTask) : nat :=
  foldr (λ t n, (retries_left t + n)%nat) 0%nat q.

(** ** Effects and results of a start and of a stop *)

(** Effects that only starting a session produces, and effects that only stopping
    one (or dropping it from the table) produces. *)
Definition is_start (e : Event) : bool :=
  match e with
  | EvPopen _ _ _ | EvRegister _ _ => true
  | EvLog _ (AlreadyRecorded _ | MaxReached _ | StartingFFmpeg _ _
             | StartedRecording _ _ | DiedImmediately _ | StartedOk _) => true
  | _ => false
  end.

Definition is_stop (e : Event) : bool :=
  match e with
  | EvWriteQuit _ | EvKill _ | EvUnregister _ | EvPut _ => true
  | EvLog _ (NoLongerActive _ | StoppedRecording _ | StoppedRecordingPid _ _
             | ForceKill _ | QueuedForUpload _) => true
  | _ => false
  end.

(** [st] with tasks added to the queue and events to the trace. *)
Definition extend (q : list UploadTask) (tr : list Event) (st : State) : State :=
  {| recordings := recordings st; upload_queue := upload_queue st ++ q;
     clock := clock st; trace := trace st ++ tr |}.

(** The task [queue_upload] builds for a directory entry of a session. *)
Definition task_of (dir : Path) (stream_name session_id : string) (now : Z)
    (e : DirEntry) : UploadTask :=
  {| file_path := dir // d_name e; task_stream_name := stream_name;
     task_session_id := session_id; queued_at := now; retry_count := None |}.

Definition queue_upload_events (t : UploadTask) : list Event :=
  [EvPut t; EvLog INFO (QueuedForUpload (path_name (file_path t)))].

(** What [stop_recording] does to the child of a session. *)
Definition stop_recording_events (env : Env) (r : RecordingProcess) : list Event :=
  match process r with
  | Some p =>
      if has_exited env p
      then []
      else EvWriteQuit (p_pid p)
           :: (if quits_on_q env (p_pid p)
               then []
               else [EvLog WARNING (ForceKill (p_pid p)); EvKill (p_pid p)])
           ++ [EvLog INFO (StoppedRecordingPid (stream_name r) (pid r))]
  | None => []
  end.

(** The tasks of the session-termination tail of a session, queued at [now]. *)
Definition tail_tasks (settings : Settings) (env : Env) (s : string)
    (r : RecordingProcess) (now : Z) : list UploadTask :=
  match output_dir r with
  | Some dir =>
      match listdir env dir with
      | Some entries => task_of dir s (session_id r) now <$> glob_segments settings entries
      | None => []
      end
  | None => []
  end.

Definition stop_events (settings : Settings) (env : Env) (s : string)
    (r : RecordingProcess) (now : Z) : list Event :=
  stop_recording_events env r
  ++ (tail_tasks settings env s r now ≫= queue_upload_events)
  ++ [EvUnregister s; EvLog INFO (StoppedRecording s)].

(** The session [start_stream_recording] registers for a child [c] spawned at [now]. *)
Definition session_dir (settings : Settings) (s : string) (now : Z) : Path :=
  RECORDINGS_DIR settings // (s +:+ "_" +:+ Py.strftime_session now).

Definition new_recording (settings : Settings) (s : string) (now : Z) (c : Z)
    : RecordingProcess :=
  {| stream_name := s; session_id := Py.strftime_session now;
     process := Some {| p_pid := c |}; start_time := now;
     output_dir := Some (session_dir settings s now); uploaded_files := ∅;
     is_active := true; pid := Some c |}.

Definition start_events (settings : Settings) (s : string) (now : Z) (c : Z)
    : list Event :=
  [EvLog INFO (StartingFFmpeg (MEDIAMTX_RTSP_URL settings +:+ "/" +:+ s)
                 (session_dir settings s now
                  // ("segment_%03d." +:+ OUTPUT_FORMAT settings)));
   EvPopen s (Py.strftime_session now) c;
   EvLog INFO (StartedRecording s c);
   EvSleep 2;
   EvRegister s (Py.strftime_session now);
   EvLog INFO (StartedOk s)].

(** ** The loops of a tick *)

(** The table after the stop loop has gone through the keys [ks]. *)
Definition stopped (active ks : list string) (d : Py.dict RecordingProcess)
    : Py.dict RecordingProcess :=
  foldl (λ d k, if bool_decide (k ∈ active) then d else Py.remove k d) d ks.

(** The body of the stop loop of [run]. *)
Definition stop_if_inactive (settings : Settings) (env : Env) (active : list string)
    (s : string) : M unit :=
  if negb (bool_decide (s ∈ active))
  then log INFO (NoLongerActive s) ;; stop_stream_recording settings env s
  else ret tt.

(** Every entry of [d'] is an entry of [d] or a session that has dispatched nothing. *)
Definition kept_or_fresh (d d' : Py.dict RecordingProcess) : Prop :=
  ∀ s r, (s, r) ∈ d' → (s, r) ∈ d ∨ uploaded_files r = ∅.

(** The poll fails: the request raises, the status is not 200, the body is not JSON,
    or the body has not the shape the code reads. *)
Inductive poll_failure : http_outcome → Prop :=
| transport_failure : poll_failure HttpFails
| status_failure code body : code ≠ 200 → poll_failure (HttpResponse code body)
| json_failure : poll_failure (HttpResponse 200 None)
| shape_failure data e :
    active_of_data data = Raise e → poll_failure (HttpResponse 200 (Some data)).

Definition quiet (e : Event) : Prop := is_start e = false ∧ is_stop e = false.

(** The two loops at the head of an iteration of [run], on the polled names. *)
Definition reconcile (settings : Settings) (env : Env) (active : list string) : M unit :=
  start_new_streams settings env active ;;
  stop_inactive_streams settings env active.

(** [recording.process and recording.process.poll() is not None] *)
Definition child_exited (env : Env) (r : RecordingProcess) : bool :=
  match process r with
  | Some p => has_exited env p
  | None => false
  end.

(** The spawn of a capture child never raises. *)
Definition spawn_succeeds (env : Env) : Prop :=
  ∀ dir, mkdir env dir = true ∧ is_Some (popen env dir).

(** Every spawn succeeds and the child is still running at the probe. *)
Definition spawn_survives (env : Env) : Prop :=
  ∀ dir, mkdir env dir = true ∧ ∃ c, popen env dir = Some c ∧ child_poll env c = None.

(** ** Rounds of the detector *)

(** Successive rounds of [check_segments_loop], the environment of each given in
    turn (between two rounds the capture children write, the clock advances). *)
Fixpoint detector (settings : Settings) (envs : list Env) : M unit :=
  match envs with
  | [] => ret tt
  | env :: envs' => check_segments_round settings env ;; detector settings envs'
  end.

(** The stream and the file name of a task put on the queue. *)
Definition put_key (e : Event) : option (string * string) :=
  match e with
  | EvPut t => Some (task_stream_name t, path_name (file_path t))
  | _ => None
  end.

Definition put_keys (tr : list Event) : list (string * string) := omap put_key tr.

(** Every put of a task comes after the insertion of its file name in the
    dispatched set of its stream's session. *)
Definition dispatch_first (tr : list Event) : Prop :=
  ∀ (i : nat) t,
    tr !! i = Some (EvPut t) →
    ∃ j : nat, (j < i)%nat
      ∧ tr !! j = Some (EvDispatch (task_stream_name t) (path_name (file_path t))).

(** What the rounds of the detector maintain, for the events [tr] they have produced
    so far: no file of a session is put twice, what has been put is in the
    dispatched set, and insertion comes first. *)
Definition detector_inv (tr : list Event) (st : State) : Prop :=
  NoDup (put_keys tr)
  ∧ (∀ s n, (s, n) ∈ put_keys tr → n ∈ dispatched s st)
  ∧ dispatch_first tr.

(** The table keeps its streams and no dispatched set loses a name. *)
Definition grows (st st' : State) : Prop :=
  Py.keys (recordings st') = Py.keys (recordings st)
  ∧ ∀ s, dispatched s st ⊆ dispatched s st'.

(** What each part of a round does, from a state in which [P] holds: it adds events,
    maintains [detector_inv] and lets the state grow. *)
Definition maintains (P : State → Prop) (c : M unit) : Prop :=
  ∀ st tr0,
    P st → detector_inv tr0 st →
    ∃ res st' tr,
      c st = (res, st')
      ∧ trace st' = trace st ++ tr
      ∧ detector_inv (tr0 ++ tr) st'
      ∧ grows st st'.

(** ** The stop loop of [shutdown] *)


(** ** The session table within a tick *)

(** The table has one entry per stream and is within the concurrency cap. *)
Definition within_cap (settings : Settings) (st : State) : Prop :=
  NoDup (Py.keys (recordings st))
  ∧ Z.of_nat (length (recordings st)) ≤ MAX_CONCURRENT_RECORDINGS settings.

(** The spawn of a capture child into [dir] raises. *)
Definition spawn_raises (env : Env) (dir : Path) : Prop :=
  mkdir env dir = false ∨ popen env dir = None.

(** ** Stopping every session *)



(** ** What the detector may dispatch *)

(** The state after [check_segment] has dispatched a file: its name is in the
    dispatched set of the session registered for the stream, its task is queued. *)
Definition dispatch_segment (s : string) (r : RecordingProcess) (dir : Path)
    (e : DirEntry) (size : Z) (st : State) : State :=
  {| recordings :=
       match Py.get s (recordings st) with
       | Some rt => Py.set s (with_uploaded_files (λ u, {[d_name e]} ∪ u) rt) (recordings st)
       | None => recordings st
       end;
     upload_queue := upload_queue st ++ [task_of dir s (session_id r) (clock st) e];
     clock := clock st;
     trace := trace st
              ++ [EvLog INFO (FoundSegment (d_name e) size);
                  EvDispatch s (d_name e);
                  EvPut (task_of dir s (session_id r) (clock st) e);
                  EvLog INFO (QueuedForUpload (d_name e))] |}.

(** A file the detector may dispatch: it matches the segment pattern, [stat] on it
    succeeds and it was last modified more than 10 seconds before [now]. *)
Definition completed (settings : Settings) (now : Z) (e : DirEntry) : Prop :=
  segment_match (OUTPUT_FORMAT settings) (d_name e) = true
  ∧ ∃ stat, d_stat e = Some stat ∧ 10 < now - st_mtime stat.

(** [e] comes before a matching file with another name, in the order of the names. *)
Definition precedes_a_segment (settings : Settings) (entries : list DirEntry)
    (e : DirEntry) : Prop :=
  ∃ e', e' ∈ entries
        ∧ segment_match (OUTPUT_FORMAT settings) (d_name e') = true
        ∧ d_name e ≠ d_name e'
        ∧ String.le (d_name e) (d_name e').

(** [stat] succeeds on every matching file of the output directories of the
    sessions [l]. *)
Definition stat_succeeds (settings : Settings) (env : Env)
    (l : Py.dict RecordingProcess) : Prop :=
  ∀ s r dir entries x,
    (s, r) ∈ l → output_dir r = Some dir → listdir env dir = Some entries →
    x ∈ entries → segment_match (OUTPUT_FORMAT settings) (d_name x) = true →
    is_Some (d_stat x).

(** ** Attempts of the upload workers *)

(** The attempts the tasks of a queue still have ahead of them: one each, and one for
    every re-enqueue left. *)
Definition attempts_left (q : list UploadTask) : nat :=
  (length q + retries_left_sum q)%nat.

(** The events of an attempt of [upload_file] up to the put to the store. *)
Definition put_events (task : UploadTask) (st : State) : list Event :=
  [EvSleep 2;
   EvLog INFO (Uploading (path_name (file_path task)) (key_of task st));
   EvS3Put (file_path task) (key_of task st)].

(** ** Malformed answers of the upstream *)

(** An item on which the comprehension of [get_active_streams] or the [join] of its
    log line raises: it is not an object, or it is live and has no ['name'], or it
    is live and its ['name'] is not a string. *)
Definition malformed (item : Py.value) : Prop :=
  (∀ fields, item ≠ Py.Dict fields)
  ∨ ∃ fields,
      item = Py.Dict fields
      ∧ Py.truthy (default Py.None_ (Py.get "ready" fields)) = true
      ∧ Py.truthy (default Py.None_ (Py.get "source" fields)) = true
      ∧ ∀ s, Py.get "name" fields ≠ Some (Py.Str s).

Module ExGarbled.
Import Ex.

(** [{"items": [{"name": "cam1", "ready": true, "source": {...}}, 5]}] *)
Definition body : Py.value :=
  Py.Dict [("items", Py.List [Py.Dict [("name", Py.Str "cam1"); ("ready", Py.Bool true);
                                       ("source", rtsp_source)];
                              Py.Int 5])].

(** The upstream reports [cam1] and an item that is not an object; child 100 runs. *)
Definition env : Env := with_children 200 [] (with_http (HttpResponse 200 (Some body)) env0).
End ExGarbled.

(** ** Dates *)





(** ** Sessions that a tick keeps *)

(** Every session the table holds for [s] has a running capture child. *)
Definition child_runs (env : Env) (s : string) (d : Py.dict RecordingProcess) : Prop :=
  ∀ r, (s, r) ∈ d → child_exited env r = false.

(** The session [r] of [s] is in the table and every session of [s] has a running
    child. *)
Definition session_kept (env : Env) (s : string) (r : RecordingProcess)
    (st : State) : Prop :=
  Py.get s (recordings st) = Some r ∧ child_runs env s (recordings st).

(** * Properties *)

(** ** The monad *)

Lemma bind_ok {A B} (c : M A) (k : A → M B) st a st' :
  c st = (Ok a, st') → bind c k st = k a st'.
Proof. intros H. unfold bind. by rewrite H. Qed.

Lemma bind_raise {A B} (c : M A) (k : A → M B) st e st' :
  c st = (Raise e, st') → bind c k st = (Raise e, st').
Proof. intros H. unfold bind. by rewrite H. Qed.

Lemma for_each_app {A} (l1 l2 : list A) (body : A → M unit) st :
  for_each (l1 ++ l2) body st
  = bind (for_each l1 body) (λ _, for_each l2 body) st.
Proof.
  revert st. induction l1 as [|x l1 IH]; intros st; simpl.
  - reflexivity.
  - unfold bind. destruct (body x st) as [[[]|e] st1]; [exact (IH st1)|reflexivity].
Qed.

(** Unfolds the primitive operations of the monad. *)
Ltac unfold_prog :=
  unfold bind, ret, raise, try_except, lift, log, emit, sleep, utcnow,
    get_recordings, put_recordings, set_recordings, queue_put.

(** ** Dictionaries *)

Section DictFacts.
Context {V : Type}.
Implicit Types (d : Py.dict V) (k : string) (v : V).

Lemma get_set_eq k v d : Py.get k (Py.set k v d) = Some v.
Proof.
  induction d as [|[k' v'] d IH]; simpl.
  - by rewrite decide_True.
  - destruct (decide (k' = k)); simpl; [by rewrite decide_True|].
    by rewrite decide_False.
Qed.

Lemma get_set_ne k k' v d : k ≠ k' → Py.get k' (Py.set k v d) = Py.get k' d.
Proof.
  intros Hne. induction d as [|[k'' v''] d IH]; simpl.
  - by rewrite decide_False.
  - destruct (decide (k'' = k)) as [->|]; simpl.
    + by rewrite !decide_False.
    + by rewrite IH.
Qed.

Lemma get_remove_eq k d : Py.get k (Py.remove k d) = None.
Proof.
  unfold Py.remove. induction d as [|[k' v'] d IH]; [done|].
  rewrite filter_cons. simpl. case_decide; simpl; [|done]. by rewrite decide_False.
Qed.

Lemma get_remove_ne k k' d : k ≠ k' → Py.get k' (Py.remove k d) = Py.get k' d.
Proof.
  intros Hne. unfold Py.remove. induction d as [|[k'' v''] d IH]; [done|].
  rewrite filter_cons. simpl. case_decide as Heq; simpl.
  - by rewrite IH.
  - subst k''. by rewrite decide_False.
Qed.

Lemma remove_set k v d : Py.remove k (Py.set k v d) = Py.remove k d.
Proof.
  unfold Py.remove. induction d as [|[k' v'] d IH]; simpl.
  - rewrite filter_cons. simpl. by rewrite decide_False by (by intros []).
  - destruct (decide (k' = k)) as [->|Hne]; rewrite !filter_cons; simpl.
    + by rewrite !decide_False by (by intros []).
    + rewrite !decide_True by done. by rewrite IH.
Qed.

Lemma get_None_keys k d : Py.get k d = None ↔ k ∉ Py.keys d.
Proof.
  unfold Py.keys. induction d as [|[k' v'] d IH]; simpl.
  - split; [intros _; apply not_elem_of_nil|done].
  - rewrite not_elem_of_cons. destruct (decide (k' = k)) as [->|Hne].
    + split; [done|]. by intros [[] _].
    + rewrite IH. split; [done|]. by intros [_ ?].
Qed.

Lemma contains_true k d : Py.contains k d = true ↔ is_Some (Py.get k d).
Proof. unfold Py.contains. by rewrite bool_decide_eq_true. Qed.

Lemma contains_false k d : Py.contains k d = false ↔ Py.get k d = None.
Proof.
  unfold Py.contains. rewrite bool_decide_eq_false. by rewrite eq_None_not_Some.
Qed.

Lemma del_present k v d : Py.get k d = Some v → Py.del k d = Some (Py.remove k d).
Proof.
  intros Hget. unfold Py.del.
  by rewrite (proj2 (contains_true k d)) by (by rewrite Hget).
Qed.

Lemma keys_remove k d : Py.keys (Py.remove k d) = filter (λ k', k' ≠ k) (Py.keys d).
Proof.
  unfold Py.keys, Py.remove. induction d as [|[k' v'] d IH]; [done|].
  rewrite fmap_cons, !filter_cons. simpl.
  destruct (decide (k' ≠ k)); simpl; by rewrite <- IH.
Qed.

Lemma length_remove k d : (length (Py.remove k d) ≤ length d)%nat.
Proof. apply length_filter. Qed.

Lemma length_remove_present k v d :
  Py.get k d = Some v → (length (Py.remove k d) < length d)%nat.
Proof.
  unfold Py.remove. induction d as [|[k' v'] d IH]; simpl; [done|].
  rewrite filter_cons. simpl. destruct (decide (k' = k)) as [->|Hne].
  - intros _. rewrite decide_False by (by intros []).
    pose proof (length_filter (λ kv : string * V, kv.1 ≠ k) d). lia.
  - intros Hget. rewrite decide_True by done. simpl. specialize (IH Hget). lia.
Qed.

Lemma length_set_absent k v d :
  Py.get k d = None → length (Py.set k v d) = S (length d).
Proof.
  induction d as [|[k' v'] d IH]; simpl; [done|].
  destruct (decide (k' = k)); [done|]. intros Hget. simpl. by rewrite IH.
Qed.

Lemma length_set_present k v v' d :
  Py.get k d = Some v' → length (Py.set k v d) = length d.
Proof.
  induction d as [|[k' v''] d IH]; simpl; [done|].
  destruct (decide (k' = k)); [done|]. intros Hget. simpl. by rewrite IH.
Qed.

(** With distinct keys, the entry [get] finds is the only one under its key. *)
Lemma get_split k v d :
  NoDup (Py.keys d) → Py.get k d = Some v →
  ∃ d1 d2, d = d1 ++ ((k, v) :: d2) ∧ (k ∉ Py.keys d1) ∧ (k ∉ Py.keys d2).
Proof.
  unfold Py.keys. induction d as [|[k' v'] d IH]; simpl; [done|].
  intros [Hk' Hnodup]%NoDup_cons. destruct (decide (k' = k)) as [->|Hne].
  - intros [= ->]. exists [], d. split; [done|]. split; [apply not_elem_of_nil|done].
  - intros Hget. destruct (IH Hnodup Hget) as (d1 & d2 & -> & H1 & H2).
    exists ((k', v') :: d1), d2. split; [done|]. split; [|done].
    simpl. rewrite not_elem_of_cons. done.
Qed.

End DictFacts.

Lemma remove_absent {V} (k : string) (d : Py.dict V) :
  Py.get k d = None → Py.remove k d = d.
Proof.
  unfold Py.remove. induction d as [|[k' v'] d IH]; simpl; [done|].
  destruct (decide (k' = k)); [done|]. intros Hget.
  rewrite filter_cons. simpl. rewrite decide_True by done. by rewrite IH.
Qed.

Lemma set_absent {V} (k : string) (v : V) (d : Py.dict V) :
  Py.get k d = None → Py.set k v d = d ++ [(k, v)].
Proof.
  induction d as [|[k' v'] d IH]; simpl; [done|].
  destruct (decide (k' = k)); [done|]. intros Hget. by rewrite IH.
Qed.

Lemma get_Some_keys {V} (k : string) (d : Py.dict V) :
  k ∈ Py.keys d → is_Some (Py.get k d).
Proof.
  intros Hin. destruct (Py.get k d) eqn:Hget; [done|].
  by apply get_None_keys in Hget.
Qed.

Lemma keys_set_present {V} (k : string) (v v' : V) (d : Py.dict V) :
  Py.get k d = Some v' → Py.keys (Py.set k v d) = Py.keys d.
Proof.
  unfold Py.keys. induction d as [|[k' v''] d IH]; simpl; [done|].
  destruct (decide (k' = k)) as [->|]; [done|]. intros Hget. simpl. f_equal.
  by apply IH.
Qed.

(** ** The transfer configuration *)

(** C9: the threshold and the part size [S3Uploader.__init__] configures are
    [1024 * 25] bytes, that is 25 KiB, a 1024th of the 25 MiB its comment announces;
    an object of one MiB is already above the threshold. *)
Lemma transfer_config_is_25_KiB :
  multipart_threshold transfer_config = 25 * 1024
  ∧ multipart_chunksize transfer_config = 25 * 1024
  ∧ multipart_threshold transfer_config * 1024 = 25 * MiB
  ∧ multipart_threshold transfer_config < 1 * MiB.
Proof. repeat split. Qed.

(** ** [stop_stream_recording] *)

(** The early [return] of [stop_stream_recording]. *)
Lemma stop_stream_recording_unknown settings env stream_name st :
  Py.get stream_name (recordings st) = None →
  stop_stream_recording settings env stream_name st = ret tt st.
Proof.
  intros Habsent. unfold stop_stream_recording, bind, get_recordings.
  by rewrite Habsent.
Qed.

(** C10: stopping a stream that has no entry in [self.recordings] returns normally
    and leaves the whole state (session table with every dispatched set, upload
    queue, clock, effects) as it was. *)
Theorem stop_stream_recording_absent settings env stream_name st :
  Py.get stream_name (recordings st) = None →
  stop_stream_recording settings env stream_name st = (Ok tt, st).
Proof.
  intros Habsent. unfold stop_stream_recording.
  unfold bind, get_recordings. rewrite Habsent. reflexivity.
Qed.

Lemma stop_stream_recording_absent_witness :
  stop_stream_recording default_settings Ex.env0 "cam2"
    (Ex.state [("cam1", Ex.cam1)] Ex.t0)
  = (Ok tt, Ex.state [("cam1", Ex.cam1)] Ex.t0).
Proof. apply stop_stream_recording_absent. reflexivity. Defined.

(** ** [check_completed_segments] *)





(** ** [get_active_streams] *)

Lemma item_live_true item :
  item_live item = Ok true ↔
  ∃ fields, item = Py.Dict fields
    ∧ Py.truthy (default Py.None_ (Py.get "ready" fields)) = true
    ∧ Py.truthy (default Py.None_ (Py.get "source" fields)) = true.
Proof.
  unfold item_live. split.
  - destruct item as [| | | | |?|fields]; simpl; try discriminate.
    destruct (Py.truthy (default Py.None_ (Py.get "ready" fields))) eqn:Hready;
      [|discriminate].
    intros [= Hsource]. eauto.
  - intros (fields & -> & Hready & Hsource). simpl. by rewrite Hready, Hsource.
Qed.

Lemma comprehension_elem items names :
  comprehension items = Ok names →
  ∀ v, v ∈ names ↔
       ∃ item, item ∈ items ∧ item_live item = Ok true ∧ py_getitem item "name" = Ok v.
Proof.
  revert names. induction items as [|item rest IH]; intros names; simpl.
  - intros [= <-] v. split; [by intros ?%elem_of_nil|].
    by intros (? & ?%elem_of_nil & _).
  - destruct (item_live item) as [[|]|e] eqn:Hlive; simpl; [| |discriminate].
    + destruct (py_getitem item "name") as [name|e] eqn:Hname; simpl; [|discriminate].
      destruct (comprehension rest) as [names'|e] eqn:Hrest; simpl; [|discriminate].
      intros [= <-] v. rewrite elem_of_cons, (IH names' eq_refl v). split.
      * intros [->|(it & Hin & H1 & H2)].
        -- exists item. split; [left|]; done.
        -- exists it. split; [by right|done].
      * intros (it & [->|Hin]%elem_of_cons & H1 & H2).
        -- left. congruence.
        -- right. eauto.
    + intros Hrest v. rewrite (IH names Hrest v). split.
      * intros (it & Hin & H1 & H2). exists it. split; [by right|done].
      * intros (it & [->|Hin]%elem_of_cons & H1 & H2); [congruence|eauto].
Qed.

Lemma join_names_fmap names ss : join_names names = Ok ss → names = Py.Str <$> ss.
Proof.
  revert ss. induction names as [|v rest IH]; intros ss; simpl.
  - by intros [= <-].
  - destruct v; try discriminate.
    destruct (join_names rest) as [ss'|e]; simpl; [|discriminate].
    intros [= <-]. simpl. f_equal. by apply IH.
Qed.

(** A body of the expected shape is answered with the names [active_of_data] finds. *)
Lemma get_active_streams_ok settings env st data found :
  http_get env = HttpResponse 200 (Some data) →
  active_of_data data = Ok found →
  outcome (get_active_streams settings env) st = Ok (default [] found).
Proof.
  intros Hhttp Hfound.
  unfold outcome, get_active_streams, try_except, bind, emit, lift, ret, log.
  rewrite Hhttp. simpl. rewrite Hfound.
  by destruct found as [[|s ss]|].
Qed.

Lemma active_of_data_live data found :
  active_of_data data = Ok found →
  ∀ s, s ∈ default [] found ↔ ∃ item, item ∈ items_of data ∧ reports_live item s.
Proof.
  unfold active_of_data. destruct data as [| | | | |?|d]; simpl; try discriminate.
  destruct (Py.get "items" d) as [items|] eqn:Hitems; simpl.
  2:{ intros [= <-] s. simpl. split; [by intros ?%elem_of_nil|].
      by intros (? & ?%elem_of_nil & _). }
  destruct (Py.truthy items) eqn:Htruthy.
  - destruct items as [| | | | |l|?]; try discriminate.
    destruct (comprehension l) as [active|e] eqn:Hcomp; simpl; [|discriminate].
    intros Hfound s.
    assert (join_names active = Ok (default [] found)) as Hjoin.
    { destruct active as [|a active]; [by simplify_eq/=|].
      destruct (join_names (a :: active)) as [ss|e]; simpl in *; by simplify_eq/=. }
    apply join_names_fmap in Hjoin.
    assert (s ∈ default [] found ↔ Py.Str s ∈ active) as ->.
    { rewrite Hjoin. split; [apply (list_elem_of_fmap_2 Py.Str)|].
      intros (s' & [= ->] & Hin)%list_elem_of_fmap. done. }
    rewrite (comprehension_elem l active Hcomp). unfold reports_live.
    split.
    + intros (item & Hin & (fields & -> & Hr & Hs)%item_live_true & Hname).
      exists (Py.Dict fields). split; [done|]. exists fields. repeat split; try done.
      simpl in Hname. by destruct (Py.get "name" fields); simplify_eq.
    + intros (item & Hin & fields & -> & Hr & Hs & Hname).
      exists (Py.Dict fields). split; [done|]. split.
      * apply item_live_true. eauto.
      * simpl. by rewrite Hname.
  - intros [= <-] s. simpl. split; [by intros ?%elem_of_nil|].
    intros (item & Hin & _). destruct items as [| | | | |l|?]; try by apply elem_of_nil in Hin.
    destruct l; [by apply elem_of_nil in Hin|]. discriminate.
Qed.

(** C2, as the code has it: in the answer to a poll of the expected shape, a name is
    live exactly when some item carries it with a truthy ['ready'] and a truthy
    ['source'] (Python's [bool]: an empty object, an empty string, zero and [false]
    are as falsy as [null]). *)
Theorem get_active_streams_live_iff settings env st data found :
  http_get env = HttpResponse 200 (Some data) →
  active_of_data data = Ok found →
  ∃ names,
    outcome (get_active_streams settings env) st = Ok names
    ∧ ∀ s, s ∈ names ↔ ∃ item, item ∈ items_of data ∧ reports_live item s.
Proof.
  intros Hhttp Hfound. exists (default [] found). split.
  - by apply get_active_streams_ok with data.
  - by apply active_of_data_live.
Qed.

Lemma get_active_streams_live_iff_witness :
  ∃ names,
    outcome (get_active_streams default_settings ExPoll.sourced) (Ex.state [] Ex.t0)
    = Ok names
    ∧ ∀ s, s ∈ names ↔
           ∃ item, item ∈ items_of (Ex.body1 "cam1" (Py.Bool true) Ex.rtsp_source)
                   ∧ reports_live item s.
Proof.
  apply (get_active_streams_live_iff default_settings ExPoll.sourced (Ex.state [] Ex.t0)
           (Ex.body1 "cam1" (Py.Bool true) Ex.rtsp_source) (Some ["cam1"])).
  - reflexivity.
  - reflexivity.
Defined.

(** C2 as stated fails: an item with [ready = true] and the empty object as source
    (a source that is not null) is not reported live, while the same item with a
    non-empty source is. *)
Lemma get_active_streams_empty_source_not_live :
  http_get ExPoll.empty_source
  = HttpResponse 200 (Some (Ex.body1 "cam1" (Py.Bool true) (Py.Dict [])))
  ∧ Py.Dict [] ≠ Py.None_
  ∧ outcome (get_active_streams default_settings ExPoll.empty_source) (Ex.state [] Ex.t0)
    = Ok []
  ∧ outcome (get_active_streams default_settings ExPoll.sourced) (Ex.state [] Ex.t0)
    = Ok ["cam1"].
Proof. repeat split; done. Qed.

(** ** [upload_file] and [process_queue] *)

Lemma count_puts_app tr1 tr2 :
  count_puts (tr1 ++ tr2) = (count_puts tr1 + count_puts tr2)%nat.
Proof. unfold count_puts. by rewrite List.filter_app, length_app. Qed.

Lemma retries_left_sum_app q1 q2 :
  retries_left_sum (q1 ++ q2) = (retries_left_sum q1 + retries_left_sum q2)%nat.
Proof. induction q1 as [|t q1 IH]; simpl; [done|]. rewrite IH. lia. Qed.

Lemma upload_file_returns settings env task st :
  outcome (upload_file settings env task) st = Ok tt.
Proof.
  unfold outcome, upload_file, try_except, bind, sleep, log, emit, utcnow, raise, ret,
    queue_put.
  simpl.
  destruct (path_exists env (file_path task)); simpl; [|done].
  destruct (s3_upload_file env _ _ _); simpl.
  - by destruct (unlink env (file_path task)).
  - by destruct (default 0 (retry_count task) <? 3).
Qed.

(** A failed put on a task that has been re-enqueued fewer than three times. *)
Lemma upload_file_requeues settings env task st :
  put_fails settings env task st →
  default 0 (retry_count task) < 3 →
  let task' := with_retry_count (default 0 (retry_count task) + 1) task in
  exec (upload_file settings env task) st
  = {| recordings := recordings st;
       upload_queue := upload_queue st ++ [task'];
       clock := clock st + 2 + 5;
       trace := trace st ++
         [EvSleep 2;
          EvLog INFO (Uploading (path_name (file_path task)) (key_of task st));
          EvS3Put (file_path task) (key_of task st);
          EvLog ERROR (UploadFailed (file_path task));
          EvSleep 5;
          EvPut task'] |}.
Proof.
  intros [Hexists Hput] Hlt.
  unfold exec, upload_file, try_except, bind, sleep, log, emit, utcnow, raise, ret,
    queue_put.
  simpl. rewrite Hexists. simpl. unfold key_of in Hput. rewrite Hput. simpl.
  destruct (Z.ltb_spec (default 0 (retry_count task)) 3); [|lia].
  simpl. by rewrite <- !app_assoc.
Qed.

(** A failed put on a task whose count has reached three. *)
Lemma upload_file_drops settings env task st :
  put_fails settings env task st →
  3 ≤ default 0 (retry_count task) →
  exec (upload_file settings env task) st
  = {| recordings := recordings st;
       upload_queue := upload_queue st;
       clock := clock st + 2;
       trace := trace st ++
         [EvSleep 2;
          EvLog INFO (Uploading (path_name (file_path task)) (key_of task st));
          EvS3Put (file_path task) (key_of task st);
          EvLog ERROR (UploadFailed (file_path task))] |}.
Proof.
  intros [Hexists Hput] Hge.
  unfold exec, upload_file, try_except, bind, sleep, log, emit, utcnow, raise, ret,
    queue_put.
  simpl. rewrite Hexists. simpl. unfold key_of in Hput. rewrite Hput. simpl.
  destruct (Z.ltb_spec (default 0 (retry_count task)) 3); [lia|].
  simpl. by rewrite <- !app_assoc.
Qed.

(** Whatever the environment does, [upload_file] pays for each task it puts back
    with one of the task's remaining retries. *)
Lemma upload_file_budget settings env task st :
  let st' := exec (upload_file settings env task) st in
  (count_puts (trace st') + retries_left_sum (upload_queue st')
   ≤ count_puts (trace st) + retries_left_sum (upload_queue st) + retries_left task)%nat.
Proof.
  unfold exec, upload_file, try_except, bind, sleep, log, emit, utcnow, raise, ret,
    queue_put.
  simpl.
  destruct (path_exists env (file_path task)); simpl.
  2:{ rewrite <- !app_assoc, count_puts_app. unfold count_puts. simpl. lia. }
  destruct (s3_upload_file env _ _ _); simpl.
  - destruct (unlink env (file_path task)); simpl;
      rewrite <- !app_assoc, count_puts_app; unfold count_puts; simpl; lia.
  - destruct (Z.ltb_spec (default 0 (retry_count task)) 3); simpl.
    + rewrite <- !app_assoc, count_puts_app, retries_left_sum_app. simpl.
      unfold retries_left, count_puts. simpl. lia.
    + rewrite <- !app_assoc, count_puts_app. unfold count_puts. simpl. lia.
Qed.

Lemma upload_file_trace settings env task st :
  ∃ tr, trace (exec (upload_file settings env task) st) = trace st ++ tr.
Proof.
  unfold exec, upload_file, try_except, bind, sleep, log, emit, utcnow, raise, ret,
    queue_put.
  simpl.
  destruct (path_exists env (file_path task)); simpl;
    [|rewrite <- !app_assoc; eauto].
  destruct (s3_upload_file env _ _ _); simpl.
  - destruct (unlink env (file_path task)); simpl; rewrite <- !app_assoc; eauto.
  - destruct (default 0 (retry_count task) <? 3); simpl; rewrite <- !app_assoc; eauto.
Qed.

Lemma process_queue_step_spec settings env st :
  ∃ st1 tr,
    process_queue_step settings env st = (Ok tt, st1)
    ∧ trace st1 = trace st ++ tr
    ∧ (count_puts (trace st1) + retries_left_sum (upload_queue st1)
       ≤ count_puts (trace st) + retries_left_sum (upload_queue st))%nat.
Proof.
  unfold process_queue_step.
  destruct (upload_queue st) as [|task rest] eqn:Hq.
  - exists st, []. rewrite app_nil_r, Hq. done.
  - set (st0 := {| recordings := recordings st; upload_queue := rest;
                   clock := clock st; trace := trace st |}).
    pose proof (upload_file_returns settings env task st0) as Hret.
    pose proof (upload_file_budget settings env task st0) as Hb.
    destruct (upload_file_trace settings env task st0) as [tr Htr].
    unfold outcome in Hret. unfold exec in Hb, Htr.
    destruct (upload_file settings env task st0) as [r st1]. simpl in *. subst r.
    exists st1, tr. split; [done|]. split; [done|]. lia.
Qed.

Lemma process_queue_spec settings envs st :
  ∃ tr,
    trace (exec (process_queue settings envs) st) = trace st ++ tr
    ∧ (count_puts tr + retries_left_sum (upload_queue (exec (process_queue settings envs) st))
       ≤ retries_left_sum (upload_queue st))%nat.
Proof.
  revert st. induction envs as [|env envs IH]; intros st; simpl.
  - exists []. unfold exec. simpl. rewrite app_nil_r. split; [done|]. unfold count_puts.
    simpl. lia.
  - destruct (process_queue_step_spec settings env st) as (st1 & tr1 & Hstep & Htr1 & Hb1).
    destruct (IH st1) as (tr2 & Htr2 & Hb2).
    unfold exec, bind in *. rewrite Hstep.
    exists (tr1 ++ tr2). rewrite Htr2, Htr1, app_assoc. split; [done|].
    rewrite Htr1, count_puts_app in Hb1. rewrite count_puts_app. lia.
Qed.

(** C8, as the code has it. On a failed put [upload_file] tests the count the task
    carries (0 when it has none): below 3, the count is incremented, 5 seconds are
    slept and the task is put back; from 3 on, the task is dropped, the failure
    logged as for any other. In no case does [upload_file] raise, and however the
    store answers, a new task is put back at most 3 times. *)
Theorem upload_failure_retries settings :
  (∀ env task st, outcome (upload_file settings env task) st = Ok tt)
  ∧ (∀ env task st,
       put_fails settings env task st →
       default 0 (retry_count task) < 3 →
       let task' := with_retry_count (default 0 (retry_count task) + 1) task in
       let st' := exec (upload_file settings env task) st in
       upload_queue st' = upload_queue st ++ [task']
       ∧ events (upload_file settings env task) st
         = [EvSleep 2;
            EvLog INFO (Uploading (path_name (file_path task)) (key_of task st));
            EvS3Put (file_path task) (key_of task st);
            EvLog ERROR (UploadFailed (file_path task));
            EvSleep 5;
            EvPut task'])
  ∧ (∀ env task st,
       put_fails settings env task st →
       3 ≤ default 0 (retry_count task) →
       let st' := exec (upload_file settings env task) st in
       upload_queue st' = upload_queue st
       ∧ events (upload_file settings env task) st
         = [EvSleep 2;
            EvLog INFO (Uploading (path_name (file_path task)) (key_of task st));
            EvS3Put (file_path task) (key_of task st);
            EvLog ERROR (UploadFailed (file_path task))])
  ∧ (∀ envs task st,
       retry_count task = None →
       upload_queue st = [task] →
       (count_puts (events (process_queue settings envs) st) ≤ 3)%nat).
Proof.
  split; [apply upload_file_returns|]. split; [|split].
  - intros env task st Hfails Hlt. unfold events.
    rewrite upload_file_requeues by done. simpl. split; [done|].
    by rewrite drop_app_length.
  - intros env task st Hfails Hge. unfold events.
    rewrite upload_file_drops by done. simpl. split; [done|].
    by rewrite drop_app_length.
  - intros envs task st Hfresh Hq.
    destruct (process_queue_spec settings envs st) as (tr & Htr & Hb).
    unfold events. rewrite Htr, drop_app_length.
    rewrite Hq in Hb. simpl in Hb. unfold retries_left in Hb at 1.
    rewrite Hfresh in Hb. simpl in Hb. lia.
Qed.

Lemma upload_failure_retries_witness :
  upload_queue (exec (upload_file default_settings ExUpload.rejecting
                        (ExUpload.task None)) (ExUpload.queued []))
  = upload_queue (ExUpload.queued []) ++ [ExUpload.task (Some 1)]
  ∧ events (upload_file default_settings ExUpload.rejecting (ExUpload.task None))
      (ExUpload.queued [])
    = [EvSleep 2;
       EvLog INFO (Uploading (path_name (file_path (ExUpload.task None)))
                     (key_of (ExUpload.task None) (ExUpload.queued [])));
       EvS3Put (file_path (ExUpload.task None))
         (key_of (ExUpload.task None) (ExUpload.queued []));
       EvLog ERROR (UploadFailed (file_path (ExUpload.task None)));
       EvSleep 5;
       EvPut (ExUpload.task (Some 1))].
Proof.
  apply (proj1 (proj2 (upload_failure_retries default_settings))
           ExUpload.rejecting (ExUpload.task None) (ExUpload.queued [])).
  - split; reflexivity.
  - reflexivity.
Defined.

(** C8 as stated fails: when the put fails on a task whose count is 2, the count
    reaches 3 and the task is put back on the queue, not dropped; a new task that
    the store keeps rejecting is put back three times and attempted four times. *)
Lemma upload_file_requeues_at_count_three :
  put_fails default_settings ExUpload.rejecting (ExUpload.task (Some 2)) (ExUpload.queued [])
  ∧ upload_queue (exec (upload_file default_settings ExUpload.rejecting
                          (ExUpload.task (Some 2))) (ExUpload.queued []))
    = [ExUpload.task (Some 3)]
  ∧ upload_queue (exec (upload_file default_settings ExUpload.rejecting
                          (ExUpload.task (Some 3))) (ExUpload.queued []))
    = []
  ∧ count_puts (events (process_queue default_settings
                          (replicate 6 ExUpload.rejecting))
                  (ExUpload.queued [ExUpload.task None]))
    = 3%nat.
Proof. repeat split; vm_compute; reflexivity. Qed.

(** ** Starting and stopping a session *)

Lemma extend_extend q1 tr1 q2 tr2 st :
  extend q2 tr2 (extend q1 tr1 st) = extend (q1 ++ q2) (tr1 ++ tr2) st.
Proof. unfold extend. simpl. by rewrite !app_assoc. Qed.

Lemma extend_nil st : extend [] [] st = st.
Proof. destruct st. unfold extend. simpl. by rewrite !app_nil_r. Qed.

Lemma queue_upload_spec p s sid st :
  let t := {| file_path := p; task_stream_name := s; task_session_id := sid;
              queued_at := clock st; retry_count := None |} in
  queue_upload p s sid st = (Ok tt, extend [t] (queue_upload_events t) st).
Proof.
  unfold queue_upload, bind, utcnow, queue_put, log, emit, extend. simpl.
  by rewrite <- app_assoc.
Qed.

(** The session-termination tail: every listed file is queued, in listing order. *)
Lemma tail_spec dir s sid (l : list DirEntry) st :
  for_each l (λ e, queue_upload (dir // d_name e) s sid) st
  = (Ok tt, extend (task_of dir s sid (clock st) <$> l)
              ((task_of dir s sid (clock st) <$> l) ≫= queue_upload_events) st).
Proof.
  revert st. induction l as [|e l IH]; intros st; simpl.
  - by rewrite extend_nil.
  - unfold bind at 1. rewrite queue_upload_spec. rewrite IH.
    rewrite extend_extend. done.
Qed.

Lemma stop_recording_spec env r st :
  stop_recording env r st = (Ok tt, extend [] (stop_recording_events env r) st).
Proof.
  unfold stop_recording, stop_recording_events.
  destruct (process r) as [p|]; [|by rewrite extend_nil].
  destruct (has_exited env p); simpl; [by rewrite extend_nil|].
  unfold bind, try_except, emit, log, emit, raise, ret, extend. simpl.
  destruct (quits_on_q env (p_pid p)); simpl; by rewrite <- !app_assoc, ?app_nil_r.
Qed.

(** Stopping a recorded stream: the child is stopped, the tail is queued, the
    session leaves the table. *)
Lemma stop_stream_recording_present settings env s r st :
  Py.get s (recordings st) = Some r →
  stop_stream_recording settings env s st
  = (Ok tt,
     {| recordings := Py.remove s (recordings st);
        upload_queue := upload_queue st ++ tail_tasks settings env s r (clock st);
        clock := clock st;
        trace := trace st ++ stop_events settings env s r (clock st) |}).
Proof.
  intros Hget. unfold stop_stream_recording.
  unfold bind at 1. unfold get_recordings at 1. rewrite Hget.
  unfold bind at 1. unfold put_recordings at 1.
  unfold bind at 1. rewrite stop_recording_spec.
  unfold bind at 1.
  set (st1 := extend [] _ _).
  assert (stop_recording_events env (with_is_active false r) = stop_recording_events env r)
    as Hev by done.
  assert (∃ q tr, q = tail_tasks settings env s r (clock st)
                  ∧ tr = (q ≫= queue_upload_events)
                  ∧ (match output_dir (with_is_active false r) with
                     | Some dir =>
                         match listdir env dir with
                         | Some entries =>
                             for_each (glob_segments settings entries)
                               (λ e, queue_upload (dir // d_name e) s
                                       (session_id (with_is_active false r)))
                         | None => ret tt
                         end
                     | None => ret tt
                     end) st1 = (Ok tt, extend q tr st1)) as (q & tr & Hq & Htr & ->).
  { unfold tail_tasks. simpl. destruct (output_dir r) as [dir|].
    - destruct (listdir env dir) as [entries|].
      + eexists _, _. split; [done|]. split; [done|]. by rewrite tail_spec.
      + exists [], []. by rewrite extend_nil.
    - exists [], []. by rewrite extend_nil. }
  unfold bind at 1. unfold get_recordings at 1. simpl.
  rewrite (del_present s (with_is_active false r)) by apply get_set_eq.
  rewrite remove_set.
  unfold bind, put_recordings, emit, log, emit, set_recordings, stop_events. simpl.
  rewrite Hev, <- Hq, <- Htr. by rewrite <- !app_assoc, ?app_nil_r.
Qed.

(** A stream that is not recorded, under the cap, whose child is spawned and
    survives the probe, is registered. *)
Lemma start_stream_recording_registers settings env s st c :
  Py.get s (recordings st) = None →
  Z.of_nat (length (recordings st)) < MAX_CONCURRENT_RECORDINGS settings →
  mkdir env (session_dir settings s (clock st)) = true →
  popen env (session_dir settings s (clock st)) = Some c →
  child_poll env c = None →
  start_stream_recording settings env s st
  = (Ok tt,
     {| recordings := Py.set s (new_recording settings s (clock st) c) (recordings st);
        upload_queue := upload_queue st;
        clock := clock st + 2;
        trace := trace st ++ start_events settings s (clock st) c |}).
Proof.
  intros Hget Hcap Hmkdir Hpopen Halive.
  unfold start_stream_recording, bind, get_recordings. simpl.
  rewrite (proj2 (contains_false s (recordings st)) Hget).
  destruct (Z.leb_spec (MAX_CONCURRENT_RECORDINGS settings)
              (Z.of_nat (length (recordings st)))); [lia|].
  unfold utcnow, start_recording, bind. simpl.
  unfold session_dir in Hmkdir, Hpopen. rewrite Hmkdir. simpl. rewrite Hpopen. simpl.
  unfold has_exited. simpl. rewrite Halive. unfold_prog. simpl.
  unfold start_events, new_recording, session_dir. by rewrite <- !app_assoc.
Qed.

(** Closes a case in which the table is left as it was, from the summary of such
    cases in the context. *)
Ltac same :=
  match goal with
  | H : ∀ res st' tr, _ |- _ =>
      eapply H; [..|reflexivity]; simpl; rewrite <- ?app_assoc;
      first [done | lia | by repeat constructor]
  end.

(** In every case [start_stream_recording] leaves the upload queue alone, produces
    no effect of a stop, and either leaves the table as it was or adds one fresh
    session under a stream that had none, below the cap. *)
Lemma start_stream_recording_cases settings env s st :
  ∃ res st' tr,
    start_stream_recording settings env s st = (res, st')
    ∧ upload_queue st' = upload_queue st
    ∧ trace st' = trace st ++ tr
    ∧ Forall (λ e, is_stop e = false) tr
    ∧ clock st ≤ clock st'
    ∧ (recordings st' = recordings st
       ∨ ∃ c, res = Ok tt
              ∧ Py.get s (recordings st) = None
              ∧ Z.of_nat (length (recordings st)) < MAX_CONCURRENT_RECORDINGS settings
              ∧ child_poll env c = None
              ∧ recordings st'
                = Py.set s (new_recording settings s (clock st) c) (recordings st)).
Proof.
  assert (∀ res (st' : State) tr,
            upload_queue st' = upload_queue st →
            trace st' = trace st ++ tr →
            Forall (λ e, is_stop e = false) tr →
            clock st ≤ clock st' →
            recordings st' = recordings st →
            start_stream_recording settings env s st = (res, st') →
            ∃ res st' tr,
              start_stream_recording settings env s st = (res, st')
              ∧ upload_queue st' = upload_queue st
              ∧ trace st' = trace st ++ tr
              ∧ Forall (λ e, is_stop e = false) tr
              ∧ clock st ≤ clock st'
              ∧ (recordings st' = recordings st
                 ∨ ∃ c, res = Ok tt
                        ∧ Py.get s (recordings st) = None
                        ∧ Z.of_nat (length (recordings st))
                          < MAX_CONCURRENT_RECORDINGS settings
                        ∧ child_poll env c = None
                        ∧ recordings st'
                          = Py.set s (new_recording settings s (clock st) c)
                              (recordings st))) as Hsame.
  { intros res st' tr ? ? ? ? ? ?. exists res, st', tr. eauto 10. }
  unfold start_stream_recording in *. revert Hsame. unfold_prog. simpl. intros Hsame.
  destruct (Py.contains s (recordings st)) eqn:Hcontains; [by same|].
  destruct (Z.leb_spec (MAX_CONCURRENT_RECORDINGS settings)
              (Z.of_nat (length (recordings st)))) as [Hcap|Hcap]; [by same|].
  revert Hsame. unfold start_recording. unfold_prog. simpl. intros Hsame.
  destruct (mkdir env _) eqn:Hmkdir; simpl in *;
    [|by eapply (Hsame _ _ []); [..|reflexivity]; simpl; rewrite ?app_nil_r;
         first [done | lia]].
  destruct (popen env _) as [c|] eqn:Hpopen; simpl in *; [|by same].
  unfold has_exited in *. simpl in *.
  destruct (child_poll env c) as [code|] eqn:Hpoll; simpl in *; [by same|].
  clear Hsame. eexists _, _, _. split; [done|]. simpl. rewrite <- !app_assoc. simpl.
  split; [done|]. split; [done|]. split; [by repeat constructor|]. split; [lia|].
  right. exists c. repeat split; try done. by apply contains_false.
Qed.

Lemma stop_events_no_start settings env s r now :
  Forall (λ e, is_start e = false) (stop_events settings env s r now).
Proof.
  unfold stop_events. rewrite !Forall_app. split; [|split].
  - unfold stop_recording_events. destruct (process r) as [p|]; [|constructor].
    destruct (has_exited env p); [constructor|].
    destruct (quits_on_q env (p_pid p)); by repeat constructor.
  - induction (tail_tasks settings env s r now) as [|t q IH]; simpl; [constructor|].
    by repeat constructor.
  - by repeat constructor.
Qed.

(** ** The loops of [run] *)

Lemma stopped_get_None active ks d k :
  Py.get k d = None → Py.get k (stopped active ks d) = None.
Proof.
  revert d. induction ks as [|k0 ks IH]; intros d Hget; simpl; [done|].
  apply IH. destruct (bool_decide (k0 ∈ active)); [done|].
  destruct (decide (k0 = k)) as [->|Hne]; [apply get_remove_eq|].
  by rewrite get_remove_ne.
Qed.

Lemma stopped_nil_get ks d k : k ∈ ks → Py.get k (stopped [] ks d) = None.
Proof.
  revert d. induction ks as [|k0 ks IH]; intros d; simpl.
  - by intros ?%elem_of_nil.
  - intros [->|Hin]%elem_of_cons; [|by apply IH].
    apply stopped_get_None, get_remove_eq.
Qed.

Lemma stopped_nil_all d : stopped [] (Py.keys d) d = [].
Proof.
  destruct (stopped [] (Py.keys d) d) as [|[k v] rest] eqn:Hd; [done|]. exfalso.
  assert (Py.get k (stopped [] (Py.keys d) d) = Some v) as Hget.
  { rewrite Hd. simpl. by rewrite decide_True. }
  destruct (Py.get k d) as [v'|] eqn:Hk.
  - rewrite stopped_nil_get in Hget; [done|].
    destruct (decide (k ∈ Py.keys d)) as [|Hnot]; [done|].
    apply get_None_keys in Hnot. congruence.
  - by rewrite (stopped_get_None [] _ d k Hk) in Hget.
Qed.

Lemma stop_loop_spec settings env active ks st :
  ∃ st' q tr,
    for_each ks (stop_if_inactive settings env active) st = (Ok tt, st')
    ∧ recordings st' = stopped active ks (recordings st)
    ∧ clock st' = clock st
    ∧ upload_queue st' = upload_queue st ++ q
    ∧ trace st' = trace st ++ tr
    ∧ Forall (λ e, is_start e = false) tr
    ∧ ∀ k, k ∈ ks → k ∉ active → is_Some (Py.get k (recordings st)) →
           EvUnregister k ∈ tr.
Proof.
  revert st. induction ks as [|k ks IH]; intros st; simpl.
  - exists st, [], []. rewrite !app_nil_r. repeat split; try done.
    intros k ?%elem_of_nil. done.
  - unfold bind at 1, stop_if_inactive at 1.
    destruct (bool_decide (k ∈ active)) eqn:Hactive; simpl.
    + destruct (IH st) as (st' & q & tr & Hrun & Hrecs & Hclock & Hq & Htr & Hno & Hun).
      exists st', q, tr. repeat split; try done.
      intros k' [->|Hin]%elem_of_cons Hk'; [|by apply Hun].
      by apply bool_decide_eq_true in Hactive.
    + unfold bind, log, emit. simpl.
      set (st0 := {| recordings := recordings st; upload_queue := upload_queue st;
                     clock := clock st;
                     trace := trace st ++ [EvLog INFO (NoLongerActive k)] |}).
      destruct (Py.get k (recordings st)) as [r|] eqn:Hget.
      * rewrite (stop_stream_recording_present settings env k r st0) by done.
        match goal with |- context [for_each ks _ ?s] => set (st1 := s) end.
        destruct (IH st1) as (st' & q & tr & Hrun & Hrecs & Hclock & Hq & Htr & Hno & Hun).
        exists st', (tail_tasks settings env k r (clock st) ++ q),
          (EvLog INFO (NoLongerActive k) :: stop_events settings env k r (clock st) ++ tr).
        rewrite Hrun, Hrecs, Hclock, Hq, Htr. simpl.
        rewrite <- !app_assoc. simpl. repeat split; try done.
        -- constructor; [done|]. apply Forall_app. split; [|done].
           apply stop_events_no_start.
        -- intros k' [->|Hin]%elem_of_cons Hk' Hsome.
           ++ right. apply elem_of_app. left. unfold stop_events.
              rewrite !elem_of_app. right. right. left.
           ++ destruct (decide (k' = k)) as [->|Hne].
              ** right. apply elem_of_app. left. unfold stop_events.
                 rewrite !elem_of_app. right. right. left.
              ** right. apply elem_of_app. right. apply Hun; [done..|].
                 simpl. by rewrite get_remove_ne.
      * rewrite (stop_stream_recording_unknown settings env k st0) by done.
        unfold ret at 1.
        destruct (IH st0) as (st' & q & tr & Hrun & Hrecs & Hclock & Hq & Htr & Hno & Hun).
        exists st', q, (EvLog INFO (NoLongerActive k) :: tr).
        rewrite Hrun, Hrecs, Hclock, Hq, Htr. simpl.
        rewrite <- !app_assoc, (remove_absent k (recordings st)) by done.
        simpl. repeat split; try done.
        -- by constructor.
        -- intros k' [->|Hin]%elem_of_cons Hk' Hsome.
           ++ rewrite Hget in Hsome. by destruct Hsome.
           ++ right. by apply Hun.
Qed.

Lemma stop_inactive_streams_unfold settings env active st :
  stop_inactive_streams settings env active st
  = for_each (Py.keys (recordings st)) (stop_if_inactive settings env active) st.
Proof. reflexivity. Qed.

Lemma kept_or_fresh_refl d : kept_or_fresh d d.
Proof. intros s r ?. by left. Qed.

Lemma kept_or_fresh_trans d1 d2 d3 :
  kept_or_fresh d1 d2 → kept_or_fresh d2 d3 → kept_or_fresh d1 d3.
Proof.
  intros H12 H23 s r Hin. destruct (H23 s r Hin) as [Hin2|]; [|by right].
  by apply H12.
Qed.


Lemma start_stream_recording_kept settings env s st :
  kept_or_fresh (recordings st)
    (recordings (exec (start_stream_recording settings env s) st)).
Proof.
  destruct (start_stream_recording_cases settings env s st)
    as (res & st' & tr & Hrun & _ & _ & _ & _ & Hrecs).
  unfold exec. rewrite Hrun. simpl.
  destruct Hrecs as [Heq|(c & _ & Hget & _ & _ & Heq)]; rewrite Heq;
    [apply kept_or_fresh_refl|].
  rewrite set_absent by done. intros s' r [Hin|Hin]%elem_of_app; [by left|].
  apply list_elem_of_singleton in Hin as [= -> ->]. by right.
Qed.

(** The start loop of [run]: no effect of a stop, the queue untouched, and nothing
    started when the table is already at the cap. *)
Lemma start_loop_spec settings env active st :
  ∃ res st' tr,
    start_new_streams settings env active st = (res, st')
    ∧ upload_queue st' = upload_queue st
    ∧ trace st' = trace st ++ tr
    ∧ Forall (λ e, is_stop e = false) tr
    ∧ clock st ≤ clock st'
    ∧ kept_or_fresh (recordings st) (recordings st')
    ∧ (MAX_CONCURRENT_RECORDINGS settings ≤ Z.of_nat (length (recordings st)) →
       recordings st' = recordings st).
Proof.
  unfold start_new_streams. revert st.
  induction active as [|s active IH]; intros st; simpl.
  - exists (Ok tt), st, []. rewrite app_nil_r.
    repeat split; try done; try lia; apply kept_or_fresh_refl.
  - unfold bind at 1. unfold bind at 1, get_recordings at 1.
    destruct (Py.contains s (recordings st)); simpl.
    { unfold ret at 1. apply IH. }
    pose proof (start_stream_recording_kept settings env s st) as Hkept.
    destruct (start_stream_recording_cases settings env s st)
      as (res & st1 & tr1 & Hrun & Hq1 & Htr1 & Hno1 & Hclock1 & Hrecs1).
    unfold exec in Hkept. rewrite Hrun in *. simpl in Hkept.
    destruct res as [[]|e].
    + destruct (IH st1) as (res & st' & tr & Hloop & Hq & Htr & Hno & Hclock & Hk & Hcap).
      exists res, st', (tr1 ++ tr). rewrite Hloop, Hq, Htr, Hq1, Htr1, app_assoc.
      repeat split; try done.
      * by apply Forall_app.
      * lia.
      * by eapply kept_or_fresh_trans.
      * intros Hfull. destruct Hrecs1 as [Heq|(c & _ & _ & Hlt & _)]; [|lia].
        rewrite Hcap; rewrite Heq; done.
    + exists (Raise e), st1, tr1. repeat split; try done.
      intros Hfull. by destruct Hrecs1 as [Heq|(c & [=] & _)].
Qed.

(** ** A failed poll *)

(** [get_active_streams] always returns a list, touches nothing but the trace, and
    the list is empty when the poll has failed. *)
Lemma get_active_streams_spec settings env st :
  ∃ names tr,
    get_active_streams settings env st = (Ok names, extend [] tr st)
    ∧ Forall quiet tr
    ∧ (poll_failure (http_get env) → names = []).
Proof.
  unfold get_active_streams. unfold_prog. unfold extend. simpl.
  destruct (http_get env) as [|code body] eqn:Hhttp; simpl.
  { eexists [], _. rewrite <- !app_assoc, app_nil_r. split; [done|].
    split; [by repeat constructor|done]. }
  destruct (Z.eqb_spec code 200) as [->|Hcode]; simpl.
  2:{ eexists [], _. rewrite app_nil_r. split; [done|].
      split; [by repeat constructor|done]. }
  destruct body as [data|]; simpl.
  2:{ eexists [], _. rewrite <- !app_assoc, app_nil_r. split; [done|].
      split; [by repeat constructor|done]. }
  destruct (active_of_data data) as [[[|s ss]|]|e] eqn:Hdata; simpl.
  - eexists [], _. rewrite app_nil_r. split; [done|].
    split; [by repeat constructor|done].
  - eexists (s :: ss), _. rewrite <- !app_assoc, app_nil_r. split; [done|].
    split; [by repeat constructor|].
    inversion 1; [done|congruence].
  - eexists [], _. rewrite app_nil_r. split; [done|].
    split; [by repeat constructor|done].
  - eexists [], _. rewrite <- !app_assoc, app_nil_r. split; [done|].
    split; [by repeat constructor|done].
Qed.

Lemma monitor_process_health_empty settings env st :
  recordings st = [] → monitor_process_health settings env st = (Ok tt, st).
Proof.
  intros Hempty. unfold monitor_process_health, bind, get_recordings.
  by rewrite Hempty.
Qed.

Lemma run_iteration_failed_poll settings env st :
  poll_failure (http_get env) →
  ∃ q tr,
    run_iteration settings env st
    = (Ok tt,
       {| recordings := []; upload_queue := upload_queue st ++ q;
          clock := clock st + POLLING_INTERVAL settings; trace := trace st ++ tr |})
    ∧ Forall (λ e, is_start e = false) tr
    ∧ ∀ s, s ∈ Py.keys (recordings st) → EvUnregister s ∈ tr.
Proof.
  intros Hfail.
  destruct (get_active_streams_spec settings env st) as (names & tr0 & Hpoll & Hq0 & Hnames).
  rewrite (Hnames Hfail) in Hpoll. clear Hnames.
  unfold run_iteration.
  unfold bind at 1, try_except at 1. unfold bind at 1. rewrite Hpoll.
  unfold bind at 1. unfold start_new_streams at 1. simpl for_each. unfold ret at 1.
  unfold bind at 1. rewrite stop_inactive_streams_unfold.
  destruct (stop_loop_spec settings env [] (Py.keys (recordings (extend [] tr0 st)))
              (extend [] tr0 st))
    as (st' & q & tr & Hrun & Hrecs & Hclock & Hqueue & Htr & Hno & Hun).
  rewrite Hrun. simpl in Hrecs. rewrite stopped_nil_all in Hrecs.
  rewrite monitor_process_health_empty by done.
  unfold sleep. simpl. rewrite Htr, Hrecs, Hclock, Hqueue. simpl.
  rewrite <- ?app_assoc, ?app_nil_r.
  eexists _, _. split; [done|]. split.
  - rewrite !Forall_app. split; [|split; [done|by repeat constructor]].
    eapply Forall_impl; [exact Hq0|]. by intros e [? _].
  - intros s Hin. rewrite !elem_of_app. right. left.
    apply Hun; [done|apply not_elem_of_nil|]. simpl.
    destruct (Py.get s (recordings st)) eqn:Hget; [done|].
    by apply get_None_keys in Hget.
Qed.

(** C1, as the code has it: a failed poll is answered with the empty list, and the
    tick goes on as after a poll that reports no stream: it starts nothing, stops
    every session of the table and leaves the table empty. *)
Theorem poll_failure_stops_every_session settings env st :
  poll_failure (http_get env) →
  outcome (get_active_streams settings env) st = Ok []
  ∧ recordings (exec (run_iteration settings env) st) = []
  ∧ Forall (λ e, is_start e = false) (events (run_iteration settings env) st)
  ∧ ∀ s, s ∈ Py.keys (recordings st) →
         EvUnregister s ∈ events (run_iteration settings env) st.
Proof.
  intros Hfail. split.
  - destruct (get_active_streams_spec settings env st) as (names & tr0 & Hpoll & _ & Hnames).
    unfold outcome. rewrite Hpoll. simpl. by rewrite Hnames.
  - destruct (run_iteration_failed_poll settings env st Hfail) as (q & tr & Hrun & Hno & Hun).
    unfold events, exec. rewrite Hrun. simpl. by rewrite drop_app_length.
Qed.

Lemma poll_failure_stops_every_session_witness :
  outcome (get_active_streams default_settings ExTick.outage) ExTick.recording_cam1 = Ok []
  ∧ recordings (exec (run_iteration default_settings ExTick.outage) ExTick.recording_cam1)
    = []
  ∧ Forall (λ e, is_start e = false)
      (events (run_iteration default_settings ExTick.outage) ExTick.recording_cam1)
  ∧ ∀ s, s ∈ Py.keys (recordings ExTick.recording_cam1) →
         EvUnregister s
         ∈ events (run_iteration default_settings ExTick.outage) ExTick.recording_cam1.
Proof.
  apply poll_failure_stops_every_session. apply status_failure. done.
Defined.

(** C1 as stated fails: while the upstream answers 500 and the child of [cam1] is
    running, the tick stops the child and removes the session from the table. *)
Lemma poll_failure_stops_running_session :
  let st' := exec (run_iteration default_settings ExTick.outage) ExTick.recording_cam1 in
  http_get ExTick.outage = HttpResponse 500 None
  ∧ child_poll ExTick.outage 100 = None
  ∧ recordings ExTick.recording_cam1 = [("cam1", Ex.cam1)]
  ∧ recordings st' = []
  ∧ events (run_iteration default_settings ExTick.outage) ExTick.recording_cam1
    = [EvHttpGet "http://mediamtx:9997/v3/paths/list";
       EvLog INFO (NoLongerActive "cam1");
       EvWriteQuit 100;
       EvLog INFO (StoppedRecordingPid "cam1" (Some 100));
       EvUnregister "cam1";
       EvLog INFO (StoppedRecording "cam1");
       EvSleep 10].
Proof. repeat split. Qed.

(** ** [monitor_process_health] *)

Lemma check_health_alive settings env s r st :
  child_exited env r = false → check_health settings env (s, r) st = (Ok tt, st).
Proof. unfold check_health, child_exited. by intros ->. Qed.

(** A session whose child has exited is dropped from the table and
    [start_stream_recording] is called for its stream at once. *)
Lemma check_health_exited settings env s r r0 st :
  child_exited env r = true →
  Py.get s (recordings st) = Some r0 →
  check_health settings env (s, r) st
  = start_stream_recording settings env s
      {| recordings := Py.remove s (recordings st); upload_queue := upload_queue st;
         clock := clock st;
         trace := trace st ++ [EvLog WARNING (DiedRestarting s); EvUnregister s] |}.
Proof.
  unfold check_health, child_exited. intros -> Hget.
  unfold bind at 1. unfold log, emit. simpl.
  unfold bind at 1. unfold bind at 1. unfold get_recordings. simpl.
  rewrite (del_present s r0) by done.
  unfold bind, put_recordings, emit, set_recordings. simpl.
  by rewrite <- app_assoc.
Qed.

Lemma start_stream_recording_ok settings env s st :
  spawn_succeeds env → outcome (start_stream_recording settings env s) st = Ok tt.
Proof.
  intros Hspawn. unfold outcome, start_stream_recording. unfold_prog. simpl.
  destruct (Py.contains s (recordings st)); [done|].
  destruct (_ <=? _); [done|].
  unfold start_recording. unfold_prog. simpl.
  destruct (Hspawn (RECORDINGS_DIR settings
                    // (s +:+ "_" +:+ Py.strftime_session (clock st))))
    as [-> [c ->]].
  simpl. by destruct (has_exited env _).
Qed.

(** The sweep over [items], each still in the table: it returns normally, leaves the
    sessions of other streams alone and does not make the table longer. *)
Lemma sweep_spec settings env items st :
  spawn_succeeds env →
  NoDup items.*1 →
  (∀ k, k ∈ items.*1 → is_Some (Py.get k (recordings st))) →
  ∃ st',
    for_each items (check_health settings env) st = (Ok tt, st')
    ∧ (∀ k, k ∉ items.*1 → Py.get k (recordings st') = Py.get k (recordings st))
    ∧ (length (recordings st') ≤ length (recordings st))%nat
    ∧ clock st ≤ clock st'
    ∧ upload_queue st' = upload_queue st.
Proof.
  intros Hspawn. revert st.
  induction items as [|[k r] items IH]; intros st Hnodup Hpresent; simpl.
  - exists st. repeat split; try done; lia.
  - apply NoDup_cons in Hnodup as [Hk Hnodup]. simpl in Hk.
    assert (∀ st1,
              (∀ k', k' ≠ k → Py.get k' (recordings st1) = Py.get k' (recordings st)) →
              (length (recordings st1) ≤ length (recordings st))%nat →
              clock st ≤ clock st1 →
              upload_queue st1 = upload_queue st →
              check_health settings env (k, r) st = (Ok tt, st1) →
              ∃ st',
                (check_health settings env (k, r);;
                 for_each items (check_health settings env)) st = (Ok tt, st')
                ∧ (∀ k0, k0 ∉ k :: items.*1 →
                         Py.get k0 (recordings st') = Py.get k0 (recordings st))
                ∧ (length (recordings st') ≤ length (recordings st))%nat
                ∧ clock st ≤ clock st'
                ∧ upload_queue st' = upload_queue st) as Hstep.
    { intros st1 Hframe Hlen Hclock Hq Hrun.
      destruct (IH st1 Hnodup) as (st' & Hloop & Hframe' & Hlen' & Hclock' & Hq').
      { intros k' Hin. rewrite Hframe; [|by intros ->].
        apply Hpresent. by right. }
      exists st'. unfold bind. rewrite Hrun, Hloop. repeat split; try lia.
      - intros k0 [Hne Hnot]%not_elem_of_cons. rewrite Hframe' by done.
        by apply Hframe.
      - congruence. }
    destruct (child_exited env r) eqn:Hexited.
    2:{ apply (Hstep st); try done; try lia. by apply check_health_alive. }
    destruct (Hpresent k) as [r0 Hget]; [by left|].
    rewrite (check_health_exited settings env k r r0 st Hexited Hget) in Hstep.
    set (st0 := {| recordings := Py.remove k (recordings st);
                   upload_queue := upload_queue st; clock := clock st;
                   trace := trace st ++ [EvLog WARNING (DiedRestarting k);
                                         EvUnregister k] |}) in *.
    pose proof (start_stream_recording_ok settings env k st0 Hspawn) as Hok.
    destruct (start_stream_recording_cases settings env k st0)
      as (res & st1 & tr & Hrun & Hq & _ & _ & Hclock & Hrecs).
    unfold outcome in Hok. rewrite Hrun in Hok. simpl in Hok. subst res.
    pose proof (length_remove_present k r0 (recordings st) Hget) as Hlt.
    apply (Hstep st1); try done.
    + intros k' Hne.
      destruct Hrecs as [->|(c & _ & _ & _ & _ & ->)]; simpl.
      * by rewrite get_remove_ne.
      * rewrite get_set_ne by done. by rewrite get_remove_ne.
    + destruct Hrecs as [->|(c & _ & Hnone & _ & _ & ->)]; simpl; [lia|].
      rewrite length_set_absent by done. simpl in Hnone. lia.
Qed.

Lemma monitor_process_health_unfold settings env st :
  monitor_process_health settings env st
  = for_each (recordings st) (check_health settings env) st.
Proof. reflexivity. Qed.

Lemma spawn_survives_succeeds env : spawn_survives env → spawn_succeeds env.
Proof. intros H dir. destruct (H dir) as [? (c & ? & _)]. eauto. Qed.

(** The sweep only adds to the trace. *)
Lemma sweep_trace settings env items st :
  ∃ tr, trace (exec (for_each items (check_health settings env)) st) = trace st ++ tr.
Proof.
  revert st. induction items as [|[k r] items IH]; intros st.
  { exists []. unfold exec. simpl. by rewrite app_nil_r. }
  cbn [for_each]. unfold exec, bind.
  assert (∃ tr, trace (exec (check_health settings env (k, r)) st) = trace st ++ tr)
    as [tr1 Hone].
  { destruct (child_exited env r) eqn:Hexited.
    2:{ exists []. unfold exec. rewrite check_health_alive by done. simpl.
        by rewrite app_nil_r. }
    destruct (Py.get k (recordings st)) as [r0|] eqn:Hget.
    - unfold exec. rewrite (check_health_exited settings env k r r0 st) by done.
      match goal with |- context [start_stream_recording _ _ _ ?s] => set (st0 := s) end.
      destruct (start_stream_recording_cases settings env k st0)
        as (res & st1 & tr & Hrun & _ & Htr & _).
      rewrite Hrun. simpl. rewrite Htr. simpl. rewrite <- app_assoc. eauto.
    - unfold exec, check_health. unfold child_exited in Hexited. rewrite Hexited.
      unfold_prog. simpl. unfold Py.del.
      rewrite (proj2 (contains_false k (recordings st)) Hget). simpl. eauto. }
  unfold exec in Hone.
  destruct (check_health settings env (k, r) st) as [[[]|e] st1]; simpl in *; [|eauto].
  destruct (IH st1) as [tr2 Htr2]. unfold exec in Htr2.
  exists (tr1 ++ tr2). by rewrite Htr2, Hone, app_assoc.
Qed.

(** The sweep on a table that holds a session whose child has exited, when spawns
    succeed and the new child survives the probe. *)
Lemma health_sweep_restart settings env st s r :
  NoDup (Py.keys (recordings st)) →
  Py.get s (recordings st) = Some r →
  child_exited env r = true →
  spawn_survives env →
  Z.of_nat (length (recordings st)) ≤ MAX_CONCURRENT_RECORDINGS settings →
  ∃ st' now c,
    monitor_process_health settings env st = (Ok tt, st')
    ∧ clock st ≤ now
    ∧ child_poll env c = None
    ∧ Py.get s (recordings st') = Some (new_recording settings s now c)
    ∧ new_recording settings s now c ≠ r
    ∧ ∃ before after,
        trace st'
        = trace st
          ++ before
          ++ EvLog WARNING (DiedRestarting s) :: EvUnregister s
             :: start_events settings s now c
          ++ after.
Proof.
  intros Hnodup Hget Hexited Hspawn Hcap.
  pose proof (spawn_survives_succeeds env Hspawn) as Hsucceeds.
  destruct (get_split s r (recordings st) Hnodup Hget) as (d1 & d2 & Hsplit & Hs1 & Hs2).
  unfold Py.keys in *. rewrite Hsplit, fmap_app, fmap_cons in Hnodup. simpl in Hnodup.
  apply NoDup_app in Hnodup as (Hnodup1 & Hdisjoint & [_ Hnodup2]%NoDup_cons).
  assert (∀ k, k ∈ (recordings st).*1 → is_Some (Py.get k (recordings st))) as Hpresent.
  { intros k. apply get_Some_keys. }
  rewrite monitor_process_health_unfold, Hsplit, for_each_app. unfold bind at 1.
  destruct (sweep_spec settings env d1 st Hsucceeds Hnodup1)
    as (st1 & Hrun1 & Hframe1 & Hlen1 & Hclock1 & _).
  { intros k Hin. apply Hpresent. rewrite Hsplit, fmap_app. apply elem_of_app. by left. }
  destruct (sweep_trace settings env d1 st) as [before Hbefore].
  unfold exec in Hbefore. rewrite Hrun1 in *. simpl in Hbefore.
  cbn [for_each]. unfold bind at 1.
  assert (Py.get s (recordings st1) = Some r) as Hget1 by (by rewrite Hframe1).
  rewrite (check_health_exited settings env s r r st1 Hexited Hget1).
  set (st0 := {| recordings := Py.remove s (recordings st1);
                 upload_queue := upload_queue st1; clock := clock st1;
                 trace := trace st1 ++ [EvLog WARNING (DiedRestarting s);
                                        EvUnregister s] |}).
  destruct (Hspawn (session_dir settings s (clock st0))) as [Hmkdir (c & Hpopen & Halive)].
  rewrite (start_stream_recording_registers settings env s st0 c); try done.
  2:{ apply get_remove_eq. }
  2:{ pose proof (length_remove_present s r (recordings st1) Hget1). simpl. lia. }
  match goal with |- context [for_each d2 _ ?st] => set (st2 := st) end.
  destruct (sweep_spec settings env d2 st2 Hsucceeds Hnodup2)
    as (st' & Hrun2 & Hframe2 & _ & _ & _).
  { intros k Hin. simpl. assert (k ≠ s) as Hne by (by intros ->).
    rewrite get_set_ne, get_remove_ne by done.
    rewrite Hframe1.
    - apply Hpresent. rewrite Hsplit, fmap_app, fmap_cons.
      apply elem_of_app. right. by right.
    - intros Hin1. apply (Hdisjoint k Hin1). by right. }
  destruct (sweep_trace settings env d2 st2) as [after Hafter].
  unfold exec in Hafter. rewrite Hrun2 in *. simpl in Hafter.
  exists st', (clock st1), c.
  split; [done|]. split; [done|]. split; [done|]. split; [|split].
  - rewrite Hframe2 by done. simpl. apply get_set_eq.
  - intros Heq. unfold child_exited in Hexited. rewrite <- Heq in Hexited.
    simpl in Hexited. unfold has_exited in Hexited. simpl in Hexited.
    rewrite Halive in Hexited. done.
  - exists before, after. rewrite Hafter. simpl. rewrite Hbefore, <- !app_assoc.
    done.
Qed.

(** C6, as the code has it: the sweep that finds the child of a session exited
    removes the session and restarts the stream inline. When spawns succeed, the
    new child survives the probe and the table is within the cap, the sweep drops
    the session from the table and goes straight on to spawn and register a new
    one: the table holds a new session for the stream, with a running child, when
    the sweep returns. *)
Theorem health_sweep_restarts_inline settings env st s r :
  NoDup (Py.keys (recordings st)) →
  Py.get s (recordings st) = Some r →
  child_exited env r = true →
  spawn_survives env →
  Z.of_nat (length (recordings st)) ≤ MAX_CONCURRENT_RECORDINGS settings →
  ∃ st' now c,
    monitor_process_health settings env st = (Ok tt, st')
    ∧ clock st ≤ now
    ∧ child_poll env c = None
    ∧ Py.get s (recordings st') = Some (new_recording settings s now c)
    ∧ new_recording settings s now c ≠ r
    ∧ ∃ before after,
        events (monitor_process_health settings env) st
        = before
          ++ EvLog WARNING (DiedRestarting s) :: EvUnregister s
             :: start_events settings s now c
          ++ after.
Proof.
  intros Hnodup Hget Hexited Hspawn Hcap.
  destruct (health_sweep_restart settings env st s r Hnodup Hget Hexited Hspawn Hcap)
    as (st' & now & c & Hrun & Hnow & Halive & Hnew & Hne & before & after & Htr).
  exists st', now, c. repeat (split; [done|]).
  exists before, after. unfold events, exec. rewrite Hrun. simpl.
  by rewrite Htr, drop_app_length.
Qed.

Lemma health_sweep_restarts_inline_witness :
  ∃ st' now c,
    monitor_process_health default_settings ExTick.cam1_died ExTick.recording_cam1
    = (Ok tt, st')
    ∧ clock ExTick.recording_cam1 ≤ now
    ∧ child_poll ExTick.cam1_died c = None
    ∧ Py.get "cam1" (recordings st') = Some (new_recording default_settings "cam1" now c)
    ∧ new_recording default_settings "cam1" now c ≠ Ex.cam1
    ∧ ∃ before after,
        events (monitor_process_health default_settings ExTick.cam1_died)
          ExTick.recording_cam1
        = before
          ++ EvLog WARNING (DiedRestarting "cam1") :: EvUnregister "cam1"
             :: start_events default_settings "cam1" now c
          ++ after.
Proof.
  apply health_sweep_restarts_inline.
  - repeat constructor. apply not_elem_of_nil.
  - reflexivity.
  - reflexivity.
  - intros dir. split; [reflexivity|]. exists 200. split; reflexivity.
  - vm_compute. discriminate.
Defined.

(** C6 as stated fails: the sweep that finds the child of [cam1] exited does not
    only remove the session: before it returns it has spawned child 200 and
    registered a new session for [cam1]. *)
Lemma health_sweep_restart_is_inline :
  let run := monitor_process_health default_settings ExTick.cam1_died in
  child_exited ExTick.cam1_died Ex.cam1 = true
  ∧ recordings (exec run ExTick.recording_cam1)
    = [("cam1", new_recording default_settings "cam1" (Ex.t0 + 120) 200)]
  ∧ events run ExTick.recording_cam1
    = EvLog WARNING (DiedRestarting "cam1")
      :: EvUnregister "cam1"
      :: start_events default_settings "cam1" (Ex.t0 + 120) 200.
Proof. repeat split. Qed.

(** The sweep never puts anything on the upload queue. *)
Lemma sweep_keeps_queue settings env items st :
  upload_queue (exec (for_each items (check_health settings env)) st) = upload_queue st.
Proof.
  revert st. induction items as [|[k r] items IH]; intros st; [done|].
  cbn [for_each]. unfold exec, bind.
  assert (upload_queue (exec (check_health settings env (k, r)) st) = upload_queue st)
    as Hone.
  { destruct (child_exited env r) eqn:Hexited;
      [|unfold exec; by rewrite check_health_alive].
    destruct (Py.get k (recordings st)) as [r0|] eqn:Hget.
    - unfold exec. rewrite (check_health_exited settings env k r r0 st) by done.
      match goal with |- context [start_stream_recording _ _ _ ?s] => set (st0 := s) end.
      destruct (start_stream_recording_cases settings env k st0)
        as (res & st1 & tr & Hrun & Hq & _).
      rewrite Hrun. simpl. by rewrite Hq.
    - unfold exec, check_health. unfold child_exited in Hexited. rewrite Hexited.
      unfold_prog. simpl. unfold Py.del.
      by rewrite (proj2 (contains_false k (recordings st)) Hget). }
  unfold exec in Hone.
  destruct (check_health settings env (k, r) st) as [[[]|e] st1]; simpl in *; [|done].
  specialize (IH st1). unfold exec in IH. by rewrite IH.
Qed.

(** C7: when the child of [cam1] has exited with two segment files left in the old
    session's directory, the tick registers a new session under a new SessionId but
    puts none of the old files on the upload queue, while a stop of the same
    session queues both under the old SessionId. *)
Lemma died_session_files_not_queued :
  let st := ExTick.recording_cam1 in
  let st' := exec (run_iteration default_settings ExTick.cam1_died_files) st in
  segment_count default_settings ExTick.cam1_died_files Ex.cam1 = 2%nat
  ∧ upload_queue st' = []
  ∧ recordings st'
    = [("cam1", new_recording default_settings "cam1" (Ex.t0 + 120) 200)]
  ∧ session_id Ex.cam1 = "20240101_000000"
  ∧ session_id (new_recording default_settings "cam1" (Ex.t0 + 120) 200)
    = "20240101_000200"
  ∧ upload_queue
      (exec (stop_stream_recording default_settings ExTick.cam1_died_files "cam1") st)
    = [task_of Ex.cam1_dir "cam1" "20240101_000000" (Ex.t0 + 120)
         (Ex.file "segment_000.mp4" Ex.t0);
       task_of Ex.cam1_dir "cam1" "20240101_000000" (Ex.t0 + 120)
         (Ex.file "segment_001.mp4" (Ex.t0 + 60))].
Proof. repeat split. Qed.

(** ** The order of starts and stops within a tick *)

Lemma ordered_app (P Q : Event → bool) (tr1 tr2 : list Event) :
  Forall (λ e, Q e = false) tr1 →
  Forall (λ e, P e = false) tr2 →
  ∀ (i j : nat) e1 e2,
    (tr1 ++ tr2) !! i = Some e1 → P e1 = true →
    (tr1 ++ tr2) !! j = Some e2 → Q e2 = true →
    (i < j)%nat.
Proof.
  intros HQ HP i j e1 e2 Hi HPe Hj HQe.
  assert (i < length tr1)%nat as Hlt.
  { destruct (decide (i < length tr1)%nat) as [|Hge]; [done|].
    rewrite lookup_app_r in Hi by lia.
    rewrite Forall_lookup in HP. specialize (HP _ _ Hi). congruence. }
  assert (length tr1 ≤ j)%nat as Hge.
  { destruct (decide (length tr1 ≤ j)%nat) as [|Hlt']; [done|].
    rewrite lookup_app_l in Hj by lia.
    rewrite Forall_lookup in HQ. specialize (HQ _ _ Hj). congruence. }
  lia.
Qed.

Lemma run_iteration_reconcile settings env st :
  run_iteration settings env st
  = (try_except
       (active_streams <- get_active_streams settings env ;;
        reconcile settings env active_streams ;;
        monitor_process_health settings env)
       (λ _, log ERROR LoopError) ;;
     sleep (POLLING_INTERVAL settings)) st.
Proof.
  unfold run_iteration, reconcile, bind, try_except.
  destruct (get_active_streams settings env st) as [[names|e] st0]; [|done].
  destruct (start_new_streams settings env names st0) as [[[]|e] st1]; [|done].
  by destruct (stop_inactive_streams settings env names st1) as [[[]|e] st2].
Qed.

(** C5, as the code has it: within a tick the starts of the newly reported streams
    all come before the stops of the sessions whose stream is no longer reported, so
    a session the tick is about to stop still counts against the cap: with the
    table at the cap, no stream that was not recorded before the tick is recorded
    after these two loops. A stream whose child has exited (it went away and came
    back between two polls) is restarted by the sweep after its own session has left
    the table: even with the table at the cap, the new session is registered. *)
Theorem starts_precede_stops settings env active st :
  (∀ (i j : nat) e1 e2,
     events (reconcile settings env active) st !! i = Some e1 → is_start e1 = true →
     events (reconcile settings env active) st !! j = Some e2 → is_stop e2 = true →
     (i < j)%nat)
  ∧ (MAX_CONCURRENT_RECORDINGS settings ≤ Z.of_nat (length (recordings st)) →
     ∀ s, Py.get s (recordings st) = None →
          Py.get s (recordings (exec (reconcile settings env active) st)) = None)
  ∧ (∀ s r,
       NoDup (Py.keys (recordings st)) →
       Py.get s (recordings st) = Some r →
       child_exited env r = true →
       spawn_survives env →
       Z.of_nat (length (recordings st)) = MAX_CONCURRENT_RECORDINGS settings →
       ∃ st' now c,
         monitor_process_health settings env st = (Ok tt, st')
         ∧ Py.get s (recordings st') = Some (new_recording settings s now c)).
Proof.
  assert (∀ s r,
            NoDup (Py.keys (recordings st)) →
            Py.get s (recordings st) = Some r →
            child_exited env r = true →
            spawn_survives env →
            Z.of_nat (length (recordings st)) = MAX_CONCURRENT_RECORDINGS settings →
            ∃ st' now c,
              monitor_process_health settings env st = (Ok tt, st')
              ∧ Py.get s (recordings st') = Some (new_recording settings s now c))
    as Hrestart.
  { intros s r Hnodup Hget Hexited Hspawn Hfull.
    destruct (health_sweep_restart settings env st s r Hnodup Hget Hexited Hspawn)
      as (st' & now & c & Hrun & _ & _ & Hnew & _); [lia|].
    by exists st', now, c. }
  destruct (start_loop_spec settings env active st)
    as (res & st1 & tr1 & Hstart & Hq1 & Htr1 & Hno1 & Hclock1 & _ & Hcap).
  unfold events, exec, reconcile, bind. rewrite Hstart.
  destruct res as [[]|e]; simpl.
  - rewrite stop_inactive_streams_unfold.
    destruct (stop_loop_spec settings env active (Py.keys (recordings st1)) st1)
      as (st2 & q & tr2 & Hstop & Hrecs2 & _ & _ & Htr2 & Hno2 & _).
    rewrite Hstop. simpl. rewrite Htr2, Htr1, <- app_assoc, drop_app_length.
    split; [|split; [|done]].
    + by apply ordered_app.
    + intros Hfull s Hget. rewrite Hrecs2, (Hcap Hfull).
      by apply stopped_get_None.
  - rewrite Htr1, drop_app_length. split; [|split; [|done]].
    + intros i j e1 e2 _ _ Hj Hstop. rewrite Forall_lookup in Hno1.
      specialize (Hno1 _ _ Hj). congruence.
    + intros Hfull s Hget. by rewrite (Hcap Hfull).
Qed.

Lemma starts_precede_stops_witness :
  Py.get "cam2"
    (recordings (exec (reconcile (ExTick.cap 1) ExTick.cam2_only ["cam2"])
                   ExTick.recording_cam1))
  = None.
Proof.
  apply (proj1 (proj2 (starts_precede_stops (ExTick.cap 1) ExTick.cam2_only ["cam2"]
                         ExTick.recording_cam1))).
  - vm_compute. discriminate.
  - reflexivity.
Defined.

(** With a cap of one session and [cam1] recorded by a child that has exited, the
    sweep registers the new session of [cam1]. *)
Example restart_at_the_cap :
  recordings (exec (monitor_process_health (ExTick.cap 1) ExTick.cam1_died)
                ExTick.recording_cam1)
  = [("cam1", new_recording (ExTick.cap 1) "cam1" (Ex.t0 + 120) 200)].
Proof. reflexivity. Qed.

(** C5 as stated fails: with a cap of one session, [cam1] recorded and the upstream
    reporting [cam2] only, the start of [cam2] is attempted, and refused for the
    cap, before [cam1] is stopped; the table ends empty, where stopping first would
    have left [cam2] recorded. *)
Lemma start_attempted_before_stop :
  let tr := events (run_iteration (ExTick.cap 1) ExTick.cam2_only) ExTick.recording_cam1 in
  tr !! 2%nat = Some (EvLog WARNING (MaxReached 1))
  ∧ tr !! 6%nat = Some (EvUnregister "cam1")
  ∧ recordings (exec (run_iteration (ExTick.cap 1) ExTick.cam2_only) ExTick.recording_cam1)
    = []
  ∧ Py.keys (recordings
               (exec (stop_inactive_streams (ExTick.cap 1) ExTick.cam2_only ["cam2"] ;;
                      start_new_streams (ExTick.cap 1) ExTick.cam2_only ["cam2"])
                  ExTick.recording_cam1))
    = ["cam2"].
Proof. repeat split. Qed.

(** ** The detector: dispatch before enqueue, at most once *)

Lemma grows_refl st : grows st st.
Proof. by split. Qed.

Lemma grows_trans st1 st2 st3 : grows st1 st2 → grows st2 st3 → grows st1 st3.
Proof.
  intros [Hk12 Hd12] [Hk23 Hd23]. split; [congruence|].
  intros s. etrans; [apply Hd12|apply Hd23].
Qed.

Lemma path_name_join dir n : path_name (dir // n) = n.
Proof. unfold path_name, path_join. by rewrite last_snoc. Qed.

Lemma put_keys_app tr1 tr2 : put_keys (tr1 ++ tr2) = put_keys tr1 ++ put_keys tr2.
Proof. apply omap_app. Qed.

(** Events that put nothing can be added at the end. *)
Lemma detector_inv_quiet tr tr' st :
  Forall (λ e, is_put e = false) tr' →
  detector_inv tr st → detector_inv (tr ++ tr') st.
Proof.
  intros Hquiet (Hnodup & Hin & Hfirst).
  assert (put_keys tr' = []) as Hnil.
  { induction Hquiet as [|e tr' He _ IH]; [done|].
    unfold put_keys in *. simpl. destruct e; try done. }
  unfold detector_inv. rewrite put_keys_app, Hnil, app_nil_r.
  split; [done|]. split; [done|].
  intros i t [Hi|[Hge Hi]]%lookup_app_Some.
  - destruct (Hfirst i t Hi) as (j & Hlt & Hj). exists j. split; [done|].
    by apply lookup_app_l_Some.
  - rewrite Forall_lookup in Hquiet. by specialize (Hquiet _ _ Hi).
Qed.

Lemma detector_inv_grows tr st st' :
  grows st st' → detector_inv tr st → detector_inv tr st'.
Proof.
  intros [_ Hsub] (Hnodup & Hin & Hfirst). split; [done|]. split; [|done].
  intros s n Hput. apply Hsub. by apply Hin.
Qed.

(** The dispatched sets after [dispatched_add]. *)
Lemma dispatched_set s r r' s' st :
  Py.get s (recordings st) = Some r →
  dispatched s' (set_recordings (Py.set s r' (recordings st)) st)
  = if decide (s = s') then uploaded_files r' else dispatched s' st.
Proof.
  intros Hget. unfold dispatched. simpl. destruct (decide (s = s')) as [->|Hne].
  - by rewrite get_set_eq.
  - by rewrite get_set_ne.
Qed.

(** One file of one session. *)
Lemma check_segment_spec s r dir e st tr0 :
  is_Some (Py.get s (recordings st)) →
  detector_inv tr0 st →
  ∃ res st' tr,
    check_segment s r dir e st = (res, st')
    ∧ trace st' = trace st ++ tr
    ∧ detector_inv (tr0 ++ tr) st'
    ∧ grows st st'.
Proof.
  intros [rt Hget] Hinv. unfold check_segment. unfold bind at 1.
  destruct (bool_decide (d_name e ∈ dispatched s st)) eqn:Hseen.
  { exists (Ok tt), st, []. rewrite !app_nil_r.
    split; [done|]. split; [done|]. split; [done|apply grows_refl]. }
  apply bool_decide_eq_false in Hseen.
  destruct (d_stat e) as [stat|].
  2:{ exists (Raise OSError), st, []. rewrite !app_nil_r.
      split; [done|]. split; [done|]. split; [done|apply grows_refl]. }
  unfold bind at 1. unfold utcnow at 1.
  destruct (10 <? clock st - st_mtime stat).
  2:{ exists (Ok tt), st, []. rewrite !app_nil_r.
      split; [done|]. split; [done|]. split; [done|apply grows_refl]. }
  unfold dispatched_add, queue_upload. unfold_prog. simpl. rewrite Hget. simpl.
  set (t := {| file_path := dir // d_name e; task_stream_name := s;
               task_session_id := session_id r; queued_at := clock st;
               retry_count := None |}).
  eexists _, _, [EvLog INFO (FoundSegment (d_name e) (st_size stat));
                 EvDispatch s (d_name e); EvPut t;
                 EvLog INFO (QueuedForUpload (path_name (dir // d_name e)))].
  split; [done|]. simpl. rewrite <- !app_assoc. simpl. split; [done|].
  assert (∀ s', dispatched s' st
                ⊆ dispatched s'
                    {| recordings :=
                         Py.set s (with_uploaded_files (λ u, {[d_name e]} ∪ u) rt)
                           (recordings st);
                       upload_queue := upload_queue st ++ [t]; clock := clock st;
                       trace := trace st ++
                         [EvLog INFO (FoundSegment (d_name e) (st_size stat));
                          EvDispatch s (d_name e); EvPut t;
                          EvLog INFO (QueuedForUpload (path_name (dir // d_name e)))] |})
    as Hsub.
  { intros s'. unfold dispatched at 2. simpl.
    destruct (decide (s = s')) as [<-|Hne].
    - rewrite get_set_eq. simpl. unfold dispatched. rewrite Hget. set_solver.
    - rewrite get_set_ne by done. done. }
  destruct Hinv as (Hnodup & Hin & Hfirst).
  split; [|split; [by apply keys_set_present with rt|done]].
  unfold detector_inv. rewrite put_keys_app. simpl. rewrite path_name_join.
  split; [|split].
  - apply NoDup_app. split; [done|]. split; [|apply NoDup_singleton].
    intros [s' n] Hput [= -> ->]%list_elem_of_singleton. by apply Hseen, Hin.
  - intros s' n [Hput|[= -> ->]%list_elem_of_singleton]%elem_of_app.
    + by apply Hsub, Hin.
    + unfold dispatched. simpl. rewrite get_set_eq. simpl. set_solver.
  - intros i t' [Hi|[Hge Hi]]%lookup_app_Some.
    + destruct (Hfirst i t' Hi) as (j & Hlt & Hj). exists j. split; [done|].
      by apply lookup_app_l_Some.
    + destruct (i - length tr0)%nat as [|[|[|[|k]]]] eqn:Hk; simplify_eq/=.
      exists (length tr0 + 1)%nat. split; [lia|].
      rewrite lookup_app_r by lia. rewrite path_name_join.
      by replace (length tr0 + 1 - length tr0)%nat with 1%nat by lia.
Qed.

Lemma for_each_maintains {A} (l : list A) (body : A → M unit) (P : State → Prop) :
  (∀ st st', grows st st' → P st → P st') →
  (∀ x, x ∈ l → maintains P (body x)) →
  maintains P (for_each l body).
Proof.
  intros Hstable. induction l as [|x l IH]; intros Hbody st tr0 HP Hinv; simpl.
  - exists (Ok tt), st, []. rewrite !app_nil_r.
    split; [done|]. split; [done|]. split; [done|apply grows_refl].
  - destruct (Hbody x (list_elem_of_here _ _) st tr0 HP Hinv)
      as (res & st1 & tr1 & Hrun & Htr1 & Hinv1 & Hgrows1).
    unfold bind. rewrite Hrun. destruct res as [[]|e].
    + destruct (IH (λ y Hy, Hbody y (list_elem_of_further _ _ _ Hy)) st1 (tr0 ++ tr1))
        as (res & st' & tr & Hloop & Htr & Hinv' & Hgrows'); [by eapply Hstable|done|].
      exists res, st', (tr1 ++ tr). rewrite Hloop, Htr, Htr1, !app_assoc.
      split; [done|]. split; [done|]. split; [done|by eapply grows_trans].
    + by exists (Raise e), st1, tr1.
Qed.

Lemma is_Some_get_grows s st st' :
  grows st st' → is_Some (Py.get s (recordings st)) → is_Some (Py.get s (recordings st')).
Proof.
  intros [Hkeys _] Hsome. apply get_Some_keys. rewrite Hkeys.
  destruct (decide (s ∈ Py.keys (recordings st))) as [|Hnot]; [done|].
  apply get_None_keys in Hnot. rewrite Hnot in Hsome. by destruct Hsome.
Qed.

Lemma check_recording_maintains settings env s r :
  maintains (λ st, is_Some (Py.get s (recordings st)))
    (check_recording settings env (s, r)).
Proof.
  assert (maintains (λ st, is_Some (Py.get s (recordings st))) (ret tt)) as Hret.
  { intros st tr0 _ Hinv. exists (Ok tt), st, []. rewrite !app_nil_r.
    split; [done|]. split; [done|]. split; [done|apply grows_refl]. }
  unfold check_recording.
  destruct (output_dir r) as [dir|]; [|done].
  destruct (listdir env dir) as [entries|]; [|done].
  destruct (_ <=? _)%nat; [done|].
  apply for_each_maintains.
  - intros st st'. apply is_Some_get_grows.
  - intros e _ st tr0. apply check_segment_spec.
Qed.

Lemma check_completed_segments_maintains settings env :
  maintains (λ _, True) (check_completed_segments settings env).
Proof.
  intros st tr0 _ Hinv. unfold check_completed_segments, bind at 1, get_recordings at 1.
  apply (for_each_maintains (recordings st) (check_recording settings env)
           (λ st', Py.keys (recordings st') = Py.keys (recordings st))); [| |done..].
  - intros st1 st2 [Hkeys _] Hst1. congruence.
  - intros [s r] Hin st1 tr1 Hkeys. apply check_recording_maintains.
    apply get_Some_keys. rewrite Hkeys. unfold Py.keys.
    apply list_elem_of_fmap. by exists (s, r).
Qed.

Lemma check_segments_round_maintains settings env :
  maintains (λ _, True) (check_segments_round settings env).
Proof.
  intros st tr0 _ Hinv. unfold check_segments_round, try_except, bind.
  destruct (check_completed_segments_maintains settings env st tr0 I Hinv)
    as (res & st1 & tr1 & Hrun & Htr1 & Hinv1 & Hgrows1).
  rewrite Hrun. destruct res as [[]|e]; unfold sleep, log, emit; simpl.
  - eexists _, _, (tr1 ++ [EvSleep 30]). split; [done|]. simpl.
    rewrite Htr1, !app_assoc. split; [done|]. split; [|done].
    apply (detector_inv_quiet (tr0 ++ tr1) [EvSleep 30] st1) in Hinv1;
      [|by repeat constructor].
    destruct Hinv1 as (? & ? & ?). by repeat split.
  - eexists _, _, (tr1 ++ [EvLog ERROR CheckSegmentsFailed]). split; [done|]. simpl.
    rewrite Htr1, !app_assoc. split; [done|]. split; [|done].
    apply (detector_inv_quiet (tr0 ++ tr1) [EvLog ERROR CheckSegmentsFailed] st1)
      in Hinv1; [|by repeat constructor].
    destruct Hinv1 as (? & ? & ?). by repeat split.
Qed.



(** Two rounds over the same two files: the older file is put once. *)
Example detector_two_rounds :
  put_keys (events (detector default_settings [ExScan.two_files; ExScan.two_files])
              (Ex.state [("cam1", Ex.cam1)] (Ex.t0 + 100)))
  = [("cam1", "segment_000.mp4")].
Proof. reflexivity. Qed.

(** ** The reconciler and the dispatched sets *)





Lemma upload_file_keeps_recordings settings env task st :
  recordings (exec (upload_file settings env task) st) = recordings st.
Proof.
  unfold exec, upload_file. unfold_prog. simpl.
  destruct (path_exists env (file_path task)); simpl; [|done].
  destruct (s3_upload_file env _ _ _); simpl.
  - by destruct (unlink env (file_path task)).
  - by destruct (default 0 (retry_count task) <? 3).
Qed.


(** ** What a tick does to the session table *)

Lemma for_each_keeps {A} (I : State → Prop) (l : list A) (body : A → M unit) :
  (∀ x st, x ∈ l → I st → I (exec (body x) st)) →
  ∀ st, I st → I (exec (for_each l body) st).
Proof.
  induction l as [|x l IH]; intros Hb st HI; [done|].
  unfold exec in *. cbn [for_each]. unfold bind.
  pose proof (Hb x st (list_elem_of_here _ _) HI) as H1.
  destruct (body x st) as [[[]|e] st1]; simpl in *; [|done].
  apply IH; [|done]. intros y st' Hy. apply Hb. by apply list_elem_of_further.
Qed.

Lemma stop_stream_recording_table settings env s st :
  recordings (exec (stop_stream_recording settings env s) st)
  = Py.remove s (recordings st).
Proof.
  unfold exec. destruct (Py.get s (recordings st)) as [r|] eqn:Hg.
  - by rewrite (stop_stream_recording_present _ _ _ _ _ Hg).
  - rewrite (stop_stream_recording_unknown _ _ _ _ Hg). simpl.
    by rewrite remove_absent.
Qed.

(** The table after [start_stream_recording]: as it was, or with one session added
    under a stream that had none, below the cap. *)
Lemma start_stream_recording_table settings env s st :
  let st' := exec (start_stream_recording settings env s) st in
  recordings st' = recordings st
  ∨ ∃ r, Py.get s (recordings st) = None
         ∧ Z.of_nat (length (recordings st)) < MAX_CONCURRENT_RECORDINGS settings
         ∧ recordings st' = recordings st ++ [(s, r)].
Proof.
  destruct (start_stream_recording_cases settings env s st)
    as (res & st' & tr & Hrun & _ & _ & _ & _ & Hcase).
  unfold exec. rewrite Hrun. simpl.
  destruct Hcase as [->|(c & _ & Habs & Hlen & _ & ->)]; [by left|].
  right. eexists. split; [done|]. split; [done|]. by apply set_absent.
Qed.

Lemma keys_app {V} (d1 d2 : Py.dict V) : Py.keys (d1 ++ d2) = Py.keys d1 ++ Py.keys d2.
Proof. unfold Py.keys. by rewrite fmap_app. Qed.

Lemma remove_NoDup {V} k (d : Py.dict V) : NoDup (Py.keys d) → NoDup (Py.keys (Py.remove k d)).
Proof. rewrite keys_remove. apply NoDup_filter. Qed.

Section Cap.
Variable settings : Settings.
Variable env : Env.

Lemma within_cap_table st st' :
  recordings st' = recordings st → within_cap settings st → within_cap settings st'.
Proof. unfold within_cap. by intros ->. Qed.

Lemma within_cap_remove k st st' :
  recordings st' = Py.remove k (recordings st) →
  within_cap settings st → within_cap settings st'.
Proof.
  unfold within_cap. intros -> [Hnd Hlen]. split; [by apply remove_NoDup|].
  pose proof (length_remove k (recordings st)). lia.
Qed.

Lemma start_stream_recording_within_cap s st :
  within_cap settings st →
  within_cap settings (exec (start_stream_recording settings env s) st).
Proof.
  intros [Hnd Hlen].
  destruct (start_stream_recording_table settings env s st) as [Heq|(r & Habs & Hlt & Heq)].
  - by apply (within_cap_table st).
  - unfold within_cap. rewrite Heq, keys_app, length_app. simpl. split; [|lia].
    apply NoDup_app. split; [done|]. split; [|apply NoDup_singleton].
    intros k Hk ->%list_elem_of_singleton. by apply get_None_keys in Habs.
Qed.

Lemma check_health_within_cap item st :
  within_cap settings st →
  within_cap settings (exec (check_health settings env item) st).
Proof.
  destruct item as [s r]. intros Hok.
  destruct (child_exited env r) eqn:Hex.
  - destruct (Py.get s (recordings st)) as [r0|] eqn:Hg.
    + unfold exec. rewrite (check_health_exited _ _ _ _ _ _ Hex Hg).
      apply start_stream_recording_within_cap.
      by apply (within_cap_remove s st).
    + unfold exec, check_health. unfold child_exited in Hex. rewrite Hex.
      unfold Py.del. apply contains_false in Hg. unfold_prog. simpl. rewrite Hg.
      simpl. by apply (within_cap_table st).
  - unfold exec. by rewrite (check_health_alive _ _ _ _ _ Hex).
Qed.

Lemma start_new_streams_within_cap active st :
  within_cap settings st →
  within_cap settings (exec (start_new_streams settings env active) st).
Proof.
  apply (for_each_keeps (within_cap settings)). clear st.
  intros s st _ Hok. unfold exec, bind, get_recordings. simpl.
  destruct (Py.contains s (recordings st)); simpl; [done|].
  by apply start_stream_recording_within_cap.
Qed.

Lemma stop_inactive_streams_within_cap active st :
  within_cap settings st →
  within_cap settings (exec (stop_inactive_streams settings env active) st).
Proof.
  intros Hok. unfold exec. rewrite stop_inactive_streams_unfold.
  revert Hok. generalize (Py.keys (recordings st)). intros ks.
  apply (for_each_keeps (within_cap settings)). clear st.
  intros s st _ Hok. unfold stop_if_inactive.
  destruct (bool_decide (s ∈ active)); simpl; [done|].
  unfold exec, bind, log, emit. simpl.
  match goal with |- context [stop_stream_recording _ _ _ ?x] => set (st1 := x) end.
  pose proof (stop_stream_recording_table settings env s st1) as Ht. unfold exec in Ht.
  destruct (stop_stream_recording settings env s st1) as [[[]|e] st2]; simpl in *;
    by apply (within_cap_remove s st).
Qed.

Lemma monitor_process_health_within_cap st :
  within_cap settings st →
  within_cap settings (exec (monitor_process_health settings env) st).
Proof.
  intros Hok. unfold exec. rewrite monitor_process_health_unfold.
  revert Hok. apply (for_each_keeps (within_cap settings)).
  intros item st' _. apply check_health_within_cap.
Qed.

End Cap.

Lemma run_iteration_keeps_cap settings env st :
  within_cap settings st →
  within_cap settings (exec (run_iteration settings env) st).
Proof.
  intros Hok.
  destruct (get_active_streams_spec settings env st) as (names & tr & Hpoll & _ & _).
  assert (within_cap settings (extend [] tr st)) as H0 by done.
  pose proof (start_new_streams_within_cap settings env names _ H0) as H1.
  pose proof (stop_inactive_streams_within_cap settings env names _ H1) as H2.
  pose proof (monitor_process_health_within_cap settings env _ H2) as H3.
  unfold exec in *. unfold run_iteration.
  unfold bind at 1. unfold try_except. unfold bind at 1. rewrite Hpoll.
  unfold bind at 1.
  destruct (start_new_streams settings env names (extend [] tr st)) as [[[]|e1] st1];
    simpl in *; [|done].
  unfold bind at 1.
  destruct (stop_inactive_streams settings env names st1) as [[[]|e2] st2];
    simpl in *; [|done].
  destruct (monitor_process_health settings env st2) as [[[]|e3] st3]; simpl in *; done.
Qed.

Lemma detector_inv_nil st : detector_inv [] st.
Proof.
  split; [constructor|]. split; [by intros s n H; inversion H|].
  intros i t H. by destruct i.
Qed.

(** X1: the concurrency cap is an invariant. A table with one session per stream and
    at most [MAX_CONCURRENT_RECORDINGS] sessions is still so after an iteration of
    [run], after a round of the detector and after a round of the upload workers,
    whatever the environment does. *)
Theorem within_cap_invariant settings env st :
  within_cap settings st →
  within_cap settings (exec (run_iteration settings env) st)
  ∧ within_cap settings (exec (check_segments_round settings env) st)
  ∧ within_cap settings (exec (process_queue_step settings env) st).
Proof.
  intros Hok. split; [by apply run_iteration_keeps_cap|]. split.
  - destruct (check_segments_round_maintains settings env st [] I (detector_inv_nil st))
      as (res & st' & tr & Hrun & _ & _ & Hkeys & _).
    unfold exec. rewrite Hrun. simpl. destruct Hok as [Hnd Hlen].
    split; [by rewrite Hkeys|].
    apply (f_equal length) in Hkeys. unfold Py.keys in Hkeys.
    rewrite !length_fmap in Hkeys. by rewrite Hkeys.
  - unfold exec, process_queue_step. destruct (upload_queue st) as [|task rest]; [done|].
    apply (within_cap_table settings st); [|exact Hok].
    apply (upload_file_keeps_recordings settings env task
             {| recordings := recordings st; upload_queue := rest; clock := clock st;
                trace := trace st |}).
Qed.

Lemma within_cap_invariant_witness :
  within_cap (ExTick.cap 1)
    (exec (run_iteration (ExTick.cap 1) ExTick.cam1_died) ExTick.recording_cam1)
  ∧ within_cap (ExTick.cap 1)
      (exec (check_segments_round (ExTick.cap 1) ExTick.cam1_died) ExTick.recording_cam1)
  ∧ within_cap (ExTick.cap 1)
      (exec (process_queue_step (ExTick.cap 1) ExTick.cam1_died) ExTick.recording_cam1).
Proof.
  apply within_cap_invariant. split; [apply NoDup_singleton|simpl; lia].
Defined.

Lemma stopped_get_inactive active ks d k :
  k ∈ ks → k ∉ active → Py.get k (stopped active ks d) = None.
Proof.
  unfold stopped. revert d. induction ks as [|k' ks IH]; intros d Hk Hna; [by inversion Hk|].
  simpl. apply elem_of_cons in Hk as [->|Hk].
  - rewrite bool_decide_eq_false_2 by done.
    apply stopped_get_None, get_remove_eq.
  - by apply IH.
Qed.

Lemma stopped_get_active active ks d k :
  k ∈ active → Py.get k (stopped active ks d) = Py.get k d.
Proof.
  unfold stopped. revert d. induction ks as [|k' ks IH]; intros d Hk; [done|].
  simpl. rewrite IH by done. case_bool_decide; [done|].
  apply get_remove_ne. by intros ->.
Qed.

Lemma stopped_length active ks d : (length (stopped active ks d) ≤ length d)%nat.
Proof.
  unfold stopped. revert d. induction ks as [|k' ks IH]; intros d; [done|].
  simpl. etrans; [apply IH|]. case_bool_decide; [done|]. apply length_remove.
Qed.

Lemma start_new_streams_ok settings env active st :
  spawn_succeeds env → outcome (start_new_streams settings env active) st = Ok tt.
Proof.
  intros Hsp. unfold start_new_streams, outcome. revert st.
  induction active as [|s l IH]; intros st; [done|].
  cbn [for_each]. unfold bind at 1. unfold bind at 1, get_recordings.
  destruct (negb (Py.contains s (recordings st))).
  - pose proof (start_stream_recording_ok settings env s st Hsp) as Hok.
    unfold outcome in Hok.
    destruct (start_stream_recording settings env s st) as [[[]|e] st1]; simpl in *;
      [apply IH|done].
  - simpl. apply IH.
Qed.

Lemma stop_inactive_streams_table settings env active st :
  ∃ st',
    stop_inactive_streams settings env active st = (Ok tt, st')
    ∧ recordings st' = stopped active (Py.keys (recordings st)) (recordings st)
    ∧ clock st' = clock st.
Proof.
  rewrite stop_inactive_streams_unfold.
  destruct (stop_loop_spec settings env active (Py.keys (recordings st)) st)
    as (st' & q & tr & Hrun & Hrec & Hclock & _).
  by exists st'.
Qed.

(** The table at the end of a tick whose start loop returns: that of the health
    sweep run on what the stop loop leaves. *)
Lemma run_iteration_steps settings env st names tr st1 :
  get_active_streams settings env st = (Ok names, extend [] tr st) →
  start_new_streams settings env names (extend [] tr st) = (Ok tt, st1) →
  ∃ st2,
    recordings st2 = stopped names (Py.keys (recordings st1)) (recordings st1)
    ∧ recordings (exec (run_iteration settings env) st)
      = recordings (exec (monitor_process_health settings env) st2).
Proof.
  intros Hpoll Hstart.
  destruct (stop_inactive_streams_table settings env names st1) as (st2 & Hstop & Hrec & _).
  exists st2. split; [done|].
  unfold exec, run_iteration.
  unfold bind at 1. unfold try_except. unfold bind at 1. rewrite Hpoll.
  unfold bind at 1. rewrite Hstart.
  unfold bind at 1. rewrite Hstop.
  by destruct (monitor_process_health settings env st2) as [[[]|e3] st3].
Qed.

(** A tick whose start loop raises: what is left of the iteration is skipped. *)
Lemma run_iteration_start_raises settings env st names tr e st1 :
  get_active_streams settings env st = (Ok names, extend [] tr st) →
  start_new_streams settings env names (extend [] tr st) = (Raise e, st1) →
  run_iteration settings env st
  = (Ok tt,
     {| recordings := recordings st1; upload_queue := upload_queue st1;
        clock := clock st1 + POLLING_INTERVAL settings;
        trace := trace st1 ++ [EvLog ERROR LoopError;
                               EvSleep (POLLING_INTERVAL settings)] |}).
Proof.
  intros Hpoll Hstart. unfold run_iteration.
  unfold bind at 1. unfold try_except. unfold bind at 1. rewrite Hpoll.
  unfold bind at 1. rewrite Hstart. unfold_prog. simpl.
  by rewrite <- app_assoc.
Qed.

Lemma outcome_get_active_streams settings env st names :
  outcome (get_active_streams settings env) st = Ok names →
  ∃ tr, get_active_streams settings env st = (Ok names, extend [] tr st)
        ∧ Forall quiet tr.
Proof.
  destruct (get_active_streams_spec settings env st) as (names' & tr & Hpoll & Hq & _).
  unfold outcome. rewrite Hpoll. simpl. intros [= <-]. by exists tr.
Qed.

(** The streams of the table after [start_stream_recording s]: those it had, and
    possibly [s]. *)
Lemma start_stream_recording_keys settings env s st k :
  k ∈ Py.keys (recordings (exec (start_stream_recording settings env s) st)) →
  k ∈ Py.keys (recordings st) ∨ k = s.
Proof.
  destruct (start_stream_recording_table settings env s st) as [->|(r & _ & _ & ->)];
    [by left|].
  rewrite keys_app. intros [Hk|Hk%list_elem_of_singleton]%elem_of_app; [by left|by right].
Qed.

Lemma check_health_keys settings env s r st k :
  k ∈ Py.keys (recordings (exec (check_health settings env (s, r)) st)) →
  k ∈ Py.keys (recordings st) ∨ k = s.
Proof.
  destruct (child_exited env r) eqn:Hex.
  - destruct (Py.get s (recordings st)) as [r0|] eqn:Hg.
    + unfold exec. rewrite (check_health_exited _ _ _ _ _ _ Hex Hg).
      intros [Hk|Hk]%start_stream_recording_keys; [|by right].
      left. simpl in Hk. rewrite keys_remove in Hk.
      by apply list_elem_of_filter in Hk as [_ ?].
    + unfold exec, check_health. unfold child_exited in Hex. rewrite Hex.
      unfold Py.del. apply contains_false in Hg. unfold_prog. simpl. rewrite Hg.
      simpl. by left.
  - unfold exec. rewrite (check_health_alive _ _ _ _ _ Hex). by left.
Qed.

Lemma monitor_process_health_keys settings env st k :
  k ∈ Py.keys (recordings (exec (monitor_process_health settings env) st)) →
  k ∈ Py.keys (recordings st).
Proof.
  unfold exec. rewrite monitor_process_health_unfold.
  pose proof (for_each_keeps
    (λ st', ∀ k, k ∈ Py.keys (recordings st') → k ∈ Py.keys (recordings st))
    (recordings st) (check_health settings env)) as H.
  intros Hk. eapply H; [|done|exact Hk].
  intros [s r] st' Hin HI k2 [Hk2 | ->]%check_health_keys; [by apply HI|].
  unfold Py.keys. apply list_elem_of_fmap. by exists (s, r).
Qed.

(** X2: after an iteration of [run] in which no spawn raises, every stream in the
    table is one the poll of this iteration has returned: no session of a stream
    absent from the poll is left. *)
Theorem tick_records_polled_only settings env st names :
  spawn_succeeds env →
  outcome (get_active_streams settings env) st = Ok names →
  ∀ s, s ∈ Py.keys (recordings (exec (run_iteration settings env) st)) → s ∈ names.
Proof.
  intros Hsp (tr & Hpoll & _)%outcome_get_active_streams s.
  pose proof (start_new_streams_ok settings env names (extend [] tr st) Hsp) as Hok.
  unfold outcome in Hok.
  destruct (start_new_streams settings env names (extend [] tr st)) as [res st1] eqn:Hstart.
  simpl in Hok. subst res.
  destruct (run_iteration_steps _ _ _ _ _ _ Hpoll Hstart) as (st2 & Hrec & ->).
  intros Hs%monitor_process_health_keys. rewrite Hrec in Hs.
  destruct (decide (s ∈ names)) as [|Hn]; [done|]. exfalso.
  destruct (decide (s ∈ Py.keys (recordings st1))) as [Hin|Hout].
  - pose proof (stopped_get_inactive names _ (recordings st1) s Hin Hn) as Hg.
    by apply get_None_keys in Hg.
  - apply get_None_keys in Hout.
    pose proof (stopped_get_None names (Py.keys (recordings st1)) _ _ Hout) as Hg.
    by apply get_None_keys in Hg.
Qed.

Lemma tick_records_polled_only_witness :
  outcome (get_active_streams default_settings ExTick.cam2_only) ExTick.recording_cam1
  = Ok ["cam2"]
  ∧ ∀ s, s ∈ Py.keys (recordings (exec (run_iteration default_settings ExTick.cam2_only)
                                    ExTick.recording_cam1)) →
         s ∈ ["cam2"].
Proof.
  split; [reflexivity|].
  apply tick_records_polled_only; [|reflexivity].
  intros dir. split; [reflexivity|]. by exists 200.
Defined.

(** The start loop when every spawn survives and the table has room for every
    polled name: each of them is recorded afterwards. *)
Lemma start_new_streams_registers settings env active st :
  spawn_survives env →
  Z.of_nat (length (recordings st)) + Z.of_nat (length active)
    ≤ MAX_CONCURRENT_RECORDINGS settings →
  ∃ st',
    start_new_streams settings env active st = (Ok tt, st')
    ∧ (∀ s, s ∈ active → is_Some (Py.get s (recordings st')))
    ∧ (∀ s, is_Some (Py.get s (recordings st)) → is_Some (Py.get s (recordings st')))
    ∧ (length (recordings st') ≤ length (recordings st) + length active)%nat.
Proof.
  intros Hsp. unfold start_new_streams. revert st.
  induction active as [|s l IH]; intros st Hroom.
  { exists st. split; [done|]. split; [by intros s Hs; inversion Hs|]. split; [done|lia]. }
  cbn [for_each length] in *. unfold bind at 1. unfold bind at 1, get_recordings.
  destruct (Py.contains s (recordings st)) eqn:Hc; simpl.
  - apply contains_true in Hc.
    destruct (IH st) as (st' & Hrun & Hall & Hmono & Hlen); [lia|].
    exists st'. split; [done|]. split; [|split; [done|lia]].
    intros k [->|Hk]%elem_of_cons; [by apply Hmono|by apply Hall].
  - apply contains_false in Hc.
    destruct (Hsp (session_dir settings s (clock st))) as (Hmk & c & Hpo & Hal).
    rewrite (start_stream_recording_registers settings env s st c Hc); [|lia|done..].
    match goal with |- context [for_each l _ ?x] => set (st1 := x) end.
    assert (length (recordings st1) = S (length (recordings st))) as Hl1
      by (by apply length_set_absent).
    destruct (IH st1) as (st' & Hrun & Hall & Hmono & Hlen); [lia|].
    exists st'. split; [done|].
    assert (∀ k, is_Some (Py.get k (recordings st)) ∨ k = s
                 → is_Some (Py.get k (recordings st'))) as Hk1.
    { intros k Hk. apply Hmono. simpl. destruct (decide (s = k)) as [->|Hne].
      - by rewrite get_set_eq.
      - rewrite get_set_ne by done. by destruct Hk. }
    split; [|split; [by auto|lia]].
    intros k [->|Hk]%elem_of_cons; [by apply Hk1; right|by apply Hall].
Qed.

(** The health sweep when every spawn survives and the table is within the cap:
    every recorded stream is still recorded afterwards. *)
Lemma check_health_survives settings env s r st :
  spawn_survives env →
  is_Some (Py.get s (recordings st)) →
  Z.of_nat (length (recordings st)) ≤ MAX_CONCURRENT_RECORDINGS settings →
  let st' := exec (check_health settings env (s, r)) st in
  (∀ k, is_Some (Py.get k (recordings st)) → is_Some (Py.get k (recordings st')))
  ∧ (length (recordings st') ≤ length (recordings st))%nat.
Proof.
  intros Hsp [r0 Hg] Hlen. cbv zeta.
  destruct (child_exited env r) eqn:Hex.
  - unfold exec. rewrite (check_health_exited _ _ _ _ _ _ Hex Hg).
    match goal with |- context [start_stream_recording _ _ _ ?x] => set (st1 := x) end.
    destruct (Hsp (session_dir settings s (clock st1))) as (Hmk & c & Hpo & Hal).
    pose proof (length_remove_present _ _ _ Hg) as Hlt.
    rewrite (start_stream_recording_registers settings env s st1 c);
      [|apply get_remove_eq|simpl; lia|done..].
    simpl. split.
    + intros k Hk. destruct (decide (s = k)) as [->|Hne].
      * by rewrite get_set_eq.
      * by rewrite get_set_ne, get_remove_ne.
    + rewrite (length_set_absent s) by apply get_remove_eq. lia.
  - unfold exec. by rewrite (check_health_alive _ _ _ _ _ Hex).
Qed.

Lemma monitor_process_health_survives settings env st :
  spawn_survives env →
  Z.of_nat (length (recordings st)) ≤ MAX_CONCURRENT_RECORDINGS settings →
  ∀ k, is_Some (Py.get k (recordings st)) →
       is_Some (Py.get k (recordings (exec (monitor_process_health settings env) st))).
Proof.
  intros Hsp Hlen. unfold exec. rewrite monitor_process_health_unfold.
  pose proof (for_each_keeps
    (λ st', (∀ k, is_Some (Py.get k (recordings st)) → is_Some (Py.get k (recordings st')))
            ∧ (length (recordings st') ≤ length (recordings st))%nat)
    (recordings st) (check_health settings env)) as H.
  apply H; [|done].
  intros [s r] st' Hin [Hkeep Hl].
  destruct (check_health_survives settings env s r st' Hsp) as [Hkeep' Hl'].
  - apply Hkeep, get_Some_keys. unfold Py.keys. apply list_elem_of_fmap. by exists (s, r).
  - lia.
  - split; [by auto|lia].
Qed.

(** X3: when every spawn succeeds with a child that outlives the probe, and the table
    has room for every polled name, one iteration of [run] brings the table to the
    poll: afterwards a stream is recorded if and only if the poll has returned it. *)
Theorem tick_records_exactly_the_polled settings env st names :
  spawn_survives env →
  outcome (get_active_streams settings env) st = Ok names →
  Z.of_nat (length (recordings st)) + Z.of_nat (length names)
    ≤ MAX_CONCURRENT_RECORDINGS settings →
  ∀ s, s ∈ Py.keys (recordings (exec (run_iteration settings env) st)) ↔ s ∈ names.
Proof.
  intros Hsp (tr & Hpoll & _)%outcome_get_active_streams Hroom s.
  destruct (start_new_streams_registers settings env names (extend [] tr st) Hsp Hroom)
    as (st1 & Hstart & Hall & _ & Hlen).
  destruct (run_iteration_steps _ _ _ _ _ _ Hpoll Hstart) as (st2 & Hrec & ->).
  split.
  - intros Hs%monitor_process_health_keys. rewrite Hrec in Hs.
    destruct (decide (s ∈ names)) as [|Hn]; [done|]. exfalso.
    destruct (decide (s ∈ Py.keys (recordings st1))) as [Hin|Hout].
    + pose proof (stopped_get_inactive names _ (recordings st1) s Hin Hn) as Hg.
      by apply get_None_keys in Hg.
    + apply get_None_keys in Hout.
      pose proof (stopped_get_None names (Py.keys (recordings st1)) _ _ Hout) as Hg.
      by apply get_None_keys in Hg.
  - intros Hs.
    assert (is_Some (Py.get s (recordings
              (exec (monitor_process_health settings env) st2)))) as [r Hr].
    { apply monitor_process_health_survives; [done| |].
      - rewrite Hrec. pose proof (stopped_length names (Py.keys (recordings st1))
                                    (recordings st1)).
        simpl in Hlen. lia.
      - rewrite Hrec, stopped_get_active by done. by apply Hall. }
    destruct (decide (s ∈ Py.keys (recordings
                (exec (monitor_process_health settings env) st2)))) as [|Hout]; [done|].
    apply get_None_keys in Hout. congruence.
Qed.

Lemma tick_records_exactly_the_polled_witness :
  Z.of_nat (length (recordings ExTick.recording_cam1)) + Z.of_nat (length ["cam2"])
    ≤ MAX_CONCURRENT_RECORDINGS default_settings
  ∧ ∀ s, s ∈ Py.keys (recordings (exec (run_iteration default_settings ExTick.cam2_only)
                                    ExTick.recording_cam1))
         ↔ s ∈ ["cam2"].
Proof.
  split; [simpl; lia|].
  apply tick_records_exactly_the_polled; [|reflexivity|simpl; lia].
  intros dir. split; [reflexivity|]. by exists 200.
Defined.

(** [start_stream_recording] on a stream with no session, below the cap, when the
    spawn raises. *)
Lemma start_stream_recording_raises settings env s st :
  Py.get s (recordings st) = None →
  Z.of_nat (length (recordings st)) < MAX_CONCURRENT_RECORDINGS settings →
  spawn_raises env (session_dir settings s (clock st)) →
  ∃ tr,
    start_stream_recording settings env s st = (Raise OSError, extend [] tr st)
    ∧ Forall (λ e, is_stop e = false) tr.
Proof.
  intros Habs Hlen Hsp. unfold start_stream_recording.
  unfold bind at 1, get_recordings. apply contains_false in Habs. rewrite Habs.
  destruct (MAX_CONCURRENT_RECORDINGS settings <=? Z.of_nat (length (recordings st)))
    eqn:Hcap; [lia|].
  unfold bind at 1, utcnow. unfold bind at 1. unfold start_recording.
  fold (session_dir settings s (clock st)).
  unfold bind at 1.
  destruct (mkdir env (session_dir settings s (clock st))) eqn:Hmk.
  - destruct Hsp as [?|Hpo]; [congruence|]. rewrite Hpo. unfold_prog. simpl.
    eexists [_]. split; [by unfold extend; simpl; rewrite app_nil_r|].
    by repeat constructor.
  - unfold_prog. simpl. exists []. split; [|done].
    unfold extend. simpl. rewrite !app_nil_r. by destruct st.
Qed.

(** X4: when the spawn for the first polled stream that has no session raises
    ([mkdir] or [Popen]), the iteration of [run] ends there: the table and the upload
    queue are as before, nothing is stopped (neither the stop loop nor the health
    sweep runs), the error is logged and the loop sleeps the polling interval. *)
Theorem failed_spawn_ends_tick settings env st names recorded s rest :
  outcome (get_active_streams settings env) st = Ok names →
  names = recorded ++ s :: rest →
  Forall (λ k, is_Some (Py.get k (recordings st))) recorded →
  Py.get s (recordings st) = None →
  Z.of_nat (length (recordings st)) < MAX_CONCURRENT_RECORDINGS settings →
  spawn_raises env (session_dir settings s (clock st)) →
  recordings (exec (run_iteration settings env) st) = recordings st
  ∧ upload_queue (exec (run_iteration settings env) st) = upload_queue st
  ∧ Forall (λ e, is_stop e = false) (events (run_iteration settings env) st)
  ∧ last (events (run_iteration settings env) st) = Some (EvSleep (POLLING_INTERVAL settings))
  ∧ EvLog ERROR LoopError ∈ events (run_iteration settings env) st.
Proof.
  intros (tr & Hpoll & Hq)%outcome_get_active_streams -> Hrec Habs Hlen Hsp.
  set (st0 := extend [] tr st).
  destruct (start_stream_recording_raises settings env s st0 Habs Hlen Hsp)
    as (tr1 & Hstart & Hns).
  assert (start_new_streams settings env (recorded ++ s :: rest) st0
          = (Raise OSError, extend [] tr1 st0)) as Hloop.
  { unfold start_new_streams. rewrite for_each_app.
    assert (for_each recorded (λ stream_name,
              recs <- get_recordings ;;
              if negb (Py.contains stream_name recs)
              then start_stream_recording settings env stream_name
              else ret tt) st0 = (Ok tt, st0)) as Hskip.
    { clear -Hrec. induction Hrec as [|k l Hk _ IH]; [done|].
      cbn [for_each]. unfold bind at 1. unfold bind at 1, get_recordings.
      apply contains_true in Hk. change (recordings st0) with (recordings st).
      rewrite Hk. simpl. apply IH. }
    unfold bind at 1. rewrite Hskip. cbn [for_each].
    unfold bind at 1. unfold bind at 1, get_recordings.
    apply contains_false in Habs. change (recordings st0) with (recordings st).
    rewrite Habs. simpl. by rewrite Hstart. }
  unfold events, exec.
  rewrite (run_iteration_start_raises _ _ _ _ _ _ _ Hpoll Hloop). simpl.
  rewrite ?app_nil_r. split; [done|]. split; [done|].
  rewrite <- !app_assoc, drop_app_length.
  split; [|split].
  - apply Forall_app. split; [eapply Forall_impl; [exact Hq|by intros ? []]|].
    apply Forall_app. split; [done|]. by repeat constructor.
  - change [EvLog ERROR LoopError; EvSleep (POLLING_INTERVAL settings)]
      with ([EvLog ERROR LoopError] ++ [EvSleep (POLLING_INTERVAL settings)]).
    by rewrite !app_assoc, last_snoc.
  - rewrite !elem_of_app. right. right. apply list_elem_of_here.
Qed.

Lemma failed_spawn_ends_tick_witness :
  let run := run_iteration default_settings ExPoll.sourced in
  let st := Ex.state [("cam0", Ex.cam1)] Ex.t0 in
  recordings (exec run st) = recordings st
  ∧ upload_queue (exec run st) = upload_queue st
  ∧ Forall (λ e, is_stop e = false) (events run st)
  ∧ last (events run st) = Some (EvSleep (POLLING_INTERVAL default_settings))
  ∧ EvLog ERROR LoopError ∈ events run st.
Proof.
  apply (failed_spawn_ends_tick default_settings ExPoll.sourced
           (Ex.state [("cam0", Ex.cam1)] Ex.t0) ["cam1"] [] "cam1" []);
    [reflexivity|reflexivity|constructor|reflexivity|simpl; lia|right; reflexivity].
Defined.

(** ** A malformed item in the answer of the upstream *)

Lemma comprehension_ok items names :
  comprehension items = Ok names →
  ∀ item, item ∈ items →
    ∃ live, item_live item = Ok live
            ∧ (live = true → ∃ v, py_getitem item "name" = Ok v).
Proof.
  revert names. induction items as [|x items IH]; intros names Hc item Hin;
    [by apply elem_of_nil in Hin|].
  simpl in Hc. destruct (item_live x) as [live|] eqn:Hlive; [|done]. simpl in Hc.
  destruct live.
  - destruct (py_getitem x "name") as [v|] eqn:Hname; [|done]. simpl in Hc.
    destruct (comprehension items) as [rest|] eqn:Hrest; [|done].
    apply elem_of_cons in Hin as [->|Hin].
    + exists true. split; [done|]. by exists v.
    + by apply (IH rest).
  - apply elem_of_cons in Hin as [->|Hin].
    + by exists false.
    + by apply (IH names).
Qed.

Lemma malformed_raises data item :
  item ∈ items_of data → malformed item → ∃ e, active_of_data data = Raise e.
Proof.
  intros Hin Hbad.
  destruct (active_of_data data) as [found|e] eqn:Hdata; [exfalso|by exists e].
  unfold items_of in Hin. destruct data as [| | | | | |d]; try by apply elem_of_nil in Hin.
  unfold active_of_data in Hdata. simpl in Hdata.
  destruct (Py.get "items" d) as [[| | | | |l|]|]; try by apply elem_of_nil in Hin.
  simpl in Hdata.
  assert (bool_decide (length l = 0%nat) = false) as Hne.
  { apply bool_decide_eq_false. destruct l; [by apply elem_of_nil in Hin|done]. }
  rewrite Hne in Hdata. simpl in Hdata.
  destruct (comprehension l) as [names|] eqn:Hc; [|done]. simpl in Hdata.
  destruct (comprehension_ok l names Hc item Hin) as (live & Hlive & Hname).
  destruct Hbad as [Hnd|(fields & -> & Hready & Hsource & Hnostr)].
  { destruct item; try done. by apply (Hnd d0). }
  assert (item_live (Py.Dict fields) = Ok true) as Hl.
  { apply item_live_true. by exists fields. }
  rewrite Hl in Hlive. injection Hlive as <-.
  destruct (Hname eq_refl) as [v Hv].
  assert (v ∈ names) as Hvn.
  { apply (comprehension_elem l names Hc). by exists (Py.Dict fields). }
  destruct names as [|n names']; [by apply elem_of_nil in Hvn|].
  destruct (join_names (n :: names')) as [ss|] eqn:Hj; [|done].
  apply join_names_fmap in Hj. rewrite Hj in Hvn.
  apply list_elem_of_fmap in Hvn as (s & -> & _).
  simpl in Hv. destruct (Py.get "name" fields) as [x|] eqn:Hx; [|done].
  injection Hv as ->. by apply (Hnostr s).
Qed.

(** X5: one malformed item (not an object, or live without a string ['name']) in a
    200 answer makes [get_active_streams] return the empty list, whatever the other
    items report, and the iteration of [run] then leaves the table empty. *)
Theorem malformed_item_voids_poll settings env st data item :
  http_get env = HttpResponse 200 (Some data) →
  item ∈ items_of data →
  malformed item →
  outcome (get_active_streams settings env) st = Ok []
  ∧ recordings (exec (run_iteration settings env) st) = [].
Proof.
  intros Hhttp Hin Hbad.
  destruct (malformed_raises data item Hin Hbad) as [e He].
  assert (poll_failure (http_get env)) as Hfail.
  { rewrite Hhttp. by apply shape_failure with e. }
  split.
  - destruct (get_active_streams_spec settings env st) as (names & tr & Hrun & _ & Hnil).
    unfold outcome. rewrite Hrun. simpl. by rewrite (Hnil Hfail).
  - destruct (run_iteration_failed_poll settings env st Hfail) as (q & tr & Hrun & _).
    unfold exec. by rewrite Hrun.
Qed.

Lemma malformed_item_voids_poll_witness :
  outcome (get_active_streams default_settings ExGarbled.env) ExTick.recording_cam1 = Ok []
  ∧ recordings (exec (run_iteration default_settings ExGarbled.env) ExTick.recording_cam1)
    = [].
Proof.
  apply (malformed_item_voids_poll default_settings ExGarbled.env ExTick.recording_cam1
           ExGarbled.body (Py.Int 5)).
  - reflexivity.
  - apply list_elem_of_further, list_elem_of_here.
  - left. intros fields. discriminate.
Defined.

(** ** When [start_stream_recording] registers a session *)

(** X6: for a stream that has no session, [start_stream_recording] registers one
    exactly when the table is below the cap, the output directory can be made, the
    capture child can be spawned and the child is still running at the probe two
    seconds later; in every case the sessions of the other streams and the upload
    queue are left as they were. *)
Theorem start_stream_recording_registers_iff settings env s st :
  Py.get s (recordings st) = None →
  let st' := exec (start_stream_recording settings env s) st in
  let dir := session_dir settings s (clock st) in
  (is_Some (Py.get s (recordings st'))
   ↔ Z.of_nat (length (recordings st)) < MAX_CONCURRENT_RECORDINGS settings
     ∧ mkdir env dir = true
     ∧ ∃ c, popen env dir = Some c ∧ child_poll env c = None)
  ∧ (∀ k, k ≠ s → Py.get k (recordings st') = Py.get k (recordings st))
  ∧ upload_queue st' = upload_queue st.
Proof.
  intros Habs. cbv zeta.
  set (room := Z.of_nat (length (recordings st)) < MAX_CONCURRENT_RECORDINGS settings
               ∧ mkdir env (session_dir settings s (clock st)) = true
               ∧ ∃ c, popen env (session_dir settings s (clock st)) = Some c
                      ∧ child_poll env c = None).
  assert (room
          ∨ (¬ room
             ∧ ∃ res st',
                 start_stream_recording settings env s st = (res, st')
                 ∧ recordings st' = recordings st
                 ∧ upload_queue st' = upload_queue st))
    as [Hyes|(Hno & res & st' & Hrun & Hrec & Hq)].
  { unfold room, start_stream_recording. unfold bind at 1, get_recordings.
    pose proof Habs as Hc. apply contains_false in Hc. rewrite Hc.
    destruct (Z.leb_spec (MAX_CONCURRENT_RECORDINGS settings)
                (Z.of_nat (length (recordings st)))) as [Hcap|Hcap].
    { right. split; [intros [? _]; lia|]. by eexists _, _. }
    unfold bind at 1, utcnow. unfold bind at 1. unfold start_recording.
    fold (session_dir settings s (clock st)). unfold bind at 1.
    destruct (mkdir env (session_dir settings s (clock st))) eqn:Hmk.
    2:{ right. split; [by intros (_ & [=] & _)|]. by eexists _, _. }
    unfold ret at 1. unfold bind at 1, log, emit.
    destruct (popen env (session_dir settings s (clock st))) as [c|] eqn:Hpo.
    2:{ right. split; [by intros (_ & _ & c & [=] & _)|]. by eexists _, _. }
    destruct (child_poll env c) as [code|] eqn:Hal.
    - right. split; [intros (_ & _ & c' & [= <-] & Hal'); congruence|].
      unfold_prog. simpl. unfold has_exited. simpl. rewrite Hal.
      rewrite bool_decide_eq_true_2 by done. by eexists _, _.
    - left. split; [done|]. split; [done|]. by exists c. }
  - destruct Hyes as (Hlen & Hmk & c & Hpo & Hal).
    unfold exec. rewrite (start_stream_recording_registers _ _ _ _ c Habs Hlen Hmk Hpo Hal).
    simpl. split; [|split; [|done]].
    + rewrite get_set_eq. split; [|done]. intros _. split; [done|]. split; [done|].
      by exists c.
    + intros k Hk. by apply get_set_ne.
  - unfold exec. rewrite Hrun. simpl. rewrite Hrec, Hq. split; [|done].
    rewrite Habs. split; [|done]. by intros [? ?].
Qed.

Lemma start_stream_recording_registers_iff_witness :
  let st' := exec (start_stream_recording default_settings ExTick.cam2_only "cam2")
               ExTick.recording_cam1 in
  let dir := session_dir default_settings "cam2" (clock ExTick.recording_cam1) in
  (is_Some (Py.get "cam2" (recordings st'))
   ↔ Z.of_nat (length (recordings ExTick.recording_cam1))
       < MAX_CONCURRENT_RECORDINGS default_settings
     ∧ mkdir ExTick.cam2_only dir = true
     ∧ ∃ c, popen ExTick.cam2_only dir = Some c ∧ child_poll ExTick.cam2_only c = None)
  ∧ (∀ k, k ≠ "cam2" →
          Py.get k (recordings st') = Py.get k (recordings ExTick.recording_cam1))
  ∧ upload_queue st' = upload_queue ExTick.recording_cam1.
Proof.
  apply (start_stream_recording_registers_iff default_settings ExTick.cam2_only "cam2"
           ExTick.recording_cam1).
  reflexivity.
Defined.

(** ** Stopping a session, and all of them *)






(** ** What the detector dispatches *)

Lemma check_segment_run s r dir e st :
  check_segment s r dir e st
  = if bool_decide (d_name e ∈ dispatched s st) then (Ok tt, st)
    else match d_stat e with
         | None => (Raise OSError, st)
         | Some stat =>
             if 10 <? clock st - st_mtime stat
             then (Ok tt, dispatch_segment s r dir e (st_size stat) st)
             else (Ok tt, st)
         end.
Proof.
  unfold check_segment. unfold bind at 1.
  destruct (bool_decide (d_name e ∈ dispatched s st)); [done|].
  destruct (d_stat e) as [stat|]; [|done].
  unfold bind at 1. unfold utcnow at 1.
  destruct (10 <? clock st - st_mtime stat); [|done].
  unfold dispatched_add, queue_upload, dispatch_segment, task_of. unfold_prog. simpl.
  rewrite path_name_join.
  destruct (Py.get s (recordings st)); simpl; by rewrite <- !app_assoc.
Qed.

Lemma dispatched_dispatch_segment s r dir e size st s' :
  dispatched s' (dispatch_segment s r dir e size st)
  = if decide (s = s' ∧ is_Some (Py.get s (recordings st)))
    then {[d_name e]} ∪ dispatched s' st
    else dispatched s' st.
Proof.
  unfold dispatched, dispatch_segment. simpl.
  destruct (Py.get s (recordings st)) as [rt|] eqn:Hg.
  - destruct (decide (s = s')) as [<-|Hne].
    + rewrite get_set_eq, Hg. simpl. by rewrite decide_True.
    + rewrite get_set_ne by done. rewrite decide_False; [done|]. by intros [? _].
  - rewrite decide_False; [done|]. intros [_ [? ?]]. done.
Qed.

Lemma dispatch_segment_present s r dir e size st k :
  is_Some (Py.get k (recordings st)) →
  is_Some (Py.get k (recordings (dispatch_segment s r dir e size st))).
Proof.
  unfold dispatch_segment. simpl. destruct (Py.get s (recordings st)) as [rt|] eqn:Hg; [|done].
  destruct (decide (s = k)) as [<-|Hne].
  - by rewrite get_set_eq.
  - by rewrite get_set_ne.
Qed.

(** The scan of the files [l] of a session: what it puts, and what it has dispatched
    when no [stat] raises. *)
Lemma check_segments_spec s r dir (l : list DirEntry) st :
  ∃ res st' tr,
    for_each l (check_segment s r dir) st = (res, st')
    ∧ trace st' = trace st ++ tr
    ∧ clock st' = clock st
    ∧ (∀ k, is_Some (Py.get k (recordings st)) → is_Some (Py.get k (recordings st')))
    ∧ (∀ s' n, n ∈ dispatched s' st → n ∈ dispatched s' st')
    ∧ (∀ s', s' ≠ s → dispatched s' st' = dispatched s' st)
    ∧ (∀ t, EvPut t ∈ tr →
         ∃ e stat, e ∈ l ∧ t = task_of dir s (session_id r) (clock st) e
                   ∧ (d_name e ∉ dispatched s st)
                   ∧ d_stat e = Some stat ∧ 10 < clock st - st_mtime stat)
    ∧ ((∀ e, e ∈ l → is_Some (d_stat e)) →
       res = Ok tt
       ∧ ∀ e stat, e ∈ l → d_stat e = Some stat → 10 < clock st - st_mtime stat →
           (is_Some (Py.get s (recordings st)) → d_name e ∈ dispatched s st')
           ∧ (d_name e ∉ dispatched s st →
              EvPut (task_of dir s (session_id r) (clock st) e) ∈ tr)).
Proof.
  revert st. induction l as [|x l IH]; intros st.
  { exists (Ok tt), st, []. rewrite app_nil_r.
    do 6 (split; [done|]). split; [by intros t Ht%elem_of_nil|].
    intros _. split; [done|]. by intros e stat He%elem_of_nil. }
  cbn [for_each]. unfold bind at 1. rewrite check_segment_run.
  destruct (bool_decide (d_name x ∈ dispatched s st)) eqn:Hseen.
  - (* already dispatched *)
    apply bool_decide_eq_true in Hseen.
    destruct (IH st)
      as (res & st' & tr & Hrun & Htr & Hclock & Hpres & Hsub & Hoth & Hput & Hall).
    exists res, st', tr. do 6 (split; [done|]). split.
    + intros t Ht. destruct (Hput t Ht) as (e & stat & He & Hrest).
      exists e, stat. split; [by apply list_elem_of_further|done].
    + intros Hstat. destruct Hall as [-> Hall].
      { intros e He. apply Hstat. by apply list_elem_of_further. }
      split; [done|]. intros e stat [->|He]%elem_of_cons Hs Hage.
      * split; [by intros _; apply Hsub|done].
      * by apply (Hall e stat).
  - apply bool_decide_eq_false in Hseen.
    destruct (d_stat x) as [stat|] eqn:Hstatx.
    2:{ (* [stat] raises *)
        exists (Raise OSError), st, []. rewrite app_nil_r.
        do 6 (split; [done|]). split; [by intros t Ht%elem_of_nil|].
        intros Hstat. destruct (Hstat x (list_elem_of_here _ _)) as [? Hx]. congruence. }
    destruct (10 <? clock st - st_mtime stat) eqn:Hage.
    2:{ (* modified too recently *)
        apply Z.ltb_ge in Hage.
        destruct (IH st)
          as (res & st' & tr & Hrun & Htr & Hclock & Hpres & Hsub & Hoth & Hput & Hall).
        exists res, st', tr. do 6 (split; [done|]). split.
        + intros t Ht. destruct (Hput t Ht) as (e & stat' & He & Hrest).
          exists e, stat'. split; [by apply list_elem_of_further|done].
        + intros Hstat. destruct Hall as [-> Hall].
          { intros e He. apply Hstat. by apply list_elem_of_further. }
          split; [done|]. intros e stat' [->|He]%elem_of_cons Hs Hage'.
          * rewrite Hstatx in Hs. injection Hs as <-. lia.
          * by apply (Hall e stat'). }
    (* dispatched now *)
    apply Z.ltb_lt in Hage.
    set (st1 := dispatch_segment s r dir x (st_size stat) st).
    destruct (IH st1)
      as (res & st' & tr & Hrun & Htr & Hclock & Hpres & Hsub & Hoth & Hput & Hall).
    set (tx := task_of dir s (session_id r) (clock st) x).
    exists res, st', ([EvLog INFO (FoundSegment (d_name x) (st_size stat));
                       EvDispatch s (d_name x); EvPut tx;
                       EvLog INFO (QueuedForUpload (d_name x))] ++ tr).
    assert (∀ s' n, n ∈ dispatched s' st → n ∈ dispatched s' st1) as Hsub1.
    { intros s' n Hn. unfold st1. rewrite dispatched_dispatch_segment.
      case_decide; [|done]. apply elem_of_union. by right. }
    assert (∀ n, n ∈ dispatched s st1 → n ∈ dispatched s st ∨ n = d_name x) as Hsub2.
    { intros n. unfold st1. rewrite dispatched_dispatch_segment.
      case_decide; [|by left].
      intros [Hn%elem_of_singleton|Hn]%elem_of_union; [by right|by left]. }
    split; [done|]. split; [by rewrite Htr, app_assoc|]. split; [done|].
    split; [by intros k Hp; apply Hpres, dispatch_segment_present|].
    split; [by auto|]. split.
    { intros s' Hne. rewrite Hoth by done. unfold st1.
      rewrite dispatched_dispatch_segment, decide_False; [done|]. by intros [-> _]. }
    split.
    + intros t [Ht|Ht]%elem_of_app.
      * assert (t = tx) as ->.
        { repeat (apply elem_of_cons in Ht as [Ht|Ht]; [by simplify_eq|]).
          by apply elem_of_nil in Ht. }
        exists x, stat. split; [apply list_elem_of_here|done].
      * destruct (Hput t Ht) as (e & stat' & He & -> & Hnew & Hrest).
        exists e, stat'. split; [by apply list_elem_of_further|].
        split; [done|]. split; [by intros Hn; apply Hnew, Hsub1|done].
    + intros Hstat. destruct Hall as [-> Hall].
      { intros e He. apply Hstat. by apply list_elem_of_further. }
      split; [done|].
      assert (EvPut tx ∈ [EvLog INFO (FoundSegment (d_name x) (st_size stat));
                          EvDispatch s (d_name x); EvPut tx;
                          EvLog INFO (QueuedForUpload (d_name x))] ++ tr) as Hputx.
      { apply elem_of_app. left. do 2 apply list_elem_of_further. apply list_elem_of_here. }
      intros e stat' [->|He]%elem_of_cons Hs Hage'.
      * split; [|done]. intros Hp. apply Hsub. unfold st1.
        rewrite dispatched_dispatch_segment, decide_True by done.
        apply elem_of_union. left. by apply elem_of_singleton.
      * destruct (Hall e stat' He Hs Hage') as [Hin Hnew].
        split; [by intros Hp; apply Hin, dispatch_segment_present|].
        intros Hn. destruct (decide (d_name e ∈ dispatched s st1)) as [Hd|Hd].
        -- destruct (Hsub2 _ Hd) as [?|Heq]; [done|].
           replace (task_of dir s (session_id r) (clock st) e) with tx; [done|].
           unfold tx, task_of. by rewrite Heq.
        -- apply elem_of_app. right. by apply Hnew.
Qed.

Lemma elem_of_take_l {A} (x : A) (n : nat) (l : list A) : x ∈ take n l → x ∈ l.
Proof. intros H. rewrite <- (take_drop n l). apply elem_of_app. by left. Qed.

Lemma entry_le_trans : Transitive entry_le.
Proof. intros a b c. unfold entry_le. apply transitivity. Qed.

Lemma entry_le_total : Total entry_le.
Proof. intros a b. unfold entry_le. apply String.le_total. Qed.

Lemma sorted_segments_elem settings entries e :
  e ∈ sorted_segments settings entries
  ↔ e ∈ entries ∧ segment_match (OUTPUT_FORMAT settings) (d_name e) = true.
Proof.
  unfold sorted_segments. rewrite merge_sort_Permutation. unfold glob_segments.
  rewrite list_elem_of_filter. tauto.
Qed.

(** The sorted list of segments as the files the detector goes through, followed by
    the one it holds back. *)
Lemma sorted_segments_split settings entries :
  (1 < length (sorted_segments settings entries))%nat →
  ∃ lst,
    sorted_segments settings entries
    = take (length (sorted_segments settings entries) - 1) (sorted_segments settings entries)
      ++ [lst].
Proof.
  intros Hlen. set (l := sorted_segments settings entries) in *.
  destruct (last l) as [lst|] eqn:Hlast.
  - exists lst. apply last_Some in Hlast as [l' Hl']. rewrite Hl' at 2 3.
    rewrite length_app. simpl.
    replace (length l' + 1 - 1)%nat with (length l') by lia.
    by rewrite take_app_length.
  - apply last_None in Hlast. rewrite Hlast in Hlen. simpl in Hlen. lia.
Qed.

(** A file the detector goes through comes before the file it holds back. *)
Lemma scanned_precedes settings entries e :
  NoDup (d_name <$> entries) →
  e ∈ take (length (sorted_segments settings entries) - 1) (sorted_segments settings entries) →
  precedes_a_segment settings entries e.
Proof.
  intros Hnd He.
  destruct (decide (1 < length (sorted_segments settings entries))%nat) as [Hlen|Hlen].
  2:{ replace (length (sorted_segments settings entries) - 1)%nat with 0%nat in He by lia.
      by apply elem_of_nil in He. }
  destruct (sorted_segments_split settings entries Hlen) as [lst Hsplit].
  set (pre := take _ _) in *.
  assert (StronglySorted entry_le (pre ++ [lst])) as Hsorted.
  { rewrite <- Hsplit. apply StronglySorted_merge_sort.
    - apply entry_le_trans.
    - apply entry_le_total. }
  assert (lst ∈ sorted_segments settings entries) as Hlst.
  { rewrite Hsplit. apply elem_of_app. right. apply list_elem_of_here. }
  apply sorted_segments_elem in Hlst as [Hin Hm].
  exists lst. split; [done|]. split; [done|]. split.
  - assert (NoDup (d_name <$> (pre ++ [lst]))) as Hnd'.
    { rewrite <- Hsplit. unfold sorted_segments. rewrite merge_sort_Permutation.
      unfold glob_segments. eapply sublist_NoDup; [exact Hnd|].
      apply fmap_sublist, sublist_filter. }
    rewrite fmap_app in Hnd'. apply NoDup_app in Hnd' as (_ & Hdis & _).
    intros Heq. apply (Hdis (d_name e)).
    + by apply list_elem_of_fmap_2.
    + rewrite Heq. apply list_elem_of_here.
  - apply (StronglySorted_app_1_elem_of entry_le pre [lst]); [done..|].
    apply list_elem_of_here.
Qed.

(** A matching file that comes before another one is among those the detector goes
    through. *)
Lemma precedes_scanned settings entries e :
  e ∈ entries →
  segment_match (OUTPUT_FORMAT settings) (d_name e) = true →
  precedes_a_segment settings entries e →
  (1 < length (sorted_segments settings entries))%nat
  ∧ e ∈ take (length (sorted_segments settings entries) - 1)
          (sorted_segments settings entries).
Proof.
  intros He Hm (e' & He' & Hm' & Hne & Hle).
  assert (e ∈ sorted_segments settings entries) as Hs by by apply sorted_segments_elem.
  assert (e' ∈ sorted_segments settings entries) as Hs' by by apply sorted_segments_elem.
  assert (1 < length (sorted_segments settings entries))%nat as Hlen.
  { destruct (sorted_segments settings entries) as [|a [|b l]]; simpl; [| |lia].
    - by apply elem_of_nil in Hs.
    - apply list_elem_of_singleton in Hs, Hs'. congruence. }
  split; [done|].
  destruct (sorted_segments_split settings entries Hlen) as [lst Hsplit].
  set (pre := take _ _) in *.
  assert (StronglySorted entry_le (pre ++ [lst])) as Hsorted.
  { rewrite <- Hsplit. apply StronglySorted_merge_sort.
    - apply entry_le_trans.
    - apply entry_le_total. }
  rewrite Hsplit in Hs, Hs'.
  apply elem_of_app in Hs as [Hs|Hs]; [done|].
  apply list_elem_of_singleton in Hs. subst lst. exfalso.
  apply elem_of_app in Hs' as [Hs'|Hs'].
  - pose proof (StronglySorted_app_1_elem_of entry_le pre [e] e' e Hsorted Hs'
                  (list_elem_of_here _ _)) as Hle'.
    unfold entry_le in Hle'. apply Hne. by apply (anti_symm String.le).
  - apply list_elem_of_singleton in Hs'. congruence.
Qed.

(** The scan of one session. *)
Lemma check_recording_spec settings env s r st :
  ∃ res st' tr,
    check_recording settings env (s, r) st = (res, st')
    ∧ trace st' = trace st ++ tr
    ∧ clock st' = clock st
    ∧ (∀ k, is_Some (Py.get k (recordings st)) → is_Some (Py.get k (recordings st')))
    ∧ (∀ s' n, n ∈ dispatched s' st → n ∈ dispatched s' st')
    ∧ (∀ s', s' ≠ s → dispatched s' st' = dispatched s' st)
    ∧ (∀ t, EvPut t ∈ tr →
         ∃ dir entries e,
           output_dir r = Some dir ∧ listdir env dir = Some entries ∧ e ∈ entries
           ∧ completed settings (clock st) e
           ∧ (d_name e ∉ dispatched s st)
           ∧ t = task_of dir s (session_id r) (clock st) e
           ∧ (NoDup (d_name <$> entries) → precedes_a_segment settings entries e))
    ∧ (stat_succeeds settings env [(s, r)] →
       res = Ok tt
       ∧ ∀ dir entries e,
           output_dir r = Some dir → listdir env dir = Some entries → e ∈ entries →
           completed settings (clock st) e →
           precedes_a_segment settings entries e →
           (is_Some (Py.get s (recordings st)) → d_name e ∈ dispatched s st')
           ∧ (d_name e ∉ dispatched s st →
              EvPut (task_of dir s (session_id r) (clock st) e) ∈ tr)).
Proof.
  unfold check_recording.
  destruct (output_dir r) as [dir|] eqn:Hdir.
  2:{ exists (Ok tt), st, []. rewrite app_nil_r. do 6 (split; [done|]).
      split; [by intros t Ht%elem_of_nil|]. intros _. split; [done|]. by intros. }
  destruct (listdir env dir) as [entries|] eqn:Hls.
  2:{ exists (Ok tt), st, []. rewrite app_nil_r. do 6 (split; [done|]).
      split; [by intros t Ht%elem_of_nil|]. intros _. split; [done|].
      intros dir' entries' e [= <-]. congruence. }
  destruct (Nat.leb_spec (length (sorted_segments settings entries)) 1) as [Hlen|Hlen].
  { exists (Ok tt), st, []. rewrite app_nil_r. do 6 (split; [done|]).
    split; [by intros t Ht%elem_of_nil|]. intros _. split; [done|].
    intros dir' entries' e [= <-] Hls' He [Hm _] Hprec.
    assert (entries' = entries) as -> by congruence.
    destruct (precedes_scanned settings entries e He Hm Hprec) as [? _]. lia. }
  destruct (check_segments_spec s r dir
              (take (length (sorted_segments settings entries) - 1)
                 (sorted_segments settings entries)) st)
    as (res & st' & tr & Hrun & Htr & Hclock & Hpres & Hsub & Hoth & Hput & Hall).
  exists res, st', tr. do 6 (split; [done|]). split.
  - intros t Ht. destruct (Hput t Ht) as (e & stat & He & -> & Hnew & Hstat & Hage).
    assert (e ∈ sorted_segments settings entries) as [Hin Hm]%sorted_segments_elem.
    { eapply elem_of_take_l; exact He. }
    exists dir, entries, e. do 3 (split; [done|]).
    split; [by split; [|exists stat]|]. split; [done|]. split; [done|].
    intros Hnd. by apply scanned_precedes.
  - intros Hstat. destruct Hall as [-> Hall].
    { intros x [Hx Hm]%elem_of_take_l%sorted_segments_elem.
      apply (Hstat s r dir entries x); [apply list_elem_of_here|done..]. }
    split; [done|].
    intros dir' entries' e [= <-] Hls' He [Hm (stat & Hs & Hage)] Hprec.
    assert (entries' = entries) as -> by congruence.
    destruct (precedes_scanned settings entries e He Hm Hprec) as [_ Hscan].
    by apply (Hall e stat).
Qed.

(** The scan of the sessions [l]. *)
Lemma check_recordings_spec settings env (l : Py.dict RecordingProcess) st :
  ∃ res st' tr,
    for_each l (check_recording settings env) st = (res, st')
    ∧ trace st' = trace st ++ tr
    ∧ clock st' = clock st
    ∧ (∀ k, is_Some (Py.get k (recordings st)) → is_Some (Py.get k (recordings st')))
    ∧ (∀ s' n, n ∈ dispatched s' st → n ∈ dispatched s' st')
    ∧ (∀ s', s' ∉ Py.keys l → dispatched s' st' = dispatched s' st)
    ∧ (∀ t, EvPut t ∈ tr →
         ∃ s r dir entries e,
           (s, r) ∈ l
           ∧ output_dir r = Some dir ∧ listdir env dir = Some entries ∧ e ∈ entries
           ∧ completed settings (clock st) e
           ∧ (d_name e ∉ dispatched s st)
           ∧ t = task_of dir s (session_id r) (clock st) e
           ∧ (NoDup (d_name <$> entries) → precedes_a_segment settings entries e))
    ∧ (stat_succeeds settings env l →
       res = Ok tt
       ∧ (NoDup (Py.keys l) →
          ∀ s r dir entries e,
            (s, r) ∈ l →
            output_dir r = Some dir → listdir env dir = Some entries → e ∈ entries →
            completed settings (clock st) e →
            precedes_a_segment settings entries e →
            (is_Some (Py.get s (recordings st)) → d_name e ∈ dispatched s st')
            ∧ (d_name e ∉ dispatched s st →
               EvPut (task_of dir s (session_id r) (clock st) e) ∈ tr))).
Proof.
  revert st. induction l as [|[s0 r0] l IH]; intros st.
  { exists (Ok tt), st, []. rewrite app_nil_r. do 6 (split; [done|]).
    split; [by intros t Ht%elem_of_nil|]. intros _. split; [done|].
    by intros _ s r dir entries e Hin%elem_of_nil. }
  cbn [for_each]. unfold bind at 1.
  destruct (check_recording_spec settings env s0 r0 st)
    as (res0 & st1 & tr0 & -> & Htr0 & Hc0 & Hp0 & Hs0 & Ho0 & Hput0 & Hall0).
  destruct res0 as [[]|e0].
  2:{ (* the scan of this session raises *)
      exists (Raise e0), st1, tr0. do 4 (split; [done|]). split; [done|]. split.
      { intros s' Hs'. apply Ho0. intros ->. apply Hs'. apply list_elem_of_here. }
      split.
      - intros t Ht. destruct (Hput0 t Ht) as (dir & entries & e & Hrest).
        exists s0, r0, dir, entries, e. split; [apply list_elem_of_here|done].
      - intros Hstat. destruct Hall0 as [[=] _].
        intros s r dir entries x [= -> ->]%list_elem_of_singleton.
      apply (Hstat s0 r0 dir entries x), list_elem_of_here. }
  destruct (IH st1)
    as (res & st' & tr & Hrun & Htr & Hc & Hp & Hs & Ho & Hput & Hall).
  exists res, st', (tr0 ++ tr).
  split; [done|]. split; [by rewrite Htr, Htr0, app_assoc|]. split; [congruence|].
  split; [by auto|]. split; [by auto|]. split.
  { intros s' Hs'. rewrite Ho, Ho0; [done| |].
    - intros ->. apply Hs'. apply list_elem_of_here.
    - intros Hin. apply Hs'. by apply list_elem_of_further. }
  split.
  - intros t [Ht|Ht]%elem_of_app.
    + destruct (Hput0 t Ht) as (dir & entries & e & Hrest).
      exists s0, r0, dir, entries, e. split; [apply list_elem_of_here|done].
    + destruct (Hput t Ht)
        as (s & r & dir & entries & e & Hin & Hdir & Hls & He & Hcomp & Hnew & -> & Hprec).
      exists s, r, dir, entries, e. split; [by apply list_elem_of_further|].
      do 3 (split; [done|]). rewrite Hc0 in Hcomp. split; [done|].
      split; [by intros Hn; apply Hnew, Hs0|]. by rewrite Hc0.
  - intros Hstat.
    destruct Hall0 as [_ Hall0].
    { intros s r dir entries x [= -> ->]%list_elem_of_singleton.
      apply (Hstat s0 r0 dir entries x), list_elem_of_here. }
    destruct Hall as [-> Hall].
    { intros s r dir entries x Hin. apply (Hstat s r dir entries x).
      by apply list_elem_of_further. }
    split; [done|]. intros Hnd. cbn in Hnd. apply NoDup_cons in Hnd as [Hs0l Hnd].
    intros s r dir entries e [[= -> ->]|Hin]%elem_of_cons Hdir Hls He Hcomp Hprec.
    + destruct (Hall0 dir entries e Hdir Hls He Hcomp Hprec) as [Hin0 Hput0'].
      split; [by intros Hpres; apply Hs, Hin0|].
      intros Hn. apply elem_of_app. left. by apply Hput0'.
    + assert (s ≠ s0) as Hne.
      { intros ->. apply Hs0l. unfold Py.keys. apply list_elem_of_fmap. by exists (s0, r). }
      rewrite <- Hc0 in Hcomp.
      destruct (Hall Hnd s r dir entries e Hin Hdir Hls He Hcomp Hprec) as [Hin1 Hput1].
      split; [by intros Hpres; apply Hin1, Hp0|].
      intros Hn. apply elem_of_app. right. rewrite <- Hc0. apply Hput1.
      by rewrite Ho0.
Qed.

(** X9: every task a scan of [check_completed_segments] puts on the queue is for a file
    of the output directory of a session of the table that matches the segment
    pattern, was last modified more than 10 seconds ago and was not in the
    dispatched set of its stream; when the names of the directory are distinct it
    comes before another matching file in the order of the names, so the last
    segment is never put. The task carries the session's id and the clock of the
    scan. *)
Theorem scan_puts_completed_only settings env st t :
  EvPut t ∈ events (check_completed_segments settings env) st →
  ∃ s r dir entries e,
    (s, r) ∈ recordings st
    ∧ output_dir r = Some dir
    ∧ listdir env dir = Some entries
    ∧ e ∈ entries
    ∧ completed settings (clock st) e
    ∧ (d_name e ∉ dispatched s st)
    ∧ t = task_of dir s (session_id r) (clock st) e
    ∧ (NoDup (d_name <$> entries) → precedes_a_segment settings entries e).
Proof.
  unfold events, exec, check_completed_segments. unfold bind, get_recordings.
  destruct (check_recordings_spec settings env (recordings st) st)
    as (res & st' & tr & Hrun & Htr & _ & _ & _ & _ & Hput & _).
  rewrite Hrun. simpl. rewrite Htr, drop_app_length. apply Hput.
Qed.

Lemma scan_puts_completed_only_witness :
  ∃ s r dir entries e,
    (s, r) ∈ [("cam1", Ex.cam1)]
    ∧ output_dir r = Some dir
    ∧ listdir ExScan.two_files dir = Some entries
    ∧ e ∈ entries
    ∧ completed default_settings (Ex.t0 + 100) e
    ∧ (d_name e ∉ dispatched s (Ex.state [("cam1", Ex.cam1)] (Ex.t0 + 100)))
    ∧ ExScan.task0 (Ex.t0 + 100) = task_of dir s (session_id r) (Ex.t0 + 100) e
    ∧ (NoDup (d_name <$> entries) → precedes_a_segment default_settings entries e).
Proof.
  apply (scan_puts_completed_only default_settings ExScan.two_files
           (Ex.state [("cam1", Ex.cam1)] (Ex.t0 + 100)) (ExScan.task0 (Ex.t0 + 100))).
  vm_compute. do 2 apply list_elem_of_further. apply list_elem_of_here.
Defined.

(** X10: when no [stat] raises, a scan of [check_completed_segments] returns, and
    every matching file of a session's directory that was last modified more than
    10 seconds ago and comes before another matching file is in the dispatched set
    of its stream afterwards; if it was not there before, its task has been put on
    the queue by this scan. *)
Theorem scan_dispatches_completed settings env st s r dir entries e :
  NoDup (Py.keys (recordings st)) →
  stat_succeeds settings env (recordings st) →
  (s, r) ∈ recordings st →
  output_dir r = Some dir →
  listdir env dir = Some entries →
  e ∈ entries →
  completed settings (clock st) e →
  precedes_a_segment settings entries e →
  outcome (check_completed_segments settings env) st = Ok tt
  ∧ d_name e ∈ dispatched s (exec (check_completed_segments settings env) st)
  ∧ (d_name e ∉ dispatched s st →
     EvPut (task_of dir s (session_id r) (clock st) e)
     ∈ events (check_completed_segments settings env) st).
Proof.
  intros Hnd Hstat Hin Hdir Hls He Hcomp Hprec.
  unfold events, exec, outcome, check_completed_segments. unfold bind, get_recordings.
  destruct (check_recordings_spec settings env (recordings st) st)
    as (res & st' & tr & Hrun & Htr & _ & _ & _ & _ & _ & Hall).
  rewrite Hrun. simpl. rewrite Htr, drop_app_length.
  destruct (Hall Hstat) as [-> Hall'].
  destruct (Hall' Hnd s r dir entries e Hin Hdir Hls He Hcomp Hprec) as [Hd Hput].
  split; [done|]. split; [|done]. apply Hd, get_Some_keys.
  unfold Py.keys. apply list_elem_of_fmap. by exists (s, r).
Qed.

Lemma scan_dispatches_completed_witness :
  let scan := check_completed_segments default_settings ExScan.two_files in
  let st := Ex.state [("cam1", Ex.cam1)] (Ex.t0 + 100) in
  outcome scan st = Ok tt
  ∧ "segment_000.mp4" ∈ dispatched "cam1" (exec scan st)
  ∧ ("segment_000.mp4" ∉ dispatched "cam1" st →
     EvPut (task_of Ex.cam1_dir "cam1" (session_id Ex.cam1) (Ex.t0 + 100)
              (Ex.file "segment_000.mp4" Ex.t0))
     ∈ events scan st).
Proof.
  apply (scan_dispatches_completed default_settings ExScan.two_files
           (Ex.state [("cam1", Ex.cam1)] (Ex.t0 + 100)) "cam1" Ex.cam1 Ex.cam1_dir
           [Ex.file "segment_001.mp4" (Ex.t0 + 60); Ex.file "segment_000.mp4" Ex.t0]
           (Ex.file "segment_000.mp4" Ex.t0)).
  - apply NoDup_singleton.
  - intros s r dir entries x [= -> ->]%list_elem_of_singleton [= <-] [= <-] Hx _.
    repeat (apply elem_of_cons in Hx as [->|Hx]; [by eexists|]).
    by apply elem_of_nil in Hx.
  - apply list_elem_of_here.
  - reflexivity.
  - reflexivity.
  - apply list_elem_of_further, list_elem_of_here.
  - split; [reflexivity|]. eexists. split; [reflexivity|]. simpl. lia.
  - exists (Ex.file "segment_001.mp4" (Ex.t0 + 60)).
    split; [apply list_elem_of_here|]. split; [reflexivity|]. split; [done|].
    by apply (bool_decide_unpack _).
Defined.

(** ** The detector's rounds and the clock *)

Lemma check_completed_segments_clock settings env st :
  ∃ res st' tr,
    check_completed_segments settings env st = (res, st')
    ∧ trace st' = trace st ++ tr
    ∧ clock st' = clock st.
Proof.
  unfold check_completed_segments. unfold bind at 1, get_recordings.
  generalize (recordings st) at 1. intros l. revert st.
  induction l as [|[s r] l IH]; intros st.
  { exists (Ok tt), st, []. by rewrite app_nil_r. }
  cbn [for_each]. unfold bind at 1.
  assert (∃ res st1 tr, check_recording settings env (s, r) st = (res, st1)
                        ∧ trace st1 = trace st ++ tr ∧ clock st1 = clock st)
    as (res1 & st1 & tr1 & -> & Htr1 & Hc1).
  { unfold check_recording.
    destruct (output_dir r) as [dir|]; [|by exists (Ok tt), st, []; rewrite app_nil_r].
    destruct (listdir env dir) as [entries|];
      [|by exists (Ok tt), st, []; rewrite app_nil_r].
    destruct (length (sorted_segments settings entries) <=? 1)%nat;
      [by exists (Ok tt), st, []; rewrite app_nil_r|].
    destruct (check_segments_spec s r dir
                (take (length (sorted_segments settings entries) - 1)
                   (sorted_segments settings entries)) st)
      as (res & st' & tr & Hrun & Htr & Hclock & _).
    by exists res, st', tr. }
  destruct res1 as [[]|e].
  - destruct (IH st1) as (res & st' & tr & Hrun & Htr & Hclock).
    exists res, st', (tr1 ++ tr). split; [done|].
    split; [by rewrite Htr, Htr1, app_assoc|congruence].
  - by exists (Raise e), st1, tr1.
Qed.

(** X11: a round of [check_segments_loop] never raises; it sleeps 30 seconds when the
    scan has returned, and when the scan has raised it logs the error and ends
    without sleeping, so that the next scan follows at once. *)
Theorem failed_scan_is_not_followed_by_sleep settings env st :
  let round := check_segments_round settings env in
  outcome round st = Ok tt
  ∧ (outcome (check_completed_segments settings env) st = Ok tt →
     clock (exec round st) = clock st + 30
     ∧ last (events round st) = Some (EvSleep 30))
  ∧ (∀ e, outcome (check_completed_segments settings env) st = Raise e →
          clock (exec round st) = clock st
          ∧ last (events round st) = Some (EvLog ERROR CheckSegmentsFailed)).
Proof.
  destruct (check_completed_segments_clock settings env st)
    as (res & st' & tr & Hrun & Htr & Hclock).
  unfold events, exec, outcome, check_segments_round, try_except.
  unfold bind at 1 2 3 4 5. rewrite Hrun. simpl.
  destruct res as [[]|e]; unfold_prog; simpl; rewrite Htr, <- app_assoc, drop_app_length.
  - split; [done|]. split; [|by intros e [=]].
    intros _. split; [by rewrite Hclock|by rewrite last_snoc].
  - split; [done|]. split; [by intros [=]|].
    intros e' _. split; [done|by rewrite last_snoc].
Qed.

(** ** What [upload_file] does with the file and with the task *)

Lemma upload_file_missing settings env task st :
  path_exists env (file_path task) = false →
  upload_file settings env task st
  = (Ok tt,
     {| recordings := recordings st; upload_queue := upload_queue st;
        clock := clock st + 2;
        trace := trace st ++ [EvSleep 2; EvLog WARNING (FileNotFound (file_path task))] |}).
Proof.
  intros Hex. unfold upload_file. unfold_prog. simpl. rewrite Hex. simpl.
  by rewrite <- app_assoc.
Qed.

Lemma upload_file_stored settings env task st :
  path_exists env (file_path task) = true →
  s3_upload_file env (file_path task) (S3_BUCKET_NAME settings) (key_of task st) = true →
  upload_file settings env task st
  = (Ok tt,
     {| recordings := recordings st; upload_queue := upload_queue st;
        clock := clock st + 2;
        trace := trace st
                 ++ put_events task st
                 ++ [EvLog INFO (Uploaded (path_name (file_path task)));
                     EvUnlink (file_path task);
                     if unlink env (file_path task)
                     then EvLog DEBUG (DeletedLocal (file_path task))
                     else EvLog ERROR (DeleteFailed (file_path task))] |}).
Proof.
  intros Hex Hput. unfold upload_file, key_of in *. unfold_prog. simpl.
  rewrite Hex. simpl. rewrite Hput. simpl.
  destruct (unlink env (file_path task)); simpl; by rewrite <- !app_assoc.
Qed.

(** X12: [upload_file] unlinks a local file only if it is the file of the task and the
    put to the store has succeeded, and then does not re-enqueue; it puts a task
    back on the queue only after a failed put with a retry count below 3, and then
    the task with the count incremented; when the file is missing it only sleeps
    and logs a warning: no put, no unlink, no re-enqueue. *)
Theorem upload_file_deletes_only_stored settings env task st :
  let tr := events (upload_file settings env task) st in
  let stored :=
    path_exists env (file_path task) = true
    ∧ s3_upload_file env (file_path task) (S3_BUCKET_NAME settings) (key_of task st) = true in
  (∀ p, EvUnlink p ∈ tr → p = file_path task ∧ stored)
  ∧ (stored → EvUnlink (file_path task) ∈ tr
              ∧ upload_queue (exec (upload_file settings env task) st) = upload_queue st)
  ∧ (∀ t, EvPut t ∈ tr →
          put_fails settings env task st
          ∧ default 0 (retry_count task) < 3
          ∧ t = with_retry_count (default 0 (retry_count task) + 1) task)
  ∧ (path_exists env (file_path task) = false →
     tr = [EvSleep 2; EvLog WARNING (FileNotFound (file_path task))]
     ∧ upload_queue (exec (upload_file settings env task) st) = upload_queue st).
Proof.
  cbv zeta. unfold events, exec.
  destruct (path_exists env (file_path task)) eqn:Hex.
  2:{ rewrite (upload_file_missing _ _ _ _ Hex). simpl. rewrite drop_app_length.
      split; [|split; [|split]].
      - intros p Hp. repeat (apply elem_of_cons in Hp as [Hp|Hp]; [done|]).
        by apply elem_of_nil in Hp.
      - by intros [[=] _].
      - intros t Ht. repeat (apply elem_of_cons in Ht as [Ht|Ht]; [done|]).
        by apply elem_of_nil in Ht.
      - done. }
  destruct (s3_upload_file env (file_path task) (S3_BUCKET_NAME settings) (key_of task st))
    eqn:Hput.
  - rewrite (upload_file_stored _ _ _ _ Hex Hput). simpl. rewrite drop_app_length.
    split; [|split; [|split]].
    + intros p Hp. split; [|done].
      repeat (apply elem_of_cons in Hp as [Hp|Hp];
              [first [by injection Hp|by destruct (unlink env (file_path task))]|]).
      by apply elem_of_nil in Hp.
    + intros _. split; [|done]. do 4 apply list_elem_of_further. apply list_elem_of_here.
    + intros t Ht.
      repeat (apply elem_of_cons in Ht as [Ht|Ht];
              [first [done|by destruct (unlink env (file_path task))]|]).
      by apply elem_of_nil in Ht.
    + by intros [=].
  - assert (put_fails settings env task st) as Hfail by done.
    destruct (Z.ltb_spec (default 0 (retry_count task)) 3) as [Hlt|Hge].
    + pose proof (upload_file_requeues settings env task st Hfail Hlt) as Hrun.
      cbv zeta in Hrun. unfold exec in Hrun. rewrite Hrun. simpl. rewrite drop_app_length.
      split; [|split; [|split]].
      * intros p Hp. repeat (apply elem_of_cons in Hp as [Hp|Hp]; [done|]).
        by apply elem_of_nil in Hp.
      * by intros [_ [=]].
      * intros t Ht. repeat (apply elem_of_cons in Ht as [Ht|Ht]; [by simplify_eq|]).
        by apply elem_of_nil in Ht.
      * by intros [=].
    + pose proof (upload_file_drops settings env task st Hfail Hge) as Hrun.
      unfold exec in Hrun. rewrite Hrun. simpl. rewrite drop_app_length.
      split; [|split; [|split]].
      * intros p Hp. repeat (apply elem_of_cons in Hp as [Hp|Hp]; [done|]).
        by apply elem_of_nil in Hp.
      * by intros [_ [=]].
      * intros t Ht. repeat (apply elem_of_cons in Ht as [Ht|Ht]; [done|]).
        by apply elem_of_nil in Ht.
      * by intros [=].
Qed.

(** ** The upload queue drains *)

Lemma upload_file_queue settings env task st :
  upload_queue (exec (upload_file settings env task) st) = upload_queue st
  ∨ (default 0 (retry_count task) < 3
     ∧ upload_queue (exec (upload_file settings env task) st)
       = upload_queue st ++ [with_retry_count (default 0 (retry_count task) + 1) task]).
Proof.
  unfold exec.
  destruct (path_exists env (file_path task)) eqn:Hex.
  2:{ rewrite (upload_file_missing _ _ _ _ Hex). by left. }
  destruct (s3_upload_file env (file_path task) (S3_BUCKET_NAME settings) (key_of task st))
    eqn:Hput.
  { rewrite (upload_file_stored _ _ _ _ Hex Hput). by left. }
  assert (put_fails settings env task st) as Hfail by done.
  destruct (Z.ltb_spec (default 0 (retry_count task)) 3) as [Hlt|Hge].
  - pose proof (upload_file_requeues settings env task st Hfail Hlt) as Hrun.
    cbv zeta in Hrun. unfold exec in Hrun. rewrite Hrun. by right.
  - pose proof (upload_file_drops settings env task st Hfail Hge) as Hrun.
    unfold exec in Hrun. rewrite Hrun. by left.
Qed.

Lemma attempts_left_app q1 q2 :
  attempts_left (q1 ++ q2) = (attempts_left q1 + attempts_left q2)%nat.
Proof. unfold attempts_left. rewrite length_app, retries_left_sum_app. lia. Qed.

Lemma attempts_left_0 q : attempts_left q = 0%nat → q = [].
Proof. unfold attempts_left. destruct q; [done|]. simpl. lia. Qed.

(** A round of the workers on a queue that is not empty uses up one attempt. *)
Lemma process_queue_step_attempts settings env st :
  ∃ st',
    process_queue_step settings env st = (Ok tt, st')
    ∧ (attempts_left (upload_queue st') ≤ attempts_left (upload_queue st) - 1)%nat.
Proof.
  unfold process_queue_step. destruct (upload_queue st) as [|task rest] eqn:Hq.
  { exists st. rewrite Hq. split; [done|]. unfold attempts_left. simpl. lia. }
  set (st0 := {| recordings := recordings st; upload_queue := rest; clock := clock st;
                 trace := trace st |}).
  pose proof (upload_file_returns settings env task st0) as Hok.
  pose proof (upload_file_queue settings env task st0) as Hqueue.
  unfold outcome, exec in *.
  destruct (upload_file settings env task st0) as [res st'] eqn:Hrun. simpl in *.
  subst res. exists st'. split; [done|].
  unfold attempts_left. destruct Hqueue as [->| [Hlt ->]]; simpl.
  - lia.
  - rewrite length_app, retries_left_sum_app. simpl.
    assert (S (retries_left (with_retry_count (default 0 (retry_count task) + 1) task))
            = retries_left task) as Hone by (unfold retries_left; simpl; lia).
    lia.
Qed.

(** X13: the upload queue drains whatever the store answers: after as many rounds of
    the workers as the tasks of the queue have attempts left (one each, and one for
    every re-enqueue left), the queue is empty. *)
Theorem process_queue_drains settings envs st :
  (attempts_left (upload_queue st) ≤ length envs)%nat →
  outcome (process_queue settings envs) st = Ok tt
  ∧ upload_queue (exec (process_queue settings envs) st) = [].
Proof.
  unfold outcome, exec. revert st. induction envs as [|env envs IH]; intros st Hle.
  { simpl in *. split; [done|]. apply attempts_left_0. lia. }
  cbn [process_queue]. unfold bind.
  destruct (process_queue_step_attempts settings env st) as (st' & -> & Hstep).
  apply IH. simpl in Hle. lia.
Qed.

Lemma process_queue_drains_witness :
  outcome (process_queue default_settings (replicate 4 ExUpload.rejecting))
    (ExUpload.queued [ExUpload.task None]) = Ok tt
  ∧ upload_queue (exec (process_queue default_settings (replicate 4 ExUpload.rejecting))
                    (ExUpload.queued [ExUpload.task None])) = [].
Proof.
  apply process_queue_drains. vm_compute. lia.
Defined.

(** ** Session identifiers and output directories *)


















(** ** Stopping the capture child *)

(** X15: [stop_recording] never raises and changes nothing but the trace. It writes
    [q] to the child exactly when the session has a child that has not exited, and
    kills the child exactly when, in addition, the child does not quit within the
    5 seconds it is given; for a session without a child or with a child that has
    exited it does nothing at all. *)
Theorem stop_recording_kills_only_stubborn env r st :
  let tr := events (stop_recording env r) st in
  stop_recording env r st = (Ok tt, extend [] tr st)
  ∧ (∀ p, EvWriteQuit p ∈ tr
          ↔ process r = Some {| p_pid := p |} ∧ child_poll env p = None)
  ∧ (∀ p, EvKill p ∈ tr
          ↔ process r = Some {| p_pid := p |} ∧ child_poll env p = None
            ∧ quits_on_q env p = false)
  ∧ (child_exited env r = true ∨ process r = None → tr = []).
Proof.
  cbv zeta. unfold events, exec. rewrite stop_recording_spec. simpl.
  rewrite drop_app_length. split; [done|].
  unfold stop_recording_events, child_exited, has_exited.
  destruct (process r) as [[c]|]; simpl.
  2:{ split; [|split; [|done]]; intros p; (split; [by intros ?%elem_of_nil|by intros [[=] _]]). }
  destruct (child_poll env c) as [code|] eqn:Hpoll.
  { rewrite bool_decide_eq_true_2 by done.
    split; [|split; [|done]]; intros p;
      (split; [by intros ?%elem_of_nil|
               intros [[= <-] H]; first [congruence|destruct H; congruence]]). }
  rewrite bool_decide_eq_false_2 by (by intros [? ?]).
  destruct (quits_on_q env c) eqn:Hq; simpl.
  - split; [|split].
    + intros p. split.
      * intros Hp. repeat (apply elem_of_cons in Hp as [Hp|Hp]; [by simplify_eq|]).
        by apply elem_of_nil in Hp.
      * intros [[= <-] _]. apply list_elem_of_here.
    + intros p. split.
      * intros Hp. repeat (apply elem_of_cons in Hp as [Hp|Hp]; [done|]).
        by apply elem_of_nil in Hp.
      * intros ([= <-] & _ & ?). congruence.
    + by intros [[=]|[=]].
  - split; [|split].
    + intros p. split.
      * intros Hp. repeat (apply elem_of_cons in Hp as [Hp|Hp]; [by simplify_eq|]).
        by apply elem_of_nil in Hp.
      * intros [[= <-] _]. apply list_elem_of_here.
    + intros p. split.
      * intros Hp. repeat (apply elem_of_cons in Hp as [Hp|Hp]; [by simplify_eq|]).
        by apply elem_of_nil in Hp.
      * intros ([= <-] & _ & _). do 2 apply list_elem_of_further. apply list_elem_of_here.
    + by intros [[=]|[=]].
Qed.

(** ** A session whose stream is polled and whose child runs *)

Lemma get_app_l {V} (k : string) (v : V) (d d' : Py.dict V) :
  Py.get k d = Some v → Py.get k (d ++ d') = Some v.
Proof.
  induction d as [|[k' v'] d IH]; [done|]. simpl.
  destruct (decide (k' = k)); [done|]. apply IH.
Qed.

Lemma get_elem_of {V} (k : string) (v : V) (d : Py.dict V) :
  NoDup (Py.keys d) → (k, v) ∈ d → Py.get k d = Some v.
Proof.
  induction d as [|[k' v'] d IH]; intros Hnd Hin; [by apply elem_of_nil in Hin|].
  simpl in Hnd. apply NoDup_cons in Hnd as [Hk Hnd]. simpl.
  apply elem_of_cons in Hin as [[= -> ->]|Hin].
  - by rewrite decide_True.
  - rewrite decide_False; [by apply IH|]. intros ->. apply Hk.
    unfold Py.keys. apply list_elem_of_fmap. by exists (k, v).
Qed.

Section Kept.
Variable settings : Settings.
Variable env : Env.
Variable s : string.
Variable r : RecordingProcess.

Local Abbreviation kept := (session_kept env s r).

Lemma kept_table st st' : recordings st' = recordings st → kept st → kept st'.
Proof. unfold session_kept. by intros ->. Qed.

Lemma kept_remove k st st' :
  k ≠ s → recordings st' = Py.remove k (recordings st) → kept st → kept st'.
Proof.
  unfold session_kept. intros Hne -> [Hg Hrun]. split; [by rewrite get_remove_ne|].
  intros r' [_ Hin]%list_elem_of_filter. by apply Hrun.
Qed.

Lemma start_stream_recording_kept_session k st :
  kept st → kept (exec (start_stream_recording settings env k) st).
Proof.
  intros [Hg Hrun].
  destruct (start_stream_recording_table settings env k st) as [Heq|(r0 & Habs & _ & Heq)].
  - by apply (kept_table st).
  - unfold session_kept. rewrite Heq. split; [by apply get_app_l|].
    intros r' [Hin|[= -> ->]%list_elem_of_singleton]%elem_of_app; [by apply Hrun|].
    congruence.
Qed.

Lemma start_new_streams_kept active st :
  kept st → kept (exec (start_new_streams settings env active) st).
Proof.
  apply (for_each_keeps kept). clear st.
  intros k st _ Hk. unfold exec, bind, get_recordings. simpl.
  destruct (Py.contains k (recordings st)); simpl; [done|].
  by apply start_stream_recording_kept_session.
Qed.

Lemma check_health_kept_session k r' st :
  (k = s → child_exited env r' = false) →
  kept st → kept (exec (check_health settings env (k, r')) st).
Proof.
  intros Hs Hk. destruct (child_exited env r') eqn:Hex.
  - assert (k ≠ s) as Hne by (intros ->; by specialize (Hs eq_refl)).
    destruct (Py.get k (recordings st)) as [r0|] eqn:Hg.
    + unfold exec. rewrite (check_health_exited _ _ _ _ _ _ Hex Hg).
      apply start_stream_recording_kept_session.
      by apply (kept_remove k st).
    + unfold exec, check_health. unfold child_exited in Hex. rewrite Hex.
      unfold Py.del. apply contains_false in Hg. unfold_prog. simpl. rewrite Hg.
      simpl. by apply (kept_table st).
  - unfold exec. by rewrite (check_health_alive _ _ _ _ _ Hex).
Qed.

Lemma monitor_process_health_kept st :
  kept st → kept (exec (monitor_process_health settings env) st).
Proof.
  intros Hk. unfold exec. rewrite monitor_process_health_unfold.
  pose proof Hk as [_ Hrun]. revert Hk.
  apply (for_each_keeps kept).
  intros [k r'] st' Hin. apply check_health_kept_session.
  intros ->. by apply Hrun.
Qed.

Lemma stop_inactive_streams_kept active st :
  s ∈ active → kept st → kept (exec (stop_inactive_streams settings env active) st).
Proof.
  intros Hs [Hg Hrun].
  destruct (stop_inactive_streams_table settings env active st) as (st' & Hstop & Hrec & _).
  unfold exec. rewrite Hstop. simpl. unfold session_kept. rewrite Hrec.
  split; [by rewrite stopped_get_active|].
  intros r' Hin. apply Hrun. revert Hin. unfold stopped.
  generalize (Py.keys (recordings st)). intros ks. generalize (recordings st).
  induction ks as [|k ks IH]; intros d Hin; [done|]. simpl in Hin.
  apply IH in Hin. case_bool_decide; [done|].
  by apply list_elem_of_filter in Hin as [_ ?].
Qed.

Lemma run_iteration_kept_session names st :
  outcome (get_active_streams settings env) st = Ok names →
  s ∈ names →
  kept st → kept (exec (run_iteration settings env) st).
Proof.
  intros (tr & Hpoll & _)%outcome_get_active_streams Hs Hk.
  assert (kept (extend [] tr st)) as H0 by done.
  pose proof (start_new_streams_kept names _ H0) as H1.
  pose proof (stop_inactive_streams_kept names _ Hs H1) as H2.
  pose proof (monitor_process_health_kept _ H2) as H3.
  unfold exec in *. unfold run_iteration.
  unfold bind at 1. unfold try_except. unfold bind at 1. rewrite Hpoll.
  unfold bind at 1.
  destruct (start_new_streams settings env names (extend [] tr st)) as [[[]|e1] st1];
    simpl in *; [|done].
  unfold bind at 1.
  destruct (stop_inactive_streams settings env names st1) as [[[]|e2] st2];
    simpl in *; [|done].
  destruct (monitor_process_health settings env st2) as [[[]|e3] st3]; simpl in *; done.
Qed.

End Kept.

(** X16: a session whose stream is returned by the poll and whose capture child is
    running goes through the iteration of [run] untouched: the table holds the same
    session object for the stream afterwards (same session id, same dispatched
    set), whatever happens to the other streams, also when a spawn raises. *)
Theorem live_session_survives_tick settings env st names s r :
  NoDup (Py.keys (recordings st)) →
  outcome (get_active_streams settings env) st = Ok names →
  s ∈ names →
  Py.get s (recordings st) = Some r →
  child_exited env r = false →
  Py.get s (recordings (exec (run_iteration settings env) st)) = Some r.
Proof.
  intros Hnd Hpoll Hs Hg Hrun.
  apply (run_iteration_kept_session settings env s r names st Hpoll Hs).
  split; [done|]. intros r' Hin.
  apply (get_elem_of _ _ _ Hnd) in Hin. congruence.
Qed.

Lemma live_session_survives_tick_witness :
  Py.get "cam1"
    (recordings (exec (run_iteration default_settings
                         (Ex.with_children 200 [] ExPoll.sourced))
                   (Ex.state [("cam1", Ex.cam1)] Ex.t0)))
  = Some Ex.cam1.
Proof.
  apply (live_session_survives_tick default_settings
           (Ex.with_children 200 [] ExPoll.sourced)
           (Ex.state [("cam1", Ex.cam1)] Ex.t0) ["cam1"] "cam1" Ex.cam1).
  - apply NoDup_singleton.
  - reflexivity.
  - apply list_elem_of_here.
  - reflexivity.
  - reflexivity.
Defined.
